(** * Lab-report field extraction: a shallow embedding of the Python sources

    The development follows the layout of the repository:
    - [PyStr], [Re], [PyFloat]: the parts of the Python runtime the code calls
      ([str] methods, the backtracking [re] engine, [float(...)] and the
      arithmetic of floats);
    - [Utils]            : [app/utils.py];
    - [LabTestParser]    : [app/lab_test_parser.py];
    - [TextExtractor]    : [app/text_extractor.py];
    - [ImageProcessor], [Roi] : [app/image_processor.py] (the guard of
      [preprocess_image], the contour filter, the crop);
    - [Main], [Api]      : [app/main.py] ([process_lab_report] and the
      handler [get_lab_tests]).

    Text is a [string] whose characters are the code points below 256.
    Python floats are IEEE binary64 values, represented by [spec_float]
    with precision 53 and maximal exponent 1024; [float(s)] rounds the
    decimal numeral to the nearest such value.  Pixel coordinates are
    integers; the histogram is computed in binary64 as numpy computes it,
    and its bin edges and the column bounds are kept as the rationals they
    are.
    OpenCV and Tesseract are outside the repository: the functions that call
    them take what they return (the deskewed page, word boxes, text,
    contours) as input.
    An exception that can leave a function is the [None] of its result. *)

From Stdlib Require Import ZArith NArith QArith Qabs Qround List String Ascii Bool Lia.
From Stdlib Require Import Sorted Permutation.
From Stdlib Require Import SpecFloat.
Import ListNotations.

Local Close Scope Q_scope.
Local Open Scope string_scope.
Local Open Scope list_scope.
Local Open Scope nat_scope.

(* ================================================================== *)
(** ** Python [str] operations used by the sources *)

Module PyStr.

Definition LF : ascii := "010"%char.
Definition TAB : ascii := "009"%char.

Definition code (c : ascii) : N := N_of_ascii c.

Definition between (lo hi : N) (c : ascii) : bool :=
  ((lo <=? code c) && (code c <=? hi))%N.

(** [str.isspace] on one character (also the class [\s] of [re]). *)
Definition is_space (c : ascii) : bool :=
  between 9 13 c || between 28 32 c || (code c =? 133)%N || (code c =? 160)%N.

Definition is_digit (c : ascii) : bool := between 48 57 c.
Definition is_upper (c : ascii) : bool := between 65 90 c.
Definition is_lower (c : ascii) : bool := between 97 122 c.
Definition is_alpha (c : ascii) : bool := is_upper c || is_lower c.

Definition lower_char (c : ascii) : ascii :=
  if is_upper c || (between 192 222 c && negb (code c =? 215)%N)
  then ascii_of_N (code c + 32) else c.

(** [s.lower()] *)
Fixpoint lower (s : string) : string :=
  match s with
  | EmptyString => EmptyString
  | String c s' => String (lower_char c) (lower s')
  end.

(** The test [c in s] for a one-character [c] *)
Fixpoint contains (c : ascii) (s : string) : bool :=
  match s with
  | EmptyString => false
  | String d s' => Ascii.eqb d c || contains c s'
  end.

(** [s.count(c)] for a one-character [c] *)
Fixpoint count (c : ascii) (s : string) : nat :=
  match s with
  | EmptyString => 0
  | String d s' => (if Ascii.eqb d c then 1 else 0) + count c s'
  end.

Definition is_empty (s : string) : bool :=
  match s with EmptyString => true | _ => false end.

(** Python truth value of a string *)
Definition truthy (s : string) : bool := negb (is_empty s).

Fixpoint lstrip (s : string) : string :=
  match s with
  | String c s' => if is_space c then lstrip s' else s
  | EmptyString => EmptyString
  end.

Fixpoint rstrip (s : string) : string :=
  match s with
  | EmptyString => EmptyString
  | String c s' =>
      let r := rstrip s' in
      if is_space c && is_empty r then EmptyString else String c r
  end.

(** [s.strip()] *)
Definition strip (s : string) : string := rstrip (lstrip s).

(** [s.split(d)] for a one-character separator [d] *)
Fixpoint split (d : ascii) (s : string) : list string :=
  match s with
  | EmptyString => [EmptyString]
  | String c s' =>
      match split d s' with
      | h :: t => if Ascii.eqb c d then EmptyString :: h :: t else String c h :: t
      | [] => [String c EmptyString]
      end
  end.

(** [s.split()] : the maximal runs of non-space characters *)
Fixpoint split_ws_aux (s : string) : string * list string :=
  match s with
  | EmptyString => (EmptyString, [])
  | String c s' =>
      let '(w, ws) := split_ws_aux s' in
      if is_space c
      then (EmptyString, if is_empty w then ws else w :: ws)
      else (String c w, ws)
  end.

Definition split_ws (s : string) : list string :=
  let '(w, ws) := split_ws_aux s in
  if is_empty w then ws else w :: ws.

(** [sep.join(l)] *)
Fixpoint join (sep : string) (l : list string) : string :=
  match l with
  | [] => EmptyString
  | [x] => x
  | x :: l' => x ++ sep ++ join sep l'
  end.

(** Every character of [s] satisfies [p]. *)
Fixpoint all_chars (p : ascii -> bool) (s : string) : bool :=
  match s with
  | EmptyString => true
  | String c s' => p c && all_chars p s'
  end.

(** An unsigned decimal numeral: the digits [ds], then possibly a dot and
    the digits [fr]. *)
Definition unsigned_numeral (ds : string) (fr : option string) : string :=
  match fr with
  | Some f => (ds ++ String "." f)%string
  | None => ds
  end.

Definition is_numeral (ds : string) (fr : option string) : Prop :=
  ds <> EmptyString
  /\ all_chars is_digit ds = true
  /\ match fr with Some f => all_chars is_digit f = true | None => True end.

(** The text after the integer digits of a numeral. *)
Definition fraction_text (fr : option string) : string :=
  match fr with Some f => String "." f | None => EmptyString end.

(** The optional equals sign written after a comparison sign. *)
Definition equals_text (with_equals : bool) : string :=
  if with_equals then "=" else EmptyString.

(** [s[n:]] *)
Fixpoint drop (n : nat) (s : string) : string :=
  match n, s with
  | O, _ => s
  | S n', String _ s' => drop n' s'
  | S _, EmptyString => EmptyString
  end.

(** [s[:n]] *)
Fixpoint take (n : nat) (s : string) : string :=
  match n, s with
  | S n', String c s' => String c (take n' s')
  | _, _ => EmptyString
  end.

End PyStr.

(* ================================================================== *)
(** ** Python [float(s)] *)

Module PyFloat.
Import PyStr.

Definition prec : Z := 53.
Definition emax : Z := 1024.

Definition pyfloat := spec_float.

Definition inf : pyfloat := S754_infinity false.
Definition neg_inf : pyfloat := S754_infinity true.
Definition zero : pyfloat := S754_zero false.

(** Python's [<], [>], [==], [!=] on floats (IEEE comparisons). *)
Definition flt (a b : pyfloat) : bool := SFltb a b.
Definition fgt (a b : pyfloat) : bool := SFltb b a.
Definition feq (a b : pyfloat) : bool := SFeqb a b.
Definition fne (a b : pyfloat) : bool := negb (SFeqb a b).
Definition fle (a b : pyfloat) : bool := SFleb a b.

Definition is_finite (a : pyfloat) : bool :=
  match a with
  | S754_zero _ | S754_finite _ _ _ => true
  | S754_infinity _ | S754_nan => false
  end.

(** The binary64 value of an integer (the nearest one, ties to even). *)
Definition of_int (z : Z) : pyfloat := binary_normalize prec emax z 0 false.

(** The arithmetic of binary64, rounded to nearest. *)
Definition fadd (a b : pyfloat) : pyfloat := SFadd prec emax a b.
Definition fsub (a b : pyfloat) : pyfloat := SFsub prec emax a b.
Definition fmul (a b : pyfloat) : pyfloat := SFmul prec emax a b.
Definition fdiv (a b : pyfloat) : pyfloat := SFdiv prec emax a b.

Definition half : pyfloat := fdiv (of_int 1) (of_int 2).

(** The rational number that a finite float is, in lowest terms. *)
Definition to_Q (a : pyfloat) : Q :=
  match a with
  | S754_finite s m e =>
      Qred ((if s then -1 else 1) * inject_Z (Zpos m) * Qpower 2 e)%Q
  | _ => 0%Q
  end.

(** The integer part of a float: the cast to an integer type truncates. *)
Definition to_int (a : pyfloat) : Z :=
  match a with
  | S754_finite s m e =>
      let n :=
        if (0 <=? e)%Z then (Zpos m * 2 ^ e)%Z else (Zpos m / 2 ^ (- e))%Z in
      if s then (- n)%Z else n
  | _ => 0%Z
  end.

(** The binary64 value nearest to [m * 10^e10] (ties to even), [m >= 0]. *)
Definition dec_to_float (neg : bool) (m : Z) (e10 : Z) : pyfloat :=
  match m with
  | Zpos p =>
      if (0 <=? e10)%Z
      then binary_normalize prec emax
             (if neg then (- (m * 10 ^ e10))%Z else (m * 10 ^ e10)%Z) 0 false
      else SFdiv prec emax (S754_finite neg p 0)
             (S754_finite false (Z.to_pos (10 ^ (- e10))) 0)
  | _ => S754_zero neg
  end.

Definition digit_val (c : ascii) : Z := Z.of_N (code c) - 48.

(** The rest of a [digitpart] once a first digit has been read:
    [(["_"] digit)*].  [acc] is the number read so far, [n] the number of
    digits read so far. *)
Fixpoint digits_tail (s : string) (acc : Z) (n : nat) : Z * nat * string :=
  match s with
  | String c s' =>
      if is_digit c then digits_tail s' (acc * 10 + digit_val c)%Z (S n)
      else if Ascii.eqb c "_" then
        match s' with
        | String d s'' =>
            if is_digit d then digits_tail s'' (acc * 10 + digit_val d)%Z (S n)
            else (acc, n, s)
        | EmptyString => (acc, n, s)
        end
      else (acc, n, s)
  | EmptyString => (acc, n, s)
  end.

(** [digitpart], continuing the number [acc]; [None] when [s] does not start
    with a digit. *)
Definition digitpart (s : string) (acc : Z) : option (Z * nat * string) :=
  match s with
  | String c s' =>
      if is_digit c then Some (digits_tail s' (acc * 10 + digit_val c)%Z 1%nat)
      else None
  | EmptyString => None
  end.

(** [number ::= [digitpart] "." digitpart | digitpart ["."]];
    the result is (all digits as one integer, number of fraction digits, rest). *)
Definition number (s : string) : option (Z * nat * string) :=
  match digitpart s 0 with
  | Some (m, _, rest) =>
      match rest with
      | String "." rest' =>
          match digitpart rest' m with
          | Some (m', k, rest'') => Some (m', k, rest'')
          | None => Some (m, O, rest')
          end
      | _ => Some (m, O, rest)
      end
  | None =>
      match s with
      | String "." rest' => digitpart rest' 0
      | _ => None
      end
  end.

(** [exponent ::= ("e" | "E") [sign] digitpart], which must end the string;
    an absent exponent is [0]. *)
Definition exponent (s : string) : option Z :=
  match s with
  | EmptyString => Some 0%Z
  | String c s' =>
      if Ascii.eqb c "e" || Ascii.eqb c "E" then
        let '(neg, s'') :=
          match s' with
          | String "+" r => (false, r)
          | String "-" r => (true, r)
          | _ => (false, s')
          end in
        match digitpart s'' 0 with
        | Some (e, _, EmptyString) => Some (if neg then (- e)%Z else e)
        | _ => None
        end
      else None
  end.

(** The white space that [float] skips at both ends of its argument: the
    ASCII white space (9 to 13 and 32) and the two white-space characters
    above 127.  The separators 28 to 31, which [str.strip] removes, are not
    among them. *)
Definition float_space (c : ascii) : bool :=
  between 9 13 c || (code c =? 32)%N || (code c =? 133)%N || (code c =? 160)%N.

Fixpoint float_lstrip (s : string) : string :=
  match s with
  | String c s' => if float_space c then float_lstrip s' else s
  | EmptyString => EmptyString
  end.

Fixpoint float_rstrip (s : string) : string :=
  match s with
  | EmptyString => EmptyString
  | String c s' =>
      let r := float_rstrip s' in
      if float_space c && is_empty r then EmptyString else String c r
  end.

Definition float_strip (s : string) : string := float_rstrip (float_lstrip s).

(** [float(s)]; [None] stands for [ValueError]. *)
Definition float (s : string) : option pyfloat :=
  let s := float_strip s in
  let '(neg, s) :=
    match s with
    | String "+" r => (false, r)
    | String "-" r => (true, r)
    | _ => (false, s)
    end in
  let l := lower s in
  if String.eqb l "inf" || String.eqb l "infinity" then Some (S754_infinity neg)
  else if String.eqb l "nan" then Some S754_nan
  else
    match number s with
    | Some (m, k, rest) =>
        match exponent rest with
        | Some e => Some (dec_to_float neg m (e - Z.of_nat k))
        | None => None
        end
    | None => None
    end.

End PyFloat.

(* ================================================================== *)
(** ** The backtracking [re] engine, for the constructs the sources use *)

Module Re.
Import PyStr.

(** Quantifiers are greedy.  [Rep p lo] is a character class repeated at
    least [lo] times (plus is [Rep p 1], star is [Rep p 0], two-or-more is
    [Rep p 2]); [Opt] is the question mark; [Grp n] is the n-th capturing
    group; [Ahead] is a positive lookahead; [Eos] is the dollar anchor. *)
Inductive regex : Type :=
| Eps
| Cls (p : ascii -> bool)
| Cat (r1 r2 : regex)
| Alt (r1 r2 : regex)
| Rep (p : ascii -> bool) (lo : nat)
| Opt (r : regex)
| Grp (n : nat) (r : regex)
| Ahead (r : regex)
| Eos.

(** Captured groups, most recent binding first. *)
Definition caps := list (nat * string).

Fixpoint group (n : nat) (c : caps) : option string :=
  match c with
  | [] => None
  | (k, v) :: c' => if Nat.eqb k n then Some v else group n c'
  end.

(** A continuation receives the unread input and the captures so far. *)
Definition cont := string -> caps -> option (string * caps).

Definition final : cont := fun s c => Some (s, c).

Definition at_least_zero (lo : nat) : bool :=
  match lo with O => true | S _ => false end.

Fixpoint rep (p : ascii -> bool) (lo : nat) (s : string) (c : caps) (k : cont)
  : option (string * caps) :=
  match s with
  | String a s' =>
      if p a then
        match rep p (pred lo) s' c k with
        | Some r => Some r
        | None => if at_least_zero lo then k s c else None
        end
      else if at_least_zero lo then k s c else None
  | EmptyString => if at_least_zero lo then k s c else None
  end.

(** A text that does not start with a character of the class [p]. *)
Definition stops (p : ascii -> bool) (s : string) : Prop :=
  match s with String a _ => p a = false | EmptyString => True end.

(** The text consumed between the input [s] and its suffix [s']. *)
Definition consumed (s s' : string) : string :=
  take (String.length s - String.length s') s.

Fixpoint run (r : regex) (s : string) (c : caps) (k : cont)
  : option (string * caps) :=
  match r with
  | Eps => k s c
  | Cls p =>
      match s with
      | String a s' => if p a then k s' c else None
      | EmptyString => None
      end
  | Cat r1 r2 => run r1 s c (fun s' c' => run r2 s' c' k)
  | Alt r1 r2 =>
      match run r1 s c k with
      | Some x => Some x
      | None => run r2 s c k
      end
  | Rep p lo => rep p lo s c k
  | Opt r1 =>
      match run r1 s c k with
      | Some x => Some x
      | None => k s c
      end
  | Grp n r1 => run r1 s c (fun s' c' => k s' ((n, consumed s s') :: c'))
  | Ahead r1 =>
      match run r1 s c final with
      | Some (_, c') => k s c'
      | None => None
      end
  | Eos =>
      match s with
      | EmptyString => k s c
      | String a EmptyString => if Ascii.eqb a LF then k s c else None
      | _ => None
      end
  end.

(** A match object: [start()], [end()], [group(0)] and the groups. *)
Record match_obj : Type := MkMatch
  { m_start : nat; m_end : nat; m_text : string; m_groups : caps }.

Definition match_at (r : regex) (s : string) (pos : nat) : option match_obj :=
  match run r s [] final with
  | Some (s', c) =>
      let n := (String.length s - String.length s')%nat in
      Some (MkMatch pos (pos + n) (take n s) c)
  | None => None
  end.

Fixpoint search_from (r : regex) (s : string) (pos : nat) : option match_obj :=
  match match_at r s pos with
  | Some mo => Some mo
  | None =>
      match s with
      | String _ s' => search_from r s' (S pos)
      | EmptyString => None
      end
  end.

(** [re.search(r, s)] *)
Definition search (r : regex) (s : string) : option match_obj :=
  search_from r s 0.

Definition matches (r : regex) (s : string) : bool :=
  match search r s with Some _ => true | None => false end.

(** [re.finditer(r, s)]: the leftmost non-overlapping matches.  [skip]
    counts the characters of the previous match still to be stepped over.
    The patterns it is used with match no empty string. *)
Fixpoint finditer_from (r : regex) (s : string) (pos skip : nat)
  : list match_obj :=
  match s with
  | EmptyString => []
  | String _ t =>
      match skip with
      | S skip' => finditer_from r t (S pos) skip'
      | O =>
          match match_at r s pos with
          | Some mo =>
              mo :: finditer_from r t (S pos) (pred (m_end mo - m_start mo))
          | None => finditer_from r t (S pos) 0
          end
      end
  end.

Definition finditer (r : regex) (s : string) : list match_obj :=
  finditer_from r s 0 0.

(** [re.sub] with the empty replacement, for patterns that match no empty
    string. *)
Fixpoint sub_from (r : regex) (s : string) (skip : nat) : string :=
  match s with
  | EmptyString => EmptyString
  | String a t =>
      match skip with
      | S skip' => sub_from r t skip'
      | O =>
          match match_at r s 0 with
          | Some mo =>
              match m_end mo with
              | O => String a (sub_from r t 0)
              | S n => sub_from r t n
              end
          | None => String a (sub_from r t 0)
          end
      end
  end.

Definition sub_empty (r : regex) (s : string) : string := sub_from r s 0.

(** Pattern building blocks. *)
Definition chr (a : ascii) : regex := Cls (Ascii.eqb a).

Fixpoint lit (s : string) : regex :=
  match s with
  | EmptyString => Eps
  | String a EmptyString => chr a
  | String a s' => Cat (chr a) (lit s')
  end.

Fixpoint seq (l : list regex) : regex :=
  match l with
  | [] => Eps
  | [r] => r
  | r :: l' => Cat r (seq l')
  end.

Fixpoint alts (l : list regex) : regex :=
  match l with
  | [] => Cls (fun _ => false)
  | [r] => r
  | r :: l' => Alt r (alts l')
  end.

(** Any run of white space, and a non-empty one. *)
Definition ws_star : regex := Rep is_space 0.
Definition ws_plus : regex := Rep is_space 1.

End Re.

(* ================================================================== *)
(** ** [app/utils.py] *)

Module Utils.
Import PyStr PyFloat Re.

(** The capturing group of Cases 2 and 3: one or more digits, an optional
    dot, then digits. *)
Definition number_group : regex :=
  Grp 1 (seq [Rep is_digit 1; Opt (chr "."); Rep is_digit 0]).

(** A comparison sign, spaces, an optional equals sign, spaces, and the
    number group. *)
Definition comparison_re (sign : ascii) : regex :=
  seq [chr sign; ws_star; Opt (chr "="); ws_star; number_group].

(** Case 2: the pattern after a less-than sign. *)
Definition less_than_re : regex := comparison_re "<".

(** Case 3: the pattern after a greater-than sign. *)
Definition greater_than_re : regex := comparison_re ">".

(** Case 1 of [parse_reference_range]: the format "X-Y". *)
Definition range_case (range_str : string) : option (pyfloat * pyfloat) :=
  if contains "-" range_str
     && negb (contains "<" range_str || contains ">" range_str)
  then
    match split "-" range_str with
    | [p0; p1] =>
        match float (strip p0) with
        | Some min_val =>
            match float (strip p1) with
            | Some max_val => Some (min_val, max_val)
            | None => None
            end
        | None => None
        end
    | _ => None
    end
  else None.

(** Cases 2 and 3: the number that follows the comparison sign. *)
Definition bound_case (sign : ascii) (r : regex) (range_str : string)
  : option pyfloat :=
  if contains sign range_str then
    match search r range_str with
    | Some mo =>
        match group 1 (m_groups mo) with
        | Some g => float g
        | None => None
        end
    | None => None
    end
  else None.

Definition parse_reference_range (range_str : string) : pyfloat * pyfloat :=
  let range_str := strip range_str in
  match range_case range_str with
  | Some r => r
  | None =>
      match bound_case "<" less_than_re range_str with
      | Some max_val => (neg_inf, max_val)
      | None =>
          match bound_case ">" greater_than_re range_str with
          | Some min_val => (min_val, inf)
          | None => (zero, zero)
          end
      end
  end.

Definition is_value_out_of_range (value : pyfloat) (reference_range : string)
  : bool :=
  let '(min_val, max_val) := parse_reference_range reference_range in
  if fne min_val neg_inf && flt value min_val then true
  else if fne max_val inf && fgt value max_val then true
  else false.

(** A trailing parenthetical remark: spaces, an opening parenthesis, any
    characters but a closing parenthesis, the closing one, spaces, end. *)
Definition trailing_paren_re : regex :=
  seq [ws_star; chr "("; Rep (fun a => negb (Ascii.eqb a ")")) 0; chr ")";
       ws_star; Eos].

(** A trailing [- Result] suffix, with optional spaces around its parts. *)
Definition trailing_result_re : regex :=
  seq [ws_star; chr "-"; ws_star; lit "Result"; ws_star; Eos].

Definition patterns_to_remove : list regex :=
  [trailing_paren_re; trailing_result_re].

Definition clean_test_name (name : string) : string :=
  let name := join " " (split_ws name) in
  strip (fold_left (fun name pattern => sub_empty pattern name)
                   patterns_to_remove name).

(** The value of a record: a float, or the raw string when it is no float. *)
Inductive value_t : Type :=
| VFloat (f : pyfloat)
| VStr (s : string).

Record lab_test : Type := MkLabTest
  { test_name : string;
    test_value : value_t;
    bio_reference_range : string;
    test_unit : string;
    lab_test_out_of_range : bool }.

(** The unit: a run of letters, slashes and percent signs. *)
Definition unit_re : regex :=
  Rep (fun a => is_alpha a || Ascii.eqb a "/" || Ascii.eqb a "%") 1.

Definition format_lab_test (test_name value_str reference_range : string)
  : lab_test :=
  let value :=
    match float value_str with
    | Some v => VFloat v
    | None => VStr value_str
    end in
  let test_unit :=
    match search unit_re reference_range with
    | Some mo => m_text mo
    | None => EmptyString
    end in
  let out_of_range :=
    match value with
    | VFloat v => is_value_out_of_range v reference_range
    | VStr _ => false
    end in
  MkLabTest (clean_test_name test_name) value reference_range test_unit
            out_of_range.

End Utils.

(* ================================================================== *)
(** ** [app/lab_test_parser.py] *)

Module LabTestParser.
Import PyStr PyFloat Re Utils.

(** The character classes of the four templates. *)
Definition name_cls (a : ascii) : bool :=
  is_alpha a || is_digit a || is_space a
  || Ascii.eqb a "-" || Ascii.eqb a "+" || Ascii.eqb a "/".

Definition value_cls (a : ascii) : bool := is_digit a || Ascii.eqb a ".".

Definition range_cls (a : ascii) : bool :=
  is_digit a || Ascii.eqb a "." || Ascii.eqb a "<" || Ascii.eqb a ">"
  || Ascii.eqb a "-" || is_space a.

Definition name_group : regex := Grp 1 (Rep name_cls 1).
Definition value_group : regex := Grp 2 (Rep value_cls 1).
Definition range_group : regex := Grp 3 (Rep range_cls 1).
Definition dots : regex := Rep (Ascii.eqb ".") 2.

(** Pattern 1: Test Name: Value (Range) *)
Definition pattern1 : regex :=
  seq [name_group; ws_star; chr ":"; ws_star; value_group; ws_star;
       Opt (seq [chr "("; range_group; chr ")"])].

(** Pattern 2: Test Name Value Range *)
Definition pattern2 : regex :=
  seq [name_group; ws_plus; value_group; ws_plus; range_group].

(** Pattern 3: Test Name......Value......Range *)
Definition pattern3 : regex :=
  seq [name_group; dots; ws_star; value_group; dots; ws_star; range_group].

(** Pattern 4: Test Name Result: Value Range *)
Definition pattern4 : regex :=
  seq [name_group; ws_plus; lit "Result"; ws_star; chr ":"; ws_star;
       value_group; ws_plus; range_group].

Definition patterns : list regex := [pattern1; pattern2; pattern3; pattern4].

Definition table_header_patterns : list regex :=
  [seq [lit "test"; ws_star; lit "name"];
   lit "parameter";
   lit "investigation";
   seq [lit "lab"; ws_star; lit "test"]].

Definition value_header_patterns : list regex :=
  [lit "result"; lit "value"; lit "reading"].

Definition range_header_patterns : list regex :=
  [seq [lit "reference"; ws_star; lit "range"];
   seq [lit "normal"; ws_star; lit "range"];
   seq [lit "bio"; ws_star; lit "reference"];
   seq [lit "expected"; ws_star; lit "range"]].

(** [any(re.search(pattern, s) for pattern in pats)] *)
Definition any_match (pats : list regex) (s : string) : bool :=
  existsb (fun pattern => matches pattern s) pats.

(** The number of capturing groups of a pattern: [len(match.groups())]. *)
Fixpoint ngroups (r : regex) : nat :=
  match r with
  | Cat r1 r2 | Alt r1 r2 => ngroups r1 + ngroups r2
  | Opt r1 | Ahead r1 => ngroups r1
  | Grp _ r1 => S (ngroups r1)
  | Eps | Cls _ | Rep _ _ | Eos => 0
  end.

(** [match.group(n)] of a group that took part in the match. *)
Definition grp (n : nat) (mo : match_obj) : string :=
  match group n (m_groups mo) with
  | Some g => g
  | None => EmptyString
  end.

Definition nonempty {A : Type} (l : list A) : bool :=
  match l with [] => false | _ :: _ => true end.

(** The body of the inner loop of [parse_text]. *)
Definition record_of_match (pattern : regex) (mo : match_obj)
  : option lab_test :=
  if 2 <=? ngroups pattern then
    let test_name := strip (grp 1 mo) in
    let value_str := strip (grp 2 mo) in
    let reference_range :=
      if (3 <=? ngroups pattern) && truthy (grp 3 mo)
      then strip (grp 3 mo) else "N/A" in
    Some (format_lab_test test_name value_str reference_range)
  else None.

Definition append_match (pattern : regex) (lab_tests : list lab_test)
  (mo : match_obj) : list lab_test :=
  match record_of_match pattern mo with
  | Some t => lab_tests ++ [t]
  | None => lab_tests
  end.

(** The loop over [self.patterns] of [parse_text], started on [lab_tests]. *)
Definition try_patterns (text : string) (lab_tests : list lab_test)
  : list lab_test :=
  fold_left
    (fun lab_tests pattern =>
       fold_left (append_match pattern) (finditer pattern text) lab_tests)
    patterns lab_tests.

(** The records one template contributes: one per match, in order. *)
Definition template_records (text : string) (pattern : regex)
  : list lab_test :=
  flat_map
    (fun mo =>
       match record_of_match pattern mo with Some t => [t] | None => [] end)
    (finditer pattern text).

Definition is_header_line (line : string) : bool :=
  let line_lower := lower line in
  any_match table_header_patterns line_lower
  && any_match value_header_patterns line_lower.

Definition total_count (c : ascii) (lines : list string) : nat :=
  fold_left (fun n line => n + count c line) lines 0.

Definition Qlt_bool (a b : Q) : bool := negb (Qle_bool b a).

Definition _is_tabular_format (text : string) : bool :=
  let lines := split LF text in
  if existsb is_header_line lines then true
  else
    let delimiter_counts :=
      [total_count "|" lines; total_count TAB lines; total_count "," lines] in
    existsb
      (fun count =>
         Qlt_bool (inject_Z (Z.of_nat (List.length lines)) * (3 # 2))%Q
                  (inject_Z (Z.of_nat count)))
      delimiter_counts.

(** The dictionary [header_columns], with its three possible keys. *)
Record header_columns : Type := MkHeader
  { hc_test_name : option nat; hc_value : option nat; hc_range : option nat }.

Definition no_columns : header_columns := MkHeader None None None.

Definition opt_max (a : option nat) (m : nat) : nat :=
  match a with Some n => Nat.max n m | None => m end.

(** [max(header_columns.values())] *)
Definition hc_max (hc : header_columns) : nat :=
  opt_max (hc_test_name hc) (opt_max (hc_value hc) (opt_max (hc_range hc) 0)).

(** The loop [for j, col in enumerate(columns)] that maps column roles. *)
Fixpoint map_columns (columns : list string) (j : nat) (hc : header_columns)
  : header_columns :=
  match columns with
  | [] => hc
  | col :: columns' =>
      map_columns columns' (S j)
        (if any_match table_header_patterns col
         then MkHeader (Some j) (hc_value hc) (hc_range hc)
         else if any_match value_header_patterns col
         then MkHeader (hc_test_name hc) (Some j) (hc_range hc)
         else if any_match range_header_patterns col
         then MkHeader (hc_test_name hc) (hc_value hc) (Some j)
         else hc)
  end.

(** One data row under an identified header. *)
Definition data_row (delimiter : ascii) (hc : header_columns) (tn v : nat)
  (lab_tests : list lab_test) (line : string) : list lab_test :=
  let data_line := strip line in
  if is_empty data_line then lab_tests
  else
    let data_cols := map strip (split delimiter data_line) in
    if List.length data_cols <=? hc_max hc then lab_tests
    else
      let test_name := nth tn data_cols EmptyString in
      let value_str := nth v data_cols EmptyString in
      let reference_range :=
        match hc_range hc with
        | Some r =>
            if r <? List.length data_cols then nth r data_cols EmptyString
            else "N/A"
        | None => "N/A"
        end in
      if truthy test_name && truthy value_str
      then lab_tests ++ [format_lab_test test_name value_str reference_range]
      else lab_tests.

(** The loop over the potential delimiters of a header line; [rest] holds
    the lines after it.  [inl] is a [return] from inside the loop. *)
Fixpoint try_delimiters (delimiters : list ascii) (line : string)
  (rest : list string) (hc : header_columns) (lab_tests : list lab_test)
  : list lab_test + header_columns * list lab_test :=
  match delimiters with
  | [] => inr (hc, lab_tests)
  | delimiter :: delimiters' =>
      if contains delimiter line then
        let columns :=
          map (fun col => lower (strip col)) (split delimiter line) in
        let hc := map_columns columns 0 hc in
        match hc_test_name hc, hc_value hc with
        | Some tn, Some v =>
            let lab_tests :=
              fold_left (data_row delimiter hc tn v) rest lab_tests in
            if nonempty lab_tests then inl lab_tests
            else try_delimiters delimiters' line rest hc lab_tests
        | _, _ => try_delimiters delimiters' line rest hc lab_tests
        end
      else try_delimiters delimiters' line rest hc lab_tests
  end.

Definition potential_delimiters (line : string) : list ascii :=
  ["|"%char; TAB]
  ++ (if contains "," line && negb (5 <? count "," line) then [","%char]
      else []).

(** The loop that looks for header lines; [found] records that
    [header_line_idx] has been set. *)
Fixpoint header_scan (lines : list string) (found : bool)
  (hc : header_columns) (lab_tests : list lab_test)
  : list lab_test + bool * list lab_test :=
  match lines with
  | [] => inr (found, lab_tests)
  | line :: rest =>
      if is_header_line line then
        match try_delimiters (potential_delimiters line) line rest hc lab_tests
        with
        | inl r => inl r
        | inr (hc', lab_tests') => header_scan rest true hc' lab_tests'
        end
      else header_scan rest found hc lab_tests
  end.

(** One line of the positional fallback (columns 0, 1, 2 split on tabs). *)
Definition positional_row (lab_tests : list lab_test) (line : string)
  : list lab_test :=
  let line := strip line in
  if is_empty line then lab_tests
  else
    let columns := split TAB line in
    if 2 <=? List.length columns then
      if any_match table_header_patterns (lower (nth 0 columns EmptyString))
      then lab_tests
      else
        let test_name := strip (nth 0 columns EmptyString) in
        let value_str :=
          if 1 <? List.length columns then strip (nth 1 columns EmptyString)
          else EmptyString in
        let reference_range :=
          if 2 <? List.length columns then strip (nth 2 columns EmptyString)
          else "N/A" in
        if truthy test_name && truthy value_str
        then lab_tests ++ [format_lab_test test_name value_str reference_range]
        else lab_tests
    else lab_tests.

Definition _parse_tabular_format (text : string) : list lab_test :=
  let lines := split LF text in
  match header_scan lines false no_columns [] with
  | inl r => r
  | inr (found, lab_tests) =>
      if found then lab_tests
      else fold_left positional_row lines lab_tests
  end.

(** The vocabulary of common analyte names, first list. *)
Definition common_names1 : regex :=
  Grp 1 (alts (map lit
    ["Hemoglobin"; "WBC"; "RBC"; "Platelets"; "Glucose"; "Cholesterol"; "HDL";
     "LDL"; "Triglycerides"; "Sodium"; "Potassium"; "Chloride"; "Calcium";
     "Magnesium"; "Creatinine"; "BUN"; "ALT"; "AST"; "Bilirubin"; "Albumin";
     "ALP"; "HbA1c"])).

(** Second list. *)
Definition common_names2 : regex :=
  Grp 1 (alts (map lit
    ["TSH"; "T3"; "T4"; "Vitamin D"; "B12"; "Folate"; "Iron"; "Ferritin"])).

(** A letter, then letters, spaces and dashes, in front of optional spaces
    and a colon or an equals sign. *)
Definition generic_name : regex :=
  seq [Grp 1 (seq [Cls is_alpha;
                   Rep (fun a => is_alpha a || is_space a || Ascii.eqb a "-") 1]);
       Ahead (seq [ws_star;
                   Cls (fun a => Ascii.eqb a ":" || Ascii.eqb a "=")])].

Definition test_name_patterns : list regex :=
  [common_names1; common_names2; generic_name].

Definition unsigned_number : regex :=
  seq [Rep is_digit 1; Opt (chr "."); Rep is_digit 0].

Definition value_pattern : regex := Grp 1 unsigned_number.

(** Two numbers around a dash.  The en dash the source also accepts lies
    outside the alphabet of [string]. *)
Definition range_pattern : regex :=
  Grp 1 (seq [unsigned_number; ws_star; chr "-"; ws_star; unsigned_number]).

(** The first pattern of the list that matches the line. *)
Fixpoint first_match (pats : list regex) (line : string) : option match_obj :=
  match pats with
  | [] => None
  | pattern :: pats' =>
      match search pattern line with
      | Some mo => Some mo
      | None => first_match pats' line
      end
  end.

(** [search pattern] on the line, else on the next line when there is one
    that is not blank. *)
Definition here_or_next (pattern : regex) (here : string)
  (next : option string) : option string :=
  match search pattern here with
  | Some mo => Some (strip (grp 1 mo))
  | None =>
      match next with
      | Some n =>
          if truthy (strip n) then
            match search pattern n with
            | Some mo => Some (strip (grp 1 mo))
            | None => None
            end
          else None
      | None => None
      end
  end.

(** The body of the loop of [_parse_aggressive] for one line. *)
Definition aggressive_line (lab_tests : list lab_test) (line : string)
  (next : option string) : list lab_test :=
  if is_empty (strip line) then lab_tests
  else
    match first_match test_name_patterns line with
    | None => lab_tests
    | Some mo =>
        let test_name := strip (grp 1 mo) in
        if is_empty test_name then lab_tests
        else
          match here_or_next value_pattern (drop (m_end mo) line) next with
          | None => lab_tests
          | Some value_str =>
              if is_empty value_str then lab_tests
              else
                let reference_range :=
                  match here_or_next range_pattern line next with
                  | Some r => r
                  | None => "N/A"
                  end in
                lab_tests
                  ++ [format_lab_test test_name value_str reference_range]
          end
    end.

Fixpoint aggressive_lines (lines : list string) (lab_tests : list lab_test)
  : list lab_test :=
  match lines with
  | [] => lab_tests
  | line :: rest =>
      aggressive_lines rest
        (aggressive_line lab_tests line
           (match rest with n :: _ => Some n | [] => None end))
  end.

Definition _parse_aggressive (text : string) : list lab_test :=
  aggressive_lines (split LF text) [].

Definition parse_text (text : string) : list lab_test :=
  if _is_tabular_format text then _parse_tabular_format text
  else
    let lab_tests := try_patterns text [] in
    if nonempty lab_tests then lab_tests
    else _parse_aggressive text.

(** [row[i]] with Python's negative indices; the callers guard the index. *)
Definition py_get (row : list string) (i : Z) : string :=
  if (0 <=? i)%Z then nth (Z.to_nat i) row EmptyString
  else nth (Z.to_nat (Z.of_nat (List.length row) + i)) row EmptyString.

(** The loop over the cells of the first row of [parse_table_data]. *)
Fixpoint header_cells (cells : list string) (j : Z) (cols : Z * Z * Z)
  : Z * Z * Z :=
  match cells with
  | [] => cols
  | cell :: cells' =>
      let '(test_name_col, value_col, range_col) := cols in
      let cell_lower := lower cell in
      header_cells cells' (j + 1)%Z
        (if any_match table_header_patterns cell_lower
         then (j, value_col, range_col)
         else if any_match value_header_patterns cell_lower
         then (test_name_col, j, range_col)
         else if any_match range_header_patterns cell_lower
         then (test_name_col, value_col, j)
         else cols)
  end.

Definition table_row (test_name_col value_col range_col : Z)
  (lab_tests : list lab_test) (row : list string) : list lab_test :=
  let needed :=
    fold_left Z.max
      (filter (fun col => (0 <=? col)%Z) [test_name_col; value_col; range_col])
      0%Z in
  if (Z.of_nat (List.length row) <=? needed)%Z then lab_tests
  else
    let test_name := strip (py_get row test_name_col) in
    let value_str := strip (py_get row value_col) in
    let reference_range :=
      if (0 <=? range_col)%Z && (range_col <? Z.of_nat (List.length row))%Z
      then strip (py_get row range_col) else "N/A" in
    if truthy test_name && truthy value_str
    then lab_tests ++ [format_lab_test test_name value_str reference_range]
    else lab_tests.

Definition parse_table_data (table_data : list (list string))
  : list lab_test :=
  match table_data with
  | [] => []
  | [] :: _ => []
  | first :: others =>
      let '(test_name_col, value_col, range_col) :=
        header_cells first 0%Z ((-1)%Z, (-1)%Z, (-1)%Z) in
      if (test_name_col =? -1)%Z && (value_col =? -1)%Z then
        fold_left
          (table_row 0%Z 1%Z (if 2 <? List.length first then 2%Z else range_col))
          table_data []
      else
        fold_left (table_row test_name_col value_col range_col) others []
  end.

End LabTestParser.

(* ================================================================== *)
(** ** [app/text_extractor.py] *)

Module TextExtractor.
Import PyStr.

(** A recognised word with its bounding box, as [extract_text_with_boxes]
    returns it. *)
Record word_box : Type := MkBox
  { wb_text : string; wb_x : Z; wb_y : Z; wb_width : Z; wb_height : Z }.

(** A merged line of [extract_structured_data]. *)
Record text_line : Type := MkLine
  { tl_text : string; tl_x : Z; tl_y : Z; tl_width : Z; tl_height : Z }.

(** [sorted(l, key=key)]: a stable insertion sort. *)
Fixpoint insert_by {A : Type} (key : A -> Z) (a : A) (l : list A) : list A :=
  match l with
  | [] => [a]
  | b :: l' => if (key b <? key a)%Z then b :: insert_by key a l' else a :: l
  end.

Definition sorted {A : Type} (key : A -> Z) (l : list A) : list A :=
  fold_right (insert_by key) [] l.

(** The tolerance [box['height'] * 0.5]. *)
Definition tolerance (box : word_box) : Q := (inject_Z (wb_height box) * (1 # 2))%Q.

(** The state of the loop of [_group_by_lines]:
    [lines], [current_line] and [y_tolerance]. *)
Definition group_state : Type := list (list word_box) * list word_box * Q.

Definition group_step (st : group_state) (box : word_box) : group_state :=
  let '(lines, current_line, y_tolerance) := st in
  let current_y :=
    match current_line with b :: _ => wb_y b | [] => wb_y box end in
  if Qle_bool (Qabs (inject_Z (wb_y box - current_y))) y_tolerance
  then (lines, current_line ++ [box], y_tolerance)
  else (lines ++ [sorted wb_x current_line], [box], tolerance box).

(** The end of [_group_by_lines]: the last line is added. *)
Definition close_lines (st : group_state) : list (list word_box) :=
  let '(lines, current_line, _) := st in
  if LabTestParser.nonempty current_line
  then lines ++ [sorted wb_x current_line]
  else lines.

Definition _group_by_lines (text_boxes : list word_box)
  : list (list word_box) :=
  match sorted wb_y text_boxes with
  | [] => []
  | first :: others =>
      close_lines (fold_left group_step others ([], [first], tolerance first))
  end.

(** [min(...)] and [max(...)] of a list of integers ([0] stands for the
    [ValueError] on an empty list, which the callers exclude). *)
Definition list_min (l : list Z) : Z :=
  match l with [] => 0%Z | a :: l' => fold_left Z.min l' a end.

Definition list_max (l : list Z) : Z :=
  match l with [] => 0%Z | a :: l' => fold_left Z.max l' a end.

Definition merge_line (line : list word_box) : text_line :=
  let x := list_min (map wb_x line) in
  let y := list_min (map wb_y line) in
  MkLine (join " " (map wb_text line)) x y
    (list_max (map (fun box => wb_x box + wb_width box)%Z line) - x)%Z
    (list_max (map (fun box => wb_y box + wb_height box)%Z line) - y)%Z.

(** [extract_structured_data], from the boxes the recogniser returned. *)
Definition extract_structured_data (text_boxes : list word_box)
  : list text_line :=
  map merge_line (_group_by_lines text_boxes).

(** [numpy.linspace(start, stop, num + 1)] in binary64: the step is the
    rounded quotient, each point is the rounded product plus the start, and
    the last point is [stop] itself. *)
Definition linspace (start stop : PyFloat.pyfloat) (num : nat)
  : list PyFloat.pyfloat :=
  let delta := PyFloat.fsub stop start in
  let div := PyFloat.of_int (Z.of_nat num) in
  let step := PyFloat.fdiv delta div in
  map (fun i =>
         if Nat.eqb i num then stop
         else
           let y := PyFloat.of_int (Z.of_nat i) in
           PyFloat.fadd
             (if PyFloat.feq step PyFloat.zero
              then PyFloat.fmul (PyFloat.fdiv y div) delta
              else PyFloat.fmul y step)
             start)
      (seq 0 (S num)).

(** [bin_edges[i]] *)
Definition edge (bin_edges : list PyFloat.pyfloat) (i : Z) : PyFloat.pyfloat :=
  nth (Z.to_nat i) bin_edges PyFloat.zero.

(** The bin of a kept value [x]: the estimate from the scaled distance to
    the first edge, lowered from [bins] to the last bin, then moved down
    when [x] lies below the left edge of its bin and up when it reaches the
    right edge of a bin that is not the last one. *)
Definition bin_index (bin_edges : list PyFloat.pyfloat)
  (first_edge norm_denom : PyFloat.pyfloat) (bins : nat) (x : Z) : Z :=
  let tmp_a := PyFloat.of_int x in
  let n_equal_bins := Z.of_nat bins in
  let f_index :=
    PyFloat.fmul (PyFloat.fdiv (PyFloat.fsub tmp_a first_edge) norm_denom)
                 (PyFloat.of_int n_equal_bins) in
  let i := PyFloat.to_int f_index in
  let i := if (i =? n_equal_bins)%Z then (i - 1)%Z else i in
  let i := if PyFloat.flt tmp_a (edge bin_edges i) then (i - 1)%Z else i in
  if PyFloat.fle (edge bin_edges (i + 1)) tmp_a
     && negb (i =? n_equal_bins - 1)%Z
  then (i + 1)%Z else i.

(** [numpy.histogram(a, bins, range=(lo, hi))] on integers, computed in
    binary64 as numpy does: the counts, and the bin edges as the rationals
    they are.  A range of one point is widened by a half on each side.
    [None] is the [ValueError] raised when [hi < lo]. *)
Definition histogram (a : list Z) (bins : nat) (lo hi : Z)
  : option (list nat * list Q) :=
  if (hi <? lo)%Z then None
  else
    let '(first_edge, last_edge, norm_denom) :=
      if (lo =? hi)%Z
      then
        let first_edge := PyFloat.fsub (PyFloat.of_int lo) PyFloat.half in
        let last_edge := PyFloat.fadd (PyFloat.of_int hi) PyFloat.half in
        (first_edge, last_edge, PyFloat.fsub last_edge first_edge)
      else (PyFloat.of_int lo, PyFloat.of_int hi, PyFloat.of_int (hi - lo)) in
    let bin_edges := linspace first_edge last_edge bins in
    let kept :=
      filter (fun x => PyFloat.fle first_edge (PyFloat.of_int x)
                       && PyFloat.fle (PyFloat.of_int x) last_edge) a in
    let indices :=
      map (bin_index bin_edges first_edge norm_denom bins) kept in
    Some (map (fun i => count_occ Z.eq_dec indices (Z.of_nat i)) (seq 0 bins),
          map PyFloat.to_Q bin_edges).

(** [hist[i] > hist[i-1] and hist[i] > hist[i+1] and hist[i] > 1] *)
Definition is_peak (hist : list nat) (i : nat) : bool :=
  (nth (i - 1) hist 0 <? nth i hist 0)
  && (nth (i + 1) hist 0 <? nth i hist 0)
  && (1 <? nth i hist 0).

(** The peaks among [range(1, len(hist) - 1)]. *)
Definition peak_indices (hist : list nat) : list nat :=
  filter (is_peak hist) (seq 1 (List.length hist - 2)).

(** The column intervals built from the starts. *)
Fixpoint boundaries (column_starts : list Q) (last_end : Q) : list (Q * Q) :=
  match column_starts with
  | [] => []
  | start :: rest =>
      (start, match rest with next :: _ => (next - 1)%Q | [] => last_end end)
      :: boundaries rest last_end
  end.

Definition hist_bins : nat := 20.

Definition add_leftmost (column_starts : list Q) (leftmost : Z) : list Q :=
  match column_starts with
  | [] => [inject_Z leftmost]
  | c :: _ =>
      if LabTestParser.Qlt_bool (inject_Z leftmost + 20)%Q c
      then inject_Z leftmost :: column_starts
      else column_starts
  end.

Definition _detect_columns (lines : list text_line) : option (list (Q * Q)) :=
  match lines with
  | [] => Some []
  | _ :: _ =>
      let x_starts := map tl_x lines in
      let x_ends := map (fun line => tl_x line + tl_width line)%Z lines in
      match histogram x_starts hist_bins (list_min x_starts) (list_max x_ends)
      with
      | None => None
      | Some (hist, bin_edges) =>
          let column_starts :=
            map (fun i => nth i bin_edges 0%Q) (peak_indices hist) in
          Some (boundaries (add_leftmost column_starts (list_min x_starts))
                           (inject_Z (list_max x_ends)))
      end
  end.

(** The first column whose interval, widened by 10, holds [x]. *)
Fixpoint find_column (columns : list (Q * Q)) (i : nat) (x : Z) : option nat :=
  match columns with
  | [] => None
  | (col_start, col_end) :: columns' =>
      if Qle_bool (col_start - 10)%Q (inject_Z x)
         && LabTestParser.Qlt_bool (inject_Z x) (col_end + 10)%Q
      then Some i
      else find_column columns' (S i) x
  end.

(** [row[i] = v] *)
Fixpoint set_cell (row : list string) (i : nat) (v : string) : list string :=
  match row, i with
  | [], _ => []
  | _ :: row', O => v :: row'
  | c :: row', S i' => c :: set_cell row' i' v
  end.

Definition any_cell (row : list string) : bool := existsb truthy row.

Definition empty_row (columns : list (Q * Q)) : list string :=
  repeat EmptyString (List.length columns).

(** The state of the loop of [extract_table_data]:
    [table_data] and [current_row]. *)
Definition table_step (columns : list (Q * Q))
  (st : list (list string) * list string) (line : text_line)
  : list (list string) * list string :=
  let '(table_data, current_row) := st in
  match find_column columns 0 (tl_x line) with
  | Some i => (table_data, set_cell current_row i (strip (tl_text line)))
  | None =>
      if any_cell current_row
      then (table_data ++ [current_row], empty_row columns)
      else (table_data, current_row)
  end.

Definition table_of_lines (columns : list (Q * Q)) (lines : list text_line)
  : list (list string) :=
  let '(table_data, current_row) :=
    fold_left (table_step columns) lines ([], empty_row columns) in
  if any_cell current_row then table_data ++ [current_row] else table_data.

(** [extract_table_data], from the boxes the recogniser returned; [None]
    is the exception of [_detect_columns]. *)
Definition extract_table_data (text_boxes : list word_box)
  : option (list (list string)) :=
  let lines := extract_structured_data text_boxes in
  match _detect_columns lines with
  | Some columns => Some (table_of_lines columns lines)
  | None => None
  end.

(** A row of the grid: one cell per column, not all of them empty. *)
Definition grid_row (columns : list (Q * Q)) (row : list string) : Prop :=
  List.length row = List.length columns
  /\ exists cell, In cell row /\ cell <> EmptyString.

End TextExtractor.

(* ================================================================== *)
(** ** [app/image_processor.py]: the contour filter *)

Module ImageProcessor.

(** An image, by its rows of pixels; what a pixel holds plays no part. *)
Definition image : Type := list (list Z).

(** [image.size] up to the number of channels: the number of pixels. *)
Definition image_size (img : image) : nat := List.length (List.concat img).

(** [preprocess_image], as far as the repository decides what it does: the
    guard on its argument, [None] being the [ValueError] it raises.  The
    rest of the body calls OpenCV; what the recogniser then reads is given
    with the document. *)
Definition preprocess_image (img : option image) : option unit :=
  match img with
  | None => None
  | Some img => if image_size img =? 0 then None else Some tt
  end.

(** What [cv2.contourArea] and [cv2.boundingRect] report for a contour of
    [cv2.findContours]. *)
Record contour : Type := MkContour
  { area : Q; rect_x : Z; rect_y : Z; rect_w : Z; rect_h : Z }.

Definition rect : Type := (Z * Z * Z * Z)%type.

(** The test a contour passes to become a table region. *)
Definition qualifies (c : contour) : bool :=
  LabTestParser.Qlt_bool 1000 (area c)
  && LabTestParser.Qlt_bool (1 # 2) (inject_Z (rect_w c) / inject_Z (rect_h c))
  && LabTestParser.Qlt_bool (inject_Z (rect_w c) / inject_Z (rect_h c)) 5.

Definition bounding_rect (c : contour) : rect :=
  (rect_x c, rect_y c, rect_w c, rect_h c).

(** [w / h]; [None] is [ZeroDivisionError]. *)
Definition true_div (w h : Z) : option Q :=
  if (h =? 0)%Z then None else Some (inject_Z w / inject_Z h)%Q.

(** The body of the loop over the contours; [None] is an exception. *)
Definition region_step (table_regions : option (list rect)) (c : contour)
  : option (list rect) :=
  match table_regions with
  | None => None
  | Some regions =>
      if LabTestParser.Qlt_bool 1000 (area c) then
        match true_div (rect_w c) (rect_h c) with
        | None => None
        | Some aspect_ratio =>
            if LabTestParser.Qlt_bool (1 # 2) aspect_ratio
               && LabTestParser.Qlt_bool aspect_ratio 5
            then Some (regions ++ [(rect_x c, rect_y c, rect_w c, rect_h c)])
            else Some regions
        end
      else Some regions
  end.

(** [detect_table_regions], from the external contours of the enhanced
    image. *)
Definition detect_table_regions (contours : list contour)
  : option (list rect) :=
  fold_left region_step contours (Some []).

End ImageProcessor.

(* ================================================================== *)
(** ** [app/image_processor.py]: [crop_to_roi] *)

Module Roi.

(** A bound of a slice, as Python places it in a sequence of length [len]:
    a negative bound counts from the end, and both ends are clipped. *)
Definition slice_index (len i : Z) : Z :=
  if (i <? 0)%Z then Z.max 0 (len + i) else Z.min i len.

(** [l[a:b]] *)
Definition py_slice {A : Type} (l : list A) (a b : Z) : list A :=
  let len := Z.of_nat (List.length l) in
  let lo := slice_index len a in
  let hi := slice_index len b in
  firstn (Z.to_nat (hi - lo)) (skipn (Z.to_nat lo) l).

(** [image[y:y+h, x:x+w]] on an image given by its rows. *)
Definition crop_to_roi {A : Type} (image : list (list A)) (x y w h : Z)
  : list (list A) :=
  map (fun row => py_slice row x (x + w)) (py_slice image y (y + h)).

(** The pixel in row [i] and column [j], [d] outside the image. *)
Definition pixel {A : Type} (d : A) (image : list (list A)) (i j : nat) : A :=
  nth j (nth i image []) d.

End Roi.

(* ================================================================== *)
(** ** [app/main.py]: [process_lab_report] *)

Module Main.
Import PyStr Utils LabTestParser TextExtractor ImageProcessor Roi.

(** What the recogniser returns on the preprocessed crop of one region. *)
Record region_ocr : Type := MkRegion
  { region_boxes : list word_box; region_text : string }.

(** What the collaborators outside the repository (OpenCV, Tesseract)
    return for one input image. *)
Record document : Type := MkDocument
  { page : image;                       (* [deskew_image(image)] *)
    full_text : string;                 (* [extract_text(processed)] *)
    full_boxes : list word_box;         (* the boxes of [processed] *)
    contours : list contour;            (* of the enhanced, deskewed image *)
    ocr_of_region : rect -> region_ocr }.

(** The [try] statement in the body of the loop over the table regions. *)
Definition region_tests (doc : document) (all_lab_tests : list lab_test)
  (r : rect) : list lab_test :=
  let o := ocr_of_region doc r in
  match extract_table_data (region_boxes o) with
  | Some table_data => all_lab_tests ++ parse_table_data table_data
  | None => all_lab_tests ++ parse_text (region_text o)
  end.

Definition mem (s : string) (names : list string) : bool :=
  existsb (String.eqb s) names.

(** The loop that removes duplicates; [test_names] is the set of names. *)
Fixpoint unique (all_lab_tests : list lab_test) (test_names : list string)
  : list lab_test :=
  match all_lab_tests with
  | [] => []
  | test :: rest =>
      if mem (test_name test) test_names then unique rest test_names
      else test :: unique rest (test_name test :: test_names)
  end.

(** The loop over the table regions: the region is cropped and
    preprocessed in front of the [try] statement, so that the [ValueError]
    of [preprocess_image] leaves the loop; it is the [None]. *)
Fixpoint process_regions (doc : document) (table_regions : list rect)
  (all_lab_tests : list lab_test) : option (list lab_test) :=
  match table_regions with
  | [] => Some all_lab_tests
  | r :: table_regions' =>
      let '(x, y, w, h) := r in
      let table_image := crop_to_roi (page doc) x y w h in
      match preprocess_image (Some table_image) with
      | None => None
      | Some _ =>
          process_regions doc table_regions' (region_tests doc all_lab_tests r)
      end
  end.

(** [process_lab_report]; [None] is an exception that leaves it: the
    [ValueError] of [preprocess_image] or the [ZeroDivisionError] of
    [detect_table_regions]. *)
Definition process_lab_report (doc : document) : option (list lab_test) :=
  match preprocess_image (Some (page doc)) with
  | None => None
  | Some _ =>
      let lab_tests := parse_text (full_text doc) in
      if nonempty lab_tests then Some lab_tests
      else
        match detect_table_regions (contours doc) with
        | None => None
        | Some table_regions =>
            match process_regions doc table_regions [] with
            | None => None
            | Some all_lab_tests =>
                let all_lab_tests :=
                  if nonempty all_lab_tests then all_lab_tests
                  else
                    parse_text
                      (join (String LF EmptyString)
                            (map tl_text
                                 (extract_structured_data (full_boxes doc))))
                in
                Some (unique all_lab_tests [])
            end
        end
  end.

End Main.

(* ================================================================== *)
(** ** The loop of [_group_by_lines] as a recursion *)

Module GroupLoop.
Import TextExtractor.

(** The test of the loop for a line whose first box is [seed]. *)
Definition same_line (seed box : word_box) : bool :=
  Qle_bool (Qabs (inject_Z (wb_y box - wb_y seed))) (tolerance seed).

(** What the loop appends to [lines] from the state whose current line is
    [seed] followed by [members], on the boxes [remaining]. *)
Fixpoint loop_lines (seed : word_box) (members remaining : list word_box)
  : list (list word_box) :=
  match remaining with
  | [] => [sorted wb_x (seed :: members)]
  | box :: remaining' =>
      if same_line seed box then loop_lines seed (members ++ [box]) remaining'
      else sorted wb_x (seed :: members) :: loop_lines box [] remaining'
  end.

Definition group_by_lines_rec (text_boxes : list word_box)
  : list (list word_box) :=
  match sorted wb_y text_boxes with
  | [] => []
  | seed :: remaining => loop_lines seed [] remaining
  end.

End GroupLoop.

(* ================================================================== *)
(** ** Line grouping, as the specification words it *)

Module LineGroupingSpec.

(** Ascending order of a key. *)
Definition ascending {A : Type} (key : A -> Z) (l : list A) : Prop :=
  StronglySorted (fun a b => (key a <= key b)%Z) l.

(** [l'] is [l] sorted by [key], ascending: the same elements, in ascending
    order of the key, those of equal key in the order they have in [l]. *)
Definition sorted_by {A : Type} (key : A -> Z) (l l' : list A) : Prop :=
  Permutation l l'
  /\ ascending key l'
  /\ forall k, filter (fun a => (key a =? k)%Z) l'
               = filter (fun a => (key a =? k)%Z) l.

(** A box joins the line seeded by [seed] iff the distance of its top y to
    the top y of the seed is at most 0.5 times the height of the seed. *)
Definition joins (seed box : TextExtractor.word_box) : bool :=
  Qle_bool
    (Qabs (inject_Z (TextExtractor.wb_y box - TextExtractor.wb_y seed)))
    ((1 # 2) * inject_Z (TextExtractor.wb_height seed))%Q.

(** The lines cut from [remaining], the current line being [seed] followed
    by [members]: each next box joins the line, or closes it and seeds the
    next one.  The members of a line stand in the order of their arrival. *)
Fixpoint lines_from (seed : TextExtractor.word_box)
  (members remaining : list TextExtractor.word_box)
  : list (list TextExtractor.word_box) :=
  match remaining with
  | [] => [seed :: members]
  | box :: remaining' =>
      if joins seed box then lines_from seed (members ++ [box]) remaining'
      else (seed :: members) :: lines_from box [] remaining'
  end.

(** The lines cut from the boxes in ascending order of y: the first box
    seeds the first line. *)
Definition cut_lines (ordered : list TextExtractor.word_box)
  : list (list TextExtractor.word_box) :=
  match ordered with
  | [] => []
  | seed :: remaining => lines_from seed [] remaining
  end.

End LineGroupingSpec.

(* ================================================================== *)
(** ** The inputs of the scenarios *)

Module Scenarios.
Import PyStr PyFloat TextExtractor ImageProcessor Main.

Definition nl : string := String LF EmptyString.

(** Two free-text lines, the second value lying on its upper bound. *)
Definition scenario1 : string :=
  ("Hemoglobin: 14.2 (12.0-16.0)" ++ nl ++ "WBC: 11000 (4000-11000)")%string.

(** A line with two pipes and no header: judged tabular, yet no row. *)
Definition piped_line : string := "Glucose: 100 ||".

(** A free-text line with a known analyte and no range. *)
Definition loose_line : string := "Glucose 250 mg".

(** The same analyte reported twice in free text. *)
Definition repeated_text : string :=
  ("Glucose: 100" ++ nl ++ "Glucose: 250")%string.

Definition no_region : rect -> region_ocr := fun _ => MkRegion [] EmptyString.

(** A white page of 60 rows of 110 pixels. *)
Definition white_page : image := repeat (repeat 255%Z 110) 60.

Definition repeated_document : document :=
  MkDocument white_page repeated_text [] [] no_region.

(** Four lines starting at 10, 12, 200 and 205 whose right edges end at 205
    at the latest. *)
Definition four_lines : list text_line :=
  [MkLine "a" 10 0 195 10; MkLine "b" 12 20 193 10;
   MkLine "c" 200 40 5 10; MkLine "d" 205 60 0 10]%Z.

(** Five word boxes on three text rows. *)
Definition sample_boxes : list word_box :=
  [MkBox "Glucose" 10 0 60 10; MkBox "250" 200 2 30 10;
   MkBox "Sodium" 12 30 50 10; MkBox "140" 205 31 30 10;
   MkBox "mmol" 400 60 40 10]%Z.

(** A contour of area 2000 whose bounding box is 40 wide and 80 high. *)
Definition half_ratio_contour : contour := MkContour 2000%Q 0 0 40 80.

(** A contour of area 2000 whose bounding box is 100 wide and 50 high. *)
Definition wide_contour : contour := MkContour 2000%Q 5 7 100 50.

End Scenarios.

(* ================================================================== *)
(** ** Predicates on records and boxes *)

Module Invariants.
Import PyStr PyFloat Utils TextExtractor.

(** A record that [format_lab_test] built. *)
Definition formatted (r : lab_test) : Prop :=
  exists name value_str range_str,
    r = format_lab_test name value_str range_str.

(** A record that [format_lab_test] built from a raw value that is not
    empty. *)
Definition from_value (r : lab_test) : Prop :=
  exists name value_str range_str,
    r = format_lab_test name value_str range_str
    /\ value_str <> EmptyString.

(** The value of the record is a float, or a text that is not empty. *)
Definition has_value (r : lab_test) : Prop :=
  test_value r <> VStr EmptyString.

(** The bounding box of the line holds the box. *)
Definition holds (l : text_line) (b : word_box) : Prop :=
  (tl_x l <= wb_x b
   /\ tl_y l <= wb_y b
   /\ wb_x b + wb_width b <= tl_x l + tl_width l
   /\ wb_y b + wb_height b <= tl_y l + tl_height l)%Z.

(** The box is the seed of its line, or lies at or below the top of the seed
    and within half the height of the seed from it. *)
Definition near_seed (seed b : word_box) : Prop :=
  b = seed
  \/ ((wb_y seed <= wb_y b)%Z
      /\ (2 * (wb_y b - wb_y seed) <= wb_height seed)%Z).

(** A region whose crop out of the page holds no pixel. *)
Definition empty_crop (doc : Main.document) (r : ImageProcessor.rect) : Prop :=
  let '(x, y, w, h) := r in
  ImageProcessor.image_size (Roi.crop_to_roi (Main.page doc) x y w h) = 0.

(** The record a name looks up: the first one that bears it. *)
Definition lookup_name (name : string) (tests : list lab_test)
  : option lab_test :=
  find (fun t => String.eqb (test_name t) name) tests.

End Invariants.

(* ================================================================== *)
(** ** Further inputs *)

Module MoreScenarios.
Import PyStr TextExtractor ImageProcessor Main Scenarios.

(** Four words on two text rows that name the same analyte. *)
Definition repeated_boxes : list word_box :=
  [MkBox "Glucose:" 10 0 60 10; MkBox "100" 80 1 30 10;
   MkBox "Glucose:" 10 30 60 10; MkBox "250" 80 31 30 10]%Z.

(** A page whose full text is empty and whose words repeat an analyte. *)
Definition boxes_document : document :=
  MkDocument white_page EmptyString repeated_boxes [] no_region.

(** A contour of area 2000 whose bounding box has no height. *)
Definition flat_contour : contour := MkContour 2000%Q 0 0 40 0.

Definition flat_document : document :=
  MkDocument white_page EmptyString [] [flat_contour] no_region.

End MoreScenarios.

(* ================================================================== *)
(** ** [app/main.py]: the handler [get_lab_tests] *)

Module Api.
Import PyFloat Utils Main.

(** What reading and decoding the upload gives: [cv2.imdecode] returns
    [None], or a stage outside the repository raises while the page is
    processed, or the page is processed from what those stages return. *)
Inductive upload : Type :=
| Undecodable
| StageRaises
| Page (doc : document).

(** A request: the content type of the uploaded file, if it has one, and
    what becomes of its bytes. *)
Record request : Type := MkRequest
  { content_type : option string; body : upload }.

(** The exceptions that can be raised inside the [try] block: the two
    [HTTPException]s, the [AttributeError] of a missing content type, the
    error of an outside stage, the exception that leaves
    [process_lab_report], and the [ValueError] of [JSONResponse] on a float
    that JSON cannot hold. *)
Inductive exn : Type :=
| HTTPException (status_code : nat) (detail : string)
| AttributeError
| StageError
| PipelineError
| JSONValueError.

(** The JSON response: its status, [is_success], and the tests if any. *)
Record response : Type := MkResponse
  { status : nat; is_success : bool; lab_tests : option (list lab_test) }.

(** [JSONResponse] renders its content with [allow_nan=False]: a float
    that is infinite or not a number makes it raise [ValueError]; strings
    and booleans are rendered as they are. *)
Definition json_value (v : value_t) : bool :=
  match v with
  | VFloat f => is_finite f
  | VStr _ => true
  end.

Definition json_safe (tests : list lab_test) : bool :=
  forallb (fun t => json_value (test_value t)) tests.

(** The body of the [try] block. *)
Definition handle (req : request) : list lab_test + exn :=
  match content_type req with
  | None => inr AttributeError
  | Some ct =>
      if negb (String.prefix "image/" ct)
      then inr (HTTPException 400 "File must be an image")
      else
        match body req with
        | Undecodable => inr (HTTPException 400 "Invalid image file")
        | StageRaises => inr StageError
        | Page doc =>
            match process_lab_report doc with
            | Some tests =>
                if json_safe tests then inl tests else inr JSONValueError
            | None => inr PipelineError
            end
        end
  end.

(** [get_lab_tests]: every exception of the block is caught by the clause
    [except Exception] and answered with status 500. *)
Definition get_lab_tests (req : request) : response :=
  match handle req with
  | inl tests => MkResponse 200 true (Some tests)
  | inr _ => MkResponse 500 false None
  end.


End Api.

(* ================================================================== *)
(** ** Classes of the captured texts *)

Module Captures.
Import PyStr Re.

(** Every captured group holds only characters of the class of its
    number. *)
Definition caps_ok (cls : nat -> ascii -> bool) (c : caps) : Prop :=
  forall n v, In (n, v) c -> all_chars (cls n) v = true.

(** The pattern only reads characters of the class [q]. *)
Fixpoint consumes (q : ascii -> bool) (r : regex) : Prop :=
  match r with
  | Cls p | Rep p _ => forall a, p a = true -> q a = true
  | Cat r1 r2 | Alt r1 r2 => consumes q r1 /\ consumes q r2
  | Opt r1 | Grp _ r1 => consumes q r1
  | Ahead _ | Eps | Eos => True
  end.

(** Every group of the pattern only reads characters of the class of its
    number. *)
Fixpoint groups_ok (cls : nat -> ascii -> bool) (r : regex) : Prop :=
  match r with
  | Grp n r1 => consumes (cls n) r1 /\ groups_ok cls r1
  | Cat r1 r2 | Alt r1 r2 => groups_ok cls r1 /\ groups_ok cls r2
  | Opt r1 | Ahead r1 => groups_ok cls r1
  | Cls _ | Rep _ _ | Eps | Eos => True
  end.

(** The least number of characters a match of the pattern reads. *)
Fixpoint minlen (r : regex) : nat :=
  match r with
  | Cls _ => 1
  | Rep _ lo => lo
  | Cat r1 r2 => minlen r1 + minlen r2
  | Alt r1 r2 => Nat.min (minlen r1) (minlen r2)
  | Grp _ r1 => minlen r1
  | Opt _ | Ahead _ | Eps | Eos => 0
  end.

(** The pattern holds a group of number [n]. *)
Fixpoint mentions (n : nat) (r : regex) : bool :=
  match r with
  | Grp m r1 => Nat.eqb m n || mentions n r1
  | Cat r1 r2 | Alt r1 r2 => mentions n r1 || mentions n r2
  | Opt r1 | Ahead r1 => mentions n r1
  | Cls _ | Rep _ _ | Eps | Eos => false
  end.

(** Every match of the pattern binds the group [n] to a text that is not
    empty: the group lies on every way through the pattern and reads at
    least one character. *)
Fixpoint sets (n : nat) (r : regex) : bool :=
  match r with
  | Grp m r1 => if Nat.eqb m n then 1 <=? minlen r1 else sets n r1
  | Cat r1 r2 => sets n r2 || (sets n r1 && negb (mentions n r2))
  | Alt r1 r2 => sets n r1 && sets n r2
  | Opt _ | Ahead _ | Cls _ | Rep _ _ | Eps | Eos => false
  end.

(** The class of each group of the four templates and of the range pattern
    of the aggressive fallback. *)
Definition template_cls (n : nat) : ascii -> bool :=
  match n with
  | 1 => LabTestParser.name_cls
  | 2 => LabTestParser.value_cls
  | _ => LabTestParser.range_cls
  end.

Definition range_only (n : nat) : ascii -> bool := LabTestParser.range_cls.

(** The unit of a record of free text: the text [N/A] when no range was
    found, and none when a range was found. *)
Definition unit_of_free_text (r : Utils.lab_test) : Prop :=
  (Utils.bio_reference_range r = "N/A" /\ Utils.test_unit r = "N/A")
  \/ (all_chars LabTestParser.range_cls (Utils.bio_reference_range r) = true
      /\ Utils.test_unit r = EmptyString).

End Captures.

(* ================================================================== *)
(** ** Texts of white space only *)

Module Blank.
Import PyStr Re.

(** A text of white space only. *)
Definition blank (s : string) : Prop := all_chars is_space s = true.

(** The pattern cannot match without reading a character outside the
    class [ok]. *)
Fixpoint demands (ok : ascii -> bool) (r : regex) : Prop :=
  match r with
  | Cls p => forall a, ok a = true -> p a = false
  | Rep p lo => 1 <= lo /\ forall a, ok a = true -> p a = false
  | Cat r1 r2 => demands ok r1 \/ demands ok r2
  | Alt r1 r2 => demands ok r1 /\ demands ok r2
  | Grp _ r1 | Ahead r1 => demands ok r1
  | Opt _ | Eps | Eos => False
  end.

(** What OpenCV hands over for a decoded image: a page of rows of [W]
    pixels each, with at least one row and one column, and contours whose
    bounding boxes lie in the page and have a positive width and height. *)
Definition real_page (doc : Main.document) : Prop :=
  exists W,
    0 < W
    /\ Main.page doc <> []
    /\ Forall (fun row => List.length row = W) (Main.page doc)
    /\ Forall
         (fun c =>
            (0 <= ImageProcessor.rect_x c /\ 0 <= ImageProcessor.rect_y c
             /\ 0 < ImageProcessor.rect_w c /\ 0 < ImageProcessor.rect_h c
             /\ ImageProcessor.rect_x c + ImageProcessor.rect_w c
                <= Z.of_nat W
             /\ ImageProcessor.rect_y c + ImageProcessor.rect_h c
                <= Z.of_nat (List.length (Main.page doc)))%Z)
         (Main.contours doc).

(** A page on which the recogniser finds white space only, and no word box
    on the page or in a region. *)
Definition blank_page (doc : Main.document) : Prop :=
  real_page doc
  /\ blank (Main.full_text doc)
  /\ Main.full_boxes doc = []
  /\ (forall r, Main.region_boxes (Main.ocr_of_region doc r) = []).

(** A white page with one table-like contour on which the recogniser
    returns a blank, a line feed and a form feed. *)
Definition blank_document : Main.document :=
  Main.MkDocument Scenarios.white_page
    (String " " (String LF (String "012"%char EmptyString))) []
    [Scenarios.wide_contour] Scenarios.no_region.

(** A page without a pixel. *)
Definition empty_document : Main.document :=
  Main.MkDocument [] EmptyString [] [] Scenarios.no_region.

(** A white page whose only contour is said to lie left of it. *)
Definition outside_contour : ImageProcessor.contour :=
  ImageProcessor.MkContour 2000%Q 200 0 40 40.

Definition outside_document : Main.document :=
  Main.MkDocument Scenarios.white_page EmptyString [] [outside_contour]
    Scenarios.no_region.

End Blank.

(* ================================================================== *)
(** ** The shape of cleaned names and of units *)

Module Shapes.
Import PyStr Re.

(** The class of the unit pattern: letters, the slash and the percent
    sign. *)
Definition unit_cls (a : ascii) : bool :=
  is_alpha a || Ascii.eqb a "/" || Ascii.eqb a "%".

(** The longest prefix of [s] in the class [p]. *)
Fixpoint run_of (p : ascii -> bool) (s : string) : string :=
  match s with
  | String a t => if p a then String a (run_of p t) else EmptyString
  | EmptyString => EmptyString
  end.

(** The first maximal run of characters of the class [p] in [s], empty when
    [s] has no such character. *)
Fixpoint first_run (p : ascii -> bool) (s : string) : string :=
  match s with
  | String a t => if p a then String a (run_of p t) else first_run p t
  | EmptyString => EmptyString
  end.

(** Every white-space character of [s] is a blank that follows a character
    which is no white space; [after_space] tells that the previous character
    was white space, or that there is none. *)
Fixpoint single_spaces (after_space : bool) (s : string) : bool :=
  match s with
  | EmptyString => true
  | String a t =>
      if is_space a
      then Ascii.eqb a " " && negb after_space && single_spaces true t
      else single_spaces false t
  end.

(** A word: not empty, and without white space. *)
Definition word (w : string) : Prop :=
  w <> EmptyString /\ all_chars (fun a => negb (is_space a)) w = true.

(** The pattern ends with the dollar anchor. *)
Fixpoint anchored (r : regex) : Prop :=
  match r with
  | Eos => True
  | Cat _ r2 => anchored r2
  | _ => False
  end.

End Shapes.

(* ================================================================== *)
(** ** [parse_table_data] with its exceptions *)

Module Checked.
Import PyStr Utils LabTestParser.

(** [row[i]]; [None] is [IndexError]. *)
Definition py_index (row : list string) (i : Z) : option string :=
  let len := Z.of_nat (List.length row) in
  if ((i <? - len) || (len <=? i))%Z then None else Some (py_get row i).

(** [max(...)] of a sequence; [None] is the [ValueError] on an empty one. *)
Definition py_max (l : list Z) : option Z :=
  match l with
  | [] => None
  | a :: l' => Some (fold_left Z.max l' a)
  end.

(** The body of the loop over the rows; [None] is an exception. *)
Definition table_row_checked (test_name_col value_col range_col : Z)
  (lab_tests : list lab_test) (row : list string) : option (list lab_test) :=
  match py_max (filter (fun col => (0 <=? col)%Z)
                       [test_name_col; value_col; range_col]) with
  | None => None
  | Some needed =>
      if (Z.of_nat (List.length row) <=? needed)%Z then Some lab_tests
      else
        match py_index row test_name_col, py_index row value_col with
        | Some name_cell, Some value_cell =>
            let test_name := strip name_cell in
            let value_str := strip value_cell in
            match
              (if (0 <=? range_col)%Z
                  && (range_col <? Z.of_nat (List.length row))%Z
               then option_map strip (py_index row range_col)
               else Some "N/A")
            with
            | Some reference_range =>
                Some (if truthy test_name && truthy value_str
                      then lab_tests
                             ++ [format_lab_test test_name value_str
                                                 reference_range]
                      else lab_tests)
            | None => None
            end
        | _, _ => None
        end
  end.

Fixpoint rows_checked (test_name_col value_col range_col : Z)
  (rows : list (list string)) (lab_tests : list lab_test)
  : option (list lab_test) :=
  match rows with
  | [] => Some lab_tests
  | row :: rows' =>
      match table_row_checked test_name_col value_col range_col lab_tests row
      with
      | Some lab_tests' =>
          rows_checked test_name_col value_col range_col rows' lab_tests'
      | None => None
      end
  end.

(** [parse_table_data]; [None] is an exception that leaves it. *)
Definition parse_table_data_checked (table_data : list (list string))
  : option (list lab_test) :=
  match table_data with
  | [] => Some []
  | [] :: _ => Some []
  | first :: others =>
      let '(test_name_col, value_col, range_col) :=
        header_cells first 0%Z ((-1)%Z, (-1)%Z, (-1)%Z) in
      if (test_name_col =? -1)%Z && (value_col =? -1)%Z then
        rows_checked 0%Z 1%Z
          (if 2 <? List.length first then 2%Z else range_col) table_data []
      else rows_checked test_name_col value_col range_col others []
  end.

(** The column numbers the header loop can leave: a position, or -1. *)
Definition columns_ok (cols : Z * Z * Z) : Prop :=
  let '(test_name_col, value_col, range_col) := cols in
  (-1 <= test_name_col /\ -1 <= value_col /\ -1 <= range_col)%Z.

End Checked.

(* ================================================================== *)
(** * Properties *)

Import PyStr PyFloat Re Utils LabTestParser TextExtractor ImageProcessor Main.
Import Scenarios.

(** ** Scenario 1 *)

(** C5 (as the code behaves): parsing the two-line text of scenario 1 yields
    exactly two records, Hemoglobin and WBC, and neither is flagged out of
    range: 11000 lies on the upper bound of 4000-11000, which is inside. *)
Theorem C5_scenario1_records :
  exists hb wbc,
    parse_text scenario1 = [hb; wbc]
    /\ test_name hb = "Hemoglobin" /\ lab_test_out_of_range hb = false
    /\ test_name wbc = "WBC" /\ lab_test_out_of_range wbc = false.
Proof.
  do 2 eexists. split; [vm_compute; reflexivity|].
  repeat split.
Qed.

(** C5 as stated fails: no pair of records of scenario 1 has the WBC record
    flagged. *)
Lemma C5_wbc_not_flagged :
  ~ (exists hb wbc,
        parse_text scenario1 = [hb; wbc]
        /\ lab_test_out_of_range hb = false
        /\ lab_test_out_of_range wbc = true).
Proof.
  intros (hb & wbc & H & _ & Hw).
  vm_compute in H. injection H as _ Hwbc. subst wbc. discriminate Hw.
Qed.

(** ** Line grouping *)

Section Sorting.
Context {A : Type} (key : A -> Z).

Lemma insert_by_perm (a : A) (l : list A) :
  Permutation (a :: l) (insert_by key a l).
Proof.
  induction l as [|b l IH]; simpl; [reflexivity|].
  destruct (key b <? key a)%Z; [|reflexivity].
  rewrite perm_swap. now apply perm_skip.
Qed.

Lemma sorted_perm (l : list A) : Permutation l (sorted key l).
Proof.
  induction l as [|a l IH]; simpl; [constructor|].
  etransitivity; [apply perm_skip, IH|]. apply insert_by_perm.
Qed.

Lemma insert_by_ascending (a : A) (l : list A) :
  LineGroupingSpec.ascending key l ->
  LineGroupingSpec.ascending key (insert_by key a l).
Proof.
  unfold LineGroupingSpec.ascending.
  induction 1 as [|b l Hs IH Hb]; simpl.
  - repeat constructor.
  - destruct (key b <? key a)%Z eqn:E.
    + constructor; [exact IH|].
      apply (Permutation_Forall (insert_by_perm a l)).
      constructor; [|exact Hb]. apply Z.ltb_lt in E. lia.
    + apply Z.ltb_ge in E. constructor; [now constructor|].
      constructor; [exact E|].
      eapply Forall_impl; [|exact Hb]. simpl. intros c Hc. lia.
Qed.

Lemma sorted_ascending (l : list A) :
  LineGroupingSpec.ascending key (sorted key l).
Proof.
  induction l as [|a l IH]; simpl; [constructor|].
  now apply insert_by_ascending.
Qed.

Lemma sorted_nil_inv (l : list A) : sorted key l = [] -> l = [].
Proof.
  intros H. apply Permutation_nil. rewrite <- H. symmetry. apply sorted_perm.
Qed.
End Sorting.

Lemma group_loop_spec (rest : list word_box) :
  forall lines seed members,
    close_lines
      (fold_left group_step rest (lines, seed :: members, tolerance seed))
    = lines ++ GroupLoop.loop_lines seed members rest.
Proof.
  induction rest as [|box rest IH]; intros lines seed members.
  - reflexivity.
  - cbn [fold_left GroupLoop.loop_lines group_step].
    unfold GroupLoop.same_line.
    destruct (Qle_bool _ _).
    + apply (IH lines seed (members ++ [box])).
    + rewrite (IH (lines ++ [sorted wb_x (seed :: members)]) box []).
      now rewrite <- app_assoc.
Qed.

Lemma group_by_lines_refines (boxes : list word_box) :
  _group_by_lines boxes = GroupLoop.group_by_lines_rec boxes.
Proof.
  unfold _group_by_lines, GroupLoop.group_by_lines_rec.
  destruct (sorted wb_y boxes) as [|first others]; [reflexivity|].
  apply (group_loop_spec others [] first []).
Qed.

Lemma lines_from_lines (rest : list word_box) :
  forall seed members,
    Forall (fun line => LineGroupingSpec.ascending wb_x line /\ line <> [])
           (GroupLoop.loop_lines seed members rest)
    /\ Permutation (seed :: members ++ rest)
                   (List.concat (GroupLoop.loop_lines seed members rest)).
Proof.
  assert (Hline : forall seed members,
             LineGroupingSpec.ascending wb_x (sorted wb_x (seed :: members))
             /\ sorted wb_x (seed :: members) <> []).
  { intros seed members. split; [apply sorted_ascending|].
    intros H. now apply sorted_nil_inv in H. }
  induction rest as [|box rest IH]; intros seed members;
    cbn [GroupLoop.loop_lines List.concat].
  - split; [repeat constructor; apply Hline|].
    rewrite !app_nil_r. apply (sorted_perm wb_x (seed :: members)).
  - destruct (GroupLoop.same_line seed box).
    + destruct (IH seed (members ++ [box])) as [HF HP]. split; [exact HF|].
      rewrite <- app_assoc in HP. exact HP.
    + destruct (IH box []) as [HF HP]. split.
      * constructor; [apply Hline | exact HF].
      * change (seed :: members ++ box :: rest)
          with ((seed :: members) ++ box :: rest).
        apply Permutation_app;
          [apply (sorted_perm wb_x (seed :: members)) | exact HP].
Qed.

Lemma group_by_lines_lines (boxes : list word_box) :
  Forall (fun line => LineGroupingSpec.ascending wb_x line /\ line <> [])
         (_group_by_lines boxes)
  /\ Permutation boxes (List.concat (_group_by_lines boxes)).
Proof.
  rewrite group_by_lines_refines. unfold GroupLoop.group_by_lines_rec.
  pose proof (sorted_perm wb_y boxes) as HP.
  destruct (sorted wb_y boxes) as [|seed rest].
  - split; [constructor|]. simpl. now rewrite HP.
  - destruct (lines_from_lines rest seed []) as [HF HQ]. split; [exact HF|].
    etransitivity; [exact HP | exact HQ].
Qed.

Lemma insert_by_filter {A : Type} (key : A -> Z) (k : Z) (a : A)
  (l : list A) :
  filter (fun b => (key b =? k)%Z) (insert_by key a l)
  = filter (fun b => (key b =? k)%Z) (a :: l).
Proof.
  induction l as [|b l IH]; [reflexivity|]. cbn [insert_by].
  destruct (key b <? key a)%Z eqn:E; [|reflexivity].
  cbn [filter] in IH |- *. rewrite IH.
  destruct (key a =? k)%Z eqn:Ea, (key b =? k)%Z eqn:Eb; try reflexivity.
  apply Z.eqb_eq in Ea, Eb. apply Z.ltb_lt in E. lia.
Qed.

Lemma sorted_filter {A : Type} (key : A -> Z) (k : Z) (l : list A) :
  filter (fun b => (key b =? k)%Z) (sorted key l)
  = filter (fun b => (key b =? k)%Z) l.
Proof.
  induction l as [|a l IH]; [reflexivity|].
  change (sorted key (a :: l)) with (insert_by key a (sorted key l)).
  rewrite insert_by_filter. cbn [filter]. now rewrite IH.
Qed.

(** [sorted(l, key=key)] sorts: ascending, and stable. *)
Lemma sorted_sorted_by {A : Type} (key : A -> Z) (l : list A) :
  LineGroupingSpec.sorted_by key l (sorted key l).
Proof.
  split; [apply sorted_perm|]. split; [apply sorted_ascending|].
  intros k. apply sorted_filter.
Qed.

(** The test of the loop is the test of the specification: the tolerance
    of a line is half the height of its seed. *)
Lemma same_line_joins (seed box : word_box) :
  GroupLoop.same_line seed box = LineGroupingSpec.joins seed box.
Proof.
  unfold GroupLoop.same_line, LineGroupingSpec.joins, tolerance.
  apply Bool.eq_iff_eq_true. rewrite !Qle_bool_iff.
  now rewrite (Qmult_comm (inject_Z (wb_height seed)) (1 # 2)).
Qed.

Lemma loop_lines_cut (rest : list word_box) :
  forall seed members,
    Forall2 (LineGroupingSpec.sorted_by wb_x)
            (LineGroupingSpec.lines_from seed members rest)
            (GroupLoop.loop_lines seed members rest).
Proof.
  induction rest as [|box rest IH]; intros seed members;
    cbn [LineGroupingSpec.lines_from GroupLoop.loop_lines].
  - constructor; [apply sorted_sorted_by | constructor].
  - rewrite same_line_joins. destruct (LineGroupingSpec.joins seed box).
    + apply IH.
    + constructor; [apply sorted_sorted_by | apply IH].
Qed.

(** C8: for every list of word boxes, [_group_by_lines] works on the boxes
    sorted by their top y, ascending; the first remaining box seeds a line,
    and a following box joins the line iff the distance of its top y to the
    top y of the seed is at most 0.5 times the height of the seed, whatever
    boxes have joined meanwhile, and otherwise closes the line and seeds
    the next one; each line returned is the members of one such line sorted
    by x, ascending, and the lines come in the order in which they were
    closed. *)
Theorem C8_group_by_lines (boxes : list word_box) :
  exists ordered,
    LineGroupingSpec.sorted_by wb_y boxes ordered
    /\ Forall2 (LineGroupingSpec.sorted_by wb_x)
               (LineGroupingSpec.cut_lines ordered)
               (_group_by_lines boxes).
Proof.
  exists (sorted wb_y boxes). split; [apply sorted_sorted_by|].
  rewrite group_by_lines_refines.
  unfold LineGroupingSpec.cut_lines, GroupLoop.group_by_lines_rec.
  destruct (sorted wb_y boxes) as [|seed remaining]; [constructor|].
  apply loop_lines_cut.
Qed.

(** ** The table grid *)

Lemma fold_min_le (l : list Z) :
  forall a, (fold_left Z.min l a <= a)%Z
            /\ Forall (fun b => (fold_left Z.min l a <= b)%Z) l.
Proof.
  induction l as [|b l IH]; intros a; simpl.
  - split; [lia | constructor].
  - destruct (IH (Z.min a b)) as [H1 H2]. split; [lia|].
    constructor; [lia | exact H2].
Qed.

Lemma fold_max_ge (l : list Z) :
  forall a, (a <= fold_left Z.max l a)%Z
            /\ Forall (fun b => (b <= fold_left Z.max l a)%Z) l.
Proof.
  induction l as [|b l IH]; intros a; simpl.
  - split; [lia | constructor].
  - destruct (IH (Z.max a b)) as [H1 H2]. split; [lia|].
    constructor; [lia | exact H2].
Qed.

Lemma list_min_le (l : list Z) (a : Z) : In a l -> (list_min l <= a)%Z.
Proof.
  destruct l as [|b l]; [contradiction|]. simpl.
  destruct (fold_min_le l b) as [H1 H2]. intros [<-|Hin]; [exact H1|].
  rewrite Forall_forall in H2. now apply H2.
Qed.

Lemma list_max_ge (l : list Z) (a : Z) : In a l -> (a <= list_max l)%Z.
Proof.
  destruct l as [|b l]; [contradiction|]. simpl.
  destruct (fold_max_ge l b) as [H1 H2]. intros [<-|Hin]; [exact H1|].
  rewrite Forall_forall in H2. now apply H2.
Qed.

(** A merged line of boxes of non-negative width has a non-negative width. *)
Lemma merge_line_width (line : list word_box) :
  line <> [] -> Forall (fun b => (0 <= wb_width b)%Z) line ->
  (0 <= tl_width (merge_line line))%Z.
Proof.
  destruct line as [|b line]; [congruence|]. intros _ Hw.
  inversion Hw as [|? ? Hb _]; subst.
  cbn [merge_line tl_width].
  pose proof (list_min_le (map wb_x (b :: line)) (wb_x b) (or_introl eq_refl)).
  pose proof (list_max_ge
                (map (fun box => wb_x box + wb_width box)%Z (b :: line))
                (wb_x b + wb_width b)%Z (or_introl eq_refl)).
  lia.
Qed.

Lemma structured_widths (boxes : list word_box) :
  Forall (fun b => (0 <= wb_width b)%Z) boxes ->
  Forall (fun l => (0 <= tl_width l)%Z) (extract_structured_data boxes).
Proof.
  intros Hw. unfold extract_structured_data.
  destruct (group_by_lines_lines boxes) as [HF HP].
  apply Forall_map. rewrite Forall_forall in HF |- *.
  intros line Hin. apply merge_line_width; [apply (HF line Hin)|].
  rewrite Forall_forall in Hw |- *. intros b Hb. apply Hw.
  apply (Permutation_in b (Permutation_sym HP)).
  apply in_concat. now exists line.
Qed.

(** [_detect_columns] raises nothing on lines of non-negative width. *)
Lemma detect_columns_total (lines : list text_line) :
  Forall (fun l => (0 <= tl_width l)%Z) lines ->
  exists columns, _detect_columns lines = Some columns.
Proof.
  intros Hw. destruct lines as [|l lines]; [now eexists|].
  unfold _detect_columns, histogram.
  set (x_starts := map tl_x (l :: lines)).
  set (x_ends := map (fun line => tl_x line + tl_width line)%Z (l :: lines)).
  assert (Hle : (list_min x_starts <= list_max x_ends)%Z).
  { pose proof (list_min_le x_starts (tl_x l) (or_introl eq_refl)).
    pose proof (list_max_ge x_ends (tl_x l + tl_width l)%Z (or_introl eq_refl)).
    inversion Hw; subst. lia. }
  apply Z.ltb_ge in Hle. rewrite Hle.
  destruct (list_min x_starts =? list_max x_ends)%Z; cbv zeta; now eexists.
Qed.

Lemma set_cell_length (row : list string) :
  forall i v, List.length (set_cell row i v) = List.length row.
Proof.
  induction row as [|c row IH]; intros [|i] v; simpl; auto.
Qed.

Lemma any_cell_spec (row : list string) :
  any_cell row = true <-> exists cell, In cell row /\ cell <> EmptyString.
Proof.
  unfold any_cell. rewrite existsb_exists. split; intros (cell & Hin & Hc);
    exists cell; (split; [exact Hin|]); destruct cell; easy.
Qed.

Lemma table_loop_rows (columns : list (Q * Q)) (lines : list text_line) :
  forall table_data current_row,
    Forall (grid_row columns) table_data ->
    List.length current_row = List.length columns ->
    Forall (grid_row columns)
           (fst (fold_left (table_step columns) lines (table_data, current_row)))
    /\ List.length
         (snd (fold_left (table_step columns) lines (table_data, current_row)))
       = List.length columns.
Proof.
  induction lines as [|line lines IH]; intros table_data current_row HF Hlen.
  - now split.
  - cbn [fold_left]. unfold table_step at 2 4.
    destruct (find_column columns 0 (tl_x line)) as [i|].
    + apply IH; [exact HF|]. now rewrite set_cell_length.
    + destruct (any_cell current_row) eqn:E.
      * apply IH.
        -- apply Forall_app. split; [exact HF|]. constructor; [|constructor].
           split; [exact Hlen | now apply any_cell_spec].
        -- unfold empty_row. apply repeat_length.
      * now apply IH.
Qed.

Lemma table_of_lines_rows (columns : list (Q * Q)) (lines : list text_line) :
  Forall (grid_row columns) (table_of_lines columns lines).
Proof.
  unfold table_of_lines.
  destruct (table_loop_rows columns lines [] (empty_row columns)) as [HF Hlen].
  { constructor. }
  { unfold empty_row. apply repeat_length. }
  destruct (fold_left _ _ _) as [table_data current_row]. simpl in HF, Hlen.
  destruct (any_cell current_row) eqn:E; [|exact HF].
  apply Forall_app. split; [exact HF|]. constructor; [|constructor].
  split; [exact Hlen | now apply any_cell_spec].
Qed.

(** C10: whenever grid extraction produces a grid, column detection has
    returned its intervals and every row of the grid has exactly one cell per
    interval and holds at least one non-empty string; and it does produce a
    grid for all word boxes of non-negative width. *)
Theorem C10_table_grid (boxes : list word_box) :
  (forall table,
      extract_table_data boxes = Some table ->
      exists columns,
        _detect_columns (extract_structured_data boxes) = Some columns
        /\ Forall (fun row =>
                     List.length row = List.length columns
                     /\ exists cell, In cell row /\ cell <> EmptyString)
                  table)
  /\ (Forall (fun b => (0 <= wb_width b)%Z) boxes ->
      exists table, extract_table_data boxes = Some table).
Proof.
  unfold extract_table_data. split.
  - intros table H.
    destruct (_detect_columns (extract_structured_data boxes)) as [columns|];
      [|discriminate].
    injection H as <-. exists columns. split; [reflexivity|].
    apply table_of_lines_rows.
  - intros Hw.
    destruct (detect_columns_total _ (structured_widths boxes Hw))
      as [columns ->].
    now eexists.
Qed.

Lemma C10_table_grid_witness :
  Forall (fun b => (0 <= wb_width b)%Z) sample_boxes
  /\ exists table columns,
      extract_table_data sample_boxes = Some table
      /\ _detect_columns (extract_structured_data sample_boxes) = Some columns
      /\ Forall (fun row =>
                   List.length row = List.length columns
                   /\ exists cell, In cell row /\ cell <> EmptyString)
                table.
Proof.
  assert (Hw : Forall (fun b => (0 <= wb_width b)%Z) sample_boxes).
  { repeat constructor; discriminate. }
  split; [exact Hw|].
  destruct (C10_table_grid sample_boxes) as [Hrows Htotal].
  destruct (Htotal Hw) as [table Ht].
  destruct (Hrows table Ht) as (columns & Hc & HF).
  exists table, columns. exact (conj Ht (conj Hc HF)).
Defined.

(** ** Column detection *)

Lemma Qlt_bool_iff (a b : Q) : Qlt_bool a b = true <-> (a < b)%Q.
Proof.
  unfold Qlt_bool. rewrite negb_true_iff, <- not_true_iff_false, Qle_bool_iff.
  split; [apply Qnot_le_lt | apply Qlt_not_le].
Qed.

Lemma peak_indices_spec (hist : list nat) (i : nat) :
  In i (peak_indices hist)
  <-> (1 <= i < List.length hist - 1
       /\ nth (i - 1) hist 0 < nth i hist 0
       /\ nth (i + 1) hist 0 < nth i hist 0
       /\ 1 < nth i hist 0).
Proof.
  unfold peak_indices, is_peak.
  rewrite filter_In, in_seq, !andb_true_iff, !Nat.ltb_lt. lia.
Qed.

Lemma add_leftmost_spec (column_starts : list Q) (leftmost : Z) :
  StronglySorted Qle column_starts ->
  add_leftmost column_starts leftmost
  = if forallb (Qlt_bool (inject_Z leftmost + 20)) column_starts
    then inject_Z leftmost :: column_starts
    else column_starts.
Proof.
  intros Hs. destruct column_starts as [|c rest]; [reflexivity|].
  cbn [add_leftmost forallb].
  destruct (Qlt_bool (inject_Z leftmost + 20) c) eqn:E; [|reflexivity].
  apply StronglySorted_inv in Hs. destruct Hs as [_ Hc].
  replace (forallb (Qlt_bool (inject_Z leftmost + 20)) rest) with true;
    [reflexivity|].
  symmetry. apply forallb_forall. intros d Hd.
  rewrite Forall_forall in Hc. apply Qlt_bool_iff.
  apply Qlt_le_trans with c; [now apply Qlt_bool_iff | now apply Hc].
Qed.

(** C7 (as the code behaves): four lines starting at 10, 12, 200 and 205
    whose histogram spans the range from 10 to 205 give exactly one column,
    starting at 10 and ending at 205: the two occupied bins are the first
    and the last, and only bins with two neighbours are examined.  A bin
    with two neighbours is a peak iff its count exceeds both neighbours and
    is greater than 1, and the leftmost x is put in front of the ascending
    candidates iff none of them lies within 20 of it. *)
Theorem C7_column_detection :
  (forall l1 l2 l3 l4 : text_line,
      tl_x l1 = 10%Z -> tl_x l2 = 12%Z -> tl_x l3 = 200%Z -> tl_x l4 = 205%Z ->
      list_max (map (fun line => tl_x line + tl_width line)%Z [l1; l2; l3; l4])
      = 205%Z ->
      _detect_columns [l1; l2; l3; l4] = Some [(10%Q, 205%Q)])
  /\ (forall hist i,
         In i (peak_indices hist)
         <-> (1 <= i < List.length hist - 1
              /\ nth (i - 1) hist 0 < nth i hist 0
              /\ nth (i + 1) hist 0 < nth i hist 0
              /\ 1 < nth i hist 0))
  /\ (forall column_starts leftmost,
         StronglySorted Qle column_starts ->
         add_leftmost column_starts leftmost
         = if forallb (Qlt_bool (inject_Z leftmost + 20)) column_starts
           then inject_Z leftmost :: column_starts
           else column_starts).
Proof.
  split; [|split; [exact peak_indices_spec | exact add_leftmost_spec]].
  intros [t1 x1 y1 w1 h1] [t2 x2 y2 w2 h2] [t3 x3 y3 w3 h3] [t4 x4 y4 w4 h4].
  cbn [tl_x tl_width map]. intros -> -> -> -> Hmax.
  unfold _detect_columns. cbn [tl_x tl_width map]. rewrite Hmax.
  vm_compute. reflexivity.
Qed.

Lemma C7_column_detection_witness :
  _detect_columns four_lines = Some [(10%Q, 205%Q)]
  /\ add_leftmost [] 10 = [10%Q].
Proof.
  destruct C7_column_detection as (Hscenario & _ & Hleft). split.
  - apply Hscenario; reflexivity.
  - apply (Hleft [] 10%Z). constructor.
Defined.

(** C7 as stated fails: on the four lines whose histogram spans the range
    from 10 to 205, column detection does not infer two column starts. *)
Lemma C7_not_two_columns :
  list_min (map tl_x four_lines) = 10%Z
  /\ list_max (map (fun line => tl_x line + tl_width line)%Z four_lines) = 205%Z
  /\ ~ (exists columns,
          _detect_columns four_lines = Some columns
          /\ List.length columns = 2).
Proof.
  split; [reflexivity|]. split; [reflexivity|].
  intros (columns & H & Hlen). vm_compute in H. injection H as <-.
  discriminate Hlen.
Qed.

(** ** Table regions *)

Lemma region_loop (contours : list contour) :
  Forall (fun c => (0 < rect_h c)%Z) contours ->
  forall regions,
    fold_left region_step contours (Some regions)
    = Some (regions ++ map bounding_rect (filter qualifies contours)).
Proof.
  induction 1 as [|c contours Hc _ IH]; intros regions; cbn [fold_left].
  - cbn. now rewrite app_nil_r.
  - cbn [filter]. unfold region_step at 2, qualifies, true_div.
    destruct (rect_h c =? 0)%Z eqn:E; [apply Z.eqb_eq in E; lia|].
    destruct (Qlt_bool 1000 (area c)); cbn [andb]; [|apply IH].
    destruct (Qlt_bool (1 # 2) _ && Qlt_bool _ 5); [|apply IH].
    rewrite IH. cbn [map]. now rewrite <- app_assoc.
Qed.

(** C9 (as the code behaves): for contours whose bounding boxes have a
    positive height, table-region detection raises nothing and returns, in
    the order found, exactly the bounding rectangles of the contours whose
    area exceeds 1000 and whose aspect ratio width/height lies strictly
    between 0.5 and 5; the list is empty when no contour qualifies. *)
Theorem C9_table_regions (contours : list contour) :
  Forall (fun c => (0 < rect_h c)%Z) contours ->
  detect_table_regions contours
  = Some (map bounding_rect (filter qualifies contours))
  /\ (forall c,
         qualifies c = true
         <-> (1000 < area c
              /\ 1 # 2 < inject_Z (rect_w c) / inject_Z (rect_h c)
              /\ inject_Z (rect_w c) / inject_Z (rect_h c) < 5)%Q)
  /\ (Forall (fun c => qualifies c = false) contours ->
      detect_table_regions contours = Some []).
Proof.
  intros Hh. unfold detect_table_regions.
  rewrite (region_loop contours Hh []). cbn [app].
  split; [reflexivity|]. split.
  - intros c. unfold qualifies.
    rewrite !andb_true_iff, !Qlt_bool_iff. tauto.
  - intros Hnone. f_equal.
    replace (filter qualifies contours) with (@nil contour); [reflexivity|].
    symmetry. induction Hnone as [|c l Hc _ IH]; [reflexivity|].
    inversion Hh; subst. cbn [filter]. rewrite Hc. now apply IH.
Qed.

Lemma C9_table_regions_witness :
  detect_table_regions [half_ratio_contour; wide_contour]
  = Some [(5, 7, 100, 50)%Z].
Proof.
  assert (Hh : Forall (fun c => (0 < rect_h c)%Z)
                      [half_ratio_contour; wide_contour]).
  { repeat constructor. }
  destruct (C9_table_regions [half_ratio_contour; wide_contour] Hh)
    as (Heq & _ & _).
  exact Heq.
Defined.

(** C9 as stated fails: a contour of area 2000 whose aspect ratio is
    exactly 0.5, inside the closed interval, is not returned. *)
Lemma C9_half_ratio_excluded :
  (1000 < area half_ratio_contour)%Q
  /\ (1 # 2 <= inject_Z (rect_w half_ratio_contour)
                / inject_Z (rect_h half_ratio_contour) <= 5)%Q
  /\ detect_table_regions [half_ratio_contour] = Some [].
Proof.
  split; [reflexivity|]. split; [|reflexivity].
  split; vm_compute; discriminate.
Qed.

(** ** The order of the extraction strategies *)

Lemma append_matches (pattern : regex) (ms : list match_obj) :
  forall lab_tests,
    fold_left (append_match pattern) ms lab_tests
    = lab_tests
      ++ flat_map
           (fun mo =>
              match record_of_match pattern mo with
              | Some t => [t]
              | None => []
              end) ms.
Proof.
  induction ms as [|mo ms IH]; intros lab_tests; cbn [fold_left flat_map].
  - now rewrite app_nil_r.
  - rewrite IH. unfold append_match.
    destruct (record_of_match pattern mo); [|reflexivity].
    now rewrite <- app_assoc.
Qed.

Lemma try_patterns_union (text : string) :
  try_patterns text []
  = template_records text pattern1 ++ template_records text pattern2
    ++ template_records text pattern3 ++ template_records text pattern4.
Proof.
  unfold try_patterns, patterns, template_records. cbn [fold_left].
  rewrite !append_matches. cbn [app]. now rewrite <- !app_assoc.
Qed.

Lemma nonempty_false {A : Type} (l : list A) : nonempty l = false <-> l = [].
Proof. destruct l; simpl; split; congruence. Qed.

(** C1 (as the code behaves): a text judged tabular is parsed by the tabular
    strategy alone, whose result is returned even when it is empty; a text
    not judged tabular gets the records of the four templates, in the order
    of the templates, when there is at least one, and the result of the
    aggressive fallback otherwise. *)
Theorem C1_strategy_order (text : string) :
  (_is_tabular_format text = true ->
   parse_text text = _parse_tabular_format text)
  /\ (_is_tabular_format text = false ->
      let templates :=
        template_records text pattern1 ++ template_records text pattern2
        ++ template_records text pattern3 ++ template_records text pattern4 in
      (templates <> [] -> parse_text text = templates)
      /\ (templates = [] -> parse_text text = _parse_aggressive text)).
Proof.
  unfold parse_text. split; intros ->; [reflexivity|].
  rewrite try_patterns_union. cbv zeta. split; intros H.
  - destruct (nonempty _) eqn:E; [reflexivity|].
    now apply nonempty_false in E.
  - now rewrite H.
Qed.

Lemma C1_strategy_order_witness :
  parse_text piped_line = _parse_tabular_format piped_line
  /\ parse_text scenario1 = template_records scenario1 pattern1
  /\ parse_text loose_line = _parse_aggressive loose_line.
Proof.
  split; [|split].
  - apply (C1_strategy_order piped_line). reflexivity.
  - destruct (C1_strategy_order scenario1) as [_ H].
    destruct (H eq_refl) as [Hsome _].
    rewrite Hsome; [reflexivity | discriminate].
  - destruct (C1_strategy_order loose_line) as [_ H].
    destruct (H eq_refl) as [_ Hnone].
    apply Hnone. reflexivity.
Defined.

(** C1 as stated fails: on a line judged tabular the tabular strategy yields
    no record, the first template has a match, and yet the result is
    empty. *)
Lemma C1_tabular_gate_counterexample :
  _is_tabular_format piped_line = true
  /\ _parse_tabular_format piped_line = []
  /\ template_records piped_line pattern1 <> []
  /\ parse_text piped_line = [].
Proof.
  split; [reflexivity|]. split; [reflexivity|]. split; [|reflexivity].
  vm_compute. discriminate.
Qed.

(** ** Duplicate names *)

Lemma mem_In (s : string) (names : list string) :
  mem s names = true <-> In s names.
Proof.
  unfold mem. rewrite existsb_exists. split.
  - intros (x & Hin & Hx). apply String.eqb_eq in Hx. now subst.
  - intros Hin. exists s. split; [exact Hin | apply String.eqb_refl].
Qed.

(** The loop that removes duplicates keeps names distinct from one another
    and from the names seen before. *)
Lemma unique_names (tests : list lab_test) :
  forall seen,
    NoDup (map test_name (unique tests seen))
    /\ Forall (fun t => ~ In (test_name t) seen) (unique tests seen).
Proof.
  induction tests as [|t tests IH]; intros seen; cbn [unique].
  - split; constructor.
  - destruct (mem (test_name t) seen) eqn:E; [apply IH|].
    destruct (IH (test_name t :: seen)) as [Hnd Hf].
    assert (Hnot : ~ In (test_name t) seen).
    { rewrite <- mem_In. congruence. }
    split.
    + cbn [map]. constructor; [|exact Hnd].
      rewrite in_map_iff. intros (u & Hu & Hin).
      rewrite Forall_forall in Hf. apply (Hf u Hin). now left.
    + constructor; [exact Hnot|].
      eapply Forall_impl; [|exact Hf]. cbn. intros u Hu Hin. apply Hu.
      now right.
Qed.

(** X7: when the text of the whole page yields no record, the names of the
    result are pairwise distinct. *)
Lemma fallback_path_unique (doc : document) (tests : list lab_test) :
  parse_text (full_text doc) = [] ->
  process_lab_report doc = Some tests ->
  NoDup (map test_name tests).
Proof.
  unfold process_lab_report. intros ->. cbn [nonempty].
  destruct (preprocess_image _); [|discriminate].
  destruct (detect_table_regions (contours doc)); [|discriminate].
  destruct (process_regions doc _ []); [|discriminate].
  intros H. injection H as <-. apply unique_names.
Qed.

(** C2 fails on the first path of [process_lab_report]: when the text of the
    whole page names Glucose on two lines, both records are returned. *)
Theorem C2_duplicates_on_full_text :
  exists first second,
    process_lab_report repeated_document = Some [first; second]
    /\ test_name first = "Glucose" /\ test_name second = "Glucose"
    /\ ~ NoDup (map test_name [first; second]).
Proof.
  do 2 eexists. split; [vm_compute; reflexivity|].
  split; [reflexivity|]. split; [reflexivity|].
  intros H. inversion H as [|? ? Hnot _]; subst. apply Hnot. now left.
Qed.

(** ** The out-of-range flag *)

Lemma SFcompare_antisym (a b : pyfloat) :
  SFcompare b a = option_map CompOpp (SFcompare a b).
Proof.
  destruct a as [s1|s1| |s1 m1 e1], b as [s2|s2| |s2 m2 e2]; simpl;
    try reflexivity;
    try (destruct s1; reflexivity); try (destruct s2; reflexivity);
    try (destruct s1, s2; reflexivity).
  destruct s1, s2; try reflexivity; f_equal;
    rewrite (Z.compare_antisym e1 e2); destruct (e1 ?= e2)%Z; simpl;
      try reflexivity.
  - f_equal. symmetry. exact (Pos.compare_cont_antisym m1 m2 Eq).
  - symmetry. exact (Pos.compare_cont_antisym m1 m2 Eq).
Qed.

Lemma SFcompare_eq_l (a b c : pyfloat) :
  SFcompare a b = Some Eq -> SFcompare a c = SFcompare b c.
Proof.
  assert (Hm : forall m m', Pos.compare_cont Eq m m' = Eq -> m = m').
  { intros m m'. apply Pos.compare_eq. }
  destruct a as [s1|s1| |s1 m1 e1], b as [s2|s2| |s2 m2 e2]; simpl;
    intros H; try discriminate H;
    try (destruct s1; discriminate H); try (destruct s2; discriminate H).
  - destruct c; reflexivity.
  - destruct s1, s2; try discriminate H; reflexivity.
  - destruct s1, s2; try discriminate H; injection H as H;
      destruct (e1 ?= e2)%Z eqn:E; try discriminate H;
      apply Z.compare_eq in E; subst e2.
    + destruct (Pos.compare_cont Eq m1 m2) eqn:E2; try discriminate H.
      apply Hm in E2. now subst.
    + apply Hm in H. now subst.
Qed.

Lemma feq_sym (a b : pyfloat) : feq a b = true -> feq b a = true.
Proof.
  unfold feq, SFeqb. rewrite (SFcompare_antisym a b).
  destruct (SFcompare a b) as [[]|]; simpl; congruence.
Qed.

Lemma feq_compare_l (a b c : pyfloat) :
  feq a b = true -> SFcompare a c = SFcompare b c.
Proof.
  unfold feq, SFeqb. intros H. apply SFcompare_eq_l.
  destruct (SFcompare a b) as [[]|]; congruence.
Qed.

Lemma feq_compare_r (a b c : pyfloat) :
  feq a b = true -> SFcompare c a = SFcompare c b.
Proof.
  intros H. rewrite (SFcompare_antisym a c), (SFcompare_antisym b c).
  now rewrite (feq_compare_l a b c H).
Qed.

Lemma fle_not_gt (a b : pyfloat) : fle a b = true -> flt b a = false.
Proof.
  unfold fle, flt, SFleb, SFltb. rewrite (SFcompare_antisym a b).
  destruct (SFcompare a b) as [[]|]; simpl; congruence.
Qed.

Lemma feq_not_lt (a b : pyfloat) : feq a b = true -> flt a b = false.
Proof.
  unfold feq, flt, SFeqb, SFltb.
  destruct (SFcompare a b) as [[]|]; simpl; congruence.
Qed.

(** C3 (as the code behaves): for a value string that parses to the float
    [v] and a range string whose parsed bounds are [(mn, mx)], the flag of
    the record is true iff ([mn] is not minus infinity and [v < mn]) or
    ([mx] is not plus infinity and [v > mx]); and when [mn <= mx], a value
    equal to either bound is not flagged. *)
Theorem C3_out_of_range_flag
  (name value_str range_str : string) (v mn mx : pyfloat) :
  float value_str = Some v ->
  parse_reference_range range_str = (mn, mx) ->
  (lab_test_out_of_range (format_lab_test name value_str range_str) = true
   <-> (fne mn neg_inf = true /\ flt v mn = true)
       \/ (fne mx inf = true /\ fgt v mx = true))
  /\ (fle mn mx = true -> feq v mn = true \/ feq v mx = true ->
      lab_test_out_of_range (format_lab_test name value_str range_str)
      = false).
Proof.
  intros Hv Hr. unfold format_lab_test. rewrite Hv.
  cbn [lab_test_out_of_range]. unfold is_value_out_of_range. rewrite Hr.
  split.
  - destruct (fne mn neg_inf), (flt v mn), (fne mx inf), (fgt v mx);
      cbn; intuition congruence.
  - intros Hle Heq.
    assert (Hlt : flt v mn = false).
    { destruct Heq as [Heq|Heq]; [now apply feq_not_lt|].
      unfold flt, SFltb. rewrite (feq_compare_l v mx mn Heq).
      now apply fle_not_gt. }
    assert (Hgt : fgt v mx = false).
    { destruct Heq as [Heq|Heq].
      - unfold fgt, SFltb. rewrite (feq_compare_r v mn mx Heq).
        now apply fle_not_gt.
      - apply feq_not_lt. now apply feq_sym. }
    rewrite Hlt, Hgt. now rewrite !andb_false_r.
Qed.

Lemma C3_out_of_range_flag_witness :
  exists v mn mx,
    float "11000" = Some v
    /\ parse_reference_range "4000-11000" = (mn, mx)
    /\ fle mn mx = true /\ feq v mx = true
    /\ lab_test_out_of_range (format_lab_test "WBC" "11000" "4000-11000")
       = false.
Proof.
  eexists _, _, _.
  split; [vm_compute; reflexivity|]. split; [vm_compute; reflexivity|].
  split; [reflexivity|]. split; [reflexivity|].
  refine (proj2 (C3_out_of_range_flag "WBC" "11000" "4000-11000" _ _ _
                   eq_refl eq_refl) eq_refl (or_intror eq_refl)).
Defined.

(** C3 as stated fails: the range [inf-5] parses to a lower bound of plus
    infinity, which is not finite, and the value 3 is flagged although it
    does not exceed the upper bound 5. *)
Lemma C3_infinite_lower_bound :
  exists v mn mx,
    float "3" = Some v
    /\ parse_reference_range "inf-5" = (mn, mx)
    /\ lab_test_out_of_range (format_lab_test "X" "3" "inf-5") = true
    /\ ~ ((is_finite mn = true /\ flt v mn = true)
          \/ (is_finite mx = true /\ fgt v mx = true)).
Proof.
  eexists _, _, _.
  split; [vm_compute; reflexivity|]. split; [vm_compute; reflexivity|].
  split; [reflexivity|].
  intros [[H _]|[_ H]]; discriminate H.
Qed.

(** ** Reference ranges *)

Lemma lstrip_app_nonspace (c : ascii) (a b : string) :
  is_space c = false ->
  lstrip (a ++ String c b)%string = (lstrip a ++ String c b)%string.
Proof.
  intros Hc. induction a as [|d a IH]; cbn.
  - now rewrite Hc.
  - destruct (is_space d); [exact IH | reflexivity].
Qed.

Lemma rstrip_app (x z : string) :
  is_empty (rstrip z) = false ->
  rstrip (x ++ z)%string = (x ++ rstrip z)%string.
Proof.
  intros Hz. induction x as [|d x IH]; [reflexivity|].
  cbn [append rstrip]. rewrite IH.
  replace (is_empty (x ++ rstrip z)%string) with false.
  - now rewrite andb_false_r.
  - destruct x; cbn [append is_empty]; [now rewrite Hz | reflexivity].
Qed.

Lemma lstrip_idem (s : string) : lstrip (lstrip s) = lstrip s.
Proof.
  induction s as [|c s IH]; cbn; [reflexivity|].
  destruct (is_space c) eqn:E; [exact IH|]. cbn. now rewrite E.
Qed.

Lemma rstrip_idem (s : string) : rstrip (rstrip s) = rstrip s.
Proof.
  induction s as [|c s IH]; cbn; [reflexivity|].
  destruct (is_space c && is_empty (rstrip s)) eqn:E; [reflexivity|].
  cbn. now rewrite IH, E.
Qed.

Lemma lstrip_rstrip (s : string) : lstrip (rstrip s) = rstrip (lstrip s).
Proof.
  induction s as [|c s IH]; cbn; [reflexivity|].
  destruct (is_space c) eqn:E; cbn.
  - destruct (is_empty (rstrip s)) eqn:E2; cbn.
    + rewrite <- IH. destruct (rstrip s); [reflexivity | discriminate].
    + now rewrite E.
  - now rewrite E.
Qed.

Lemma strip_lstrip (s : string) : strip (lstrip s) = strip s.
Proof. unfold strip. now rewrite lstrip_idem. Qed.

Lemma strip_rstrip (s : string) : strip (rstrip s) = strip s.
Proof. unfold strip. now rewrite lstrip_rstrip, rstrip_idem. Qed.

Lemma contains_app (c : ascii) (x y : string) :
  contains c (x ++ y)%string = contains c x || contains c y.
Proof.
  induction x as [|d x IH]; cbn; [reflexivity|].
  now rewrite IH, orb_assoc.
Qed.

Lemma contains_lstrip (c : ascii) (s : string) :
  contains c s = false -> contains c (lstrip s) = false.
Proof.
  induction s as [|d s IH]; cbn; [reflexivity|].
  intros H. apply orb_false_iff in H. destruct H as [H1 H2].
  destruct (is_space d); [now apply IH|]. cbn. now rewrite H1, H2.
Qed.

Lemma contains_rstrip (c : ascii) (s : string) :
  contains c s = false -> contains c (rstrip s) = false.
Proof.
  induction s as [|d s IH]; cbn; [reflexivity|].
  intros H. apply orb_false_iff in H. destruct H as [H1 H2].
  destruct (is_space d && is_empty (rstrip s)); [reflexivity|].
  cbn. now rewrite H1, IH.
Qed.

Lemma split_single (d : ascii) (s : string) :
  contains d s = false -> split d s = [s].
Proof.
  induction s as [|c s IH]; cbn; [reflexivity|].
  intros H. apply orb_false_iff in H. destruct H as [H1 H2].
  now rewrite (IH H2), H1.
Qed.

Lemma split_cons (d : ascii) (s : string) :
  exists h t, split d s = h :: t.
Proof.
  induction s as [|c s (h & t & IH)]; cbn; [now eexists _, _|].
  rewrite IH. destruct (Ascii.eqb c d); now eexists _, _.
Qed.

Lemma split_app (d : ascii) (x y : string) :
  contains d x = false ->
  split d (x ++ String d y)%string = x :: split d y.
Proof.
  induction x as [|c x IH]; cbn.
  - intros _. rewrite Ascii.eqb_refl.
    destruct (split_cons d y) as (h & t & ->). reflexivity.
  - intros H. apply orb_false_iff in H. destruct H as [H1 H2].
    now rewrite (IH H2), H1.
Qed.

(** The strings [a-b] whose sides hold no dash and no comparison sign. *)
Lemma range_of_two_parts (a b : string) (A B : pyfloat) :
  contains "-" a = false -> contains "<" a = false -> contains ">" a = false ->
  contains "-" b = false -> contains "<" b = false -> contains ">" b = false ->
  float (strip a) = Some A -> float (strip b) = Some B ->
  parse_reference_range (a ++ String "-" b)%string = (A, B).
Proof.
  intros Ha1 Ha2 Ha3 Hb1 Hb2 Hb3 HA HB.
  unfold parse_reference_range, strip.
  rewrite (lstrip_app_nonspace "-" a b eq_refl).
  rewrite (rstrip_app (lstrip a) (String "-" b)).
  2:{ cbn. reflexivity. }
  change (rstrip (String "-" b)) with (String "-" (rstrip b)).
  unfold range_case. rewrite !contains_app. cbn [contains].
  rewrite (contains_lstrip _ _ Ha1), (contains_lstrip _ _ Ha2),
    (contains_lstrip _ _ Ha3), (contains_rstrip _ _ Hb2),
    (contains_rstrip _ _ Hb3).
  cbn [Ascii.eqb orb andb negb].
  replace (Ascii.eqb "-" "-") with true by reflexivity.
  replace (Ascii.eqb "-" "<") with false by reflexivity.
  replace (Ascii.eqb "-" ">") with false by reflexivity.
  cbn [orb andb negb].
  rewrite (split_app "-" _ _ (contains_lstrip _ _ Ha1)).
  rewrite (split_single "-" _ (contains_rstrip _ _ Hb1)).
  rewrite strip_lstrip, strip_rstrip, HA, HB. reflexivity.
Qed.

(** What a digit is not. *)
Lemma digit_facts (a : ascii) :
  is_digit a = true ->
  is_space a = false /\ Ascii.eqb a "=" = false /\ Ascii.eqb a "." = false
  /\ Ascii.eqb a "<" = false /\ Ascii.eqb a ">" = false.
Proof.
  destruct a as [[] [] [] [] [] [] [] []]; intros H; vm_compute in H;
    try discriminate H; repeat split.
Qed.

Lemma all_chars_app (p : ascii -> bool) (x y : string) :
  all_chars p (x ++ y)%string = all_chars p x && all_chars p y.
Proof.
  induction x as [|c x IH]; cbn; [reflexivity|].
  now rewrite IH, andb_assoc.
Qed.

Lemma all_chars_impl (p q : ascii -> bool) (s : string) :
  (forall a, p a = true -> q a = true) ->
  all_chars p s = true -> all_chars q s = true.
Proof.
  intros Hpq. induction s as [|c s IH]; cbn; [reflexivity|].
  rewrite !andb_true_iff. intros [H1 H2]. split; [now apply Hpq | now apply IH].
Qed.

Lemma all_chars_contains (c : ascii) (s : string) :
  all_chars (fun a => negb (Ascii.eqb a c)) s = true -> contains c s = false.
Proof.
  induction s as [|d s IH]; cbn; [reflexivity|].
  rewrite andb_true_iff, negb_true_iff. intros [-> H]. now apply IH.
Qed.

Lemma rstrip_nospace (s : string) :
  all_chars (fun a => negb (is_space a)) s = true -> rstrip s = s.
Proof.
  induction s as [|c s IH]; cbn; [reflexivity|].
  rewrite andb_true_iff, negb_true_iff. intros [-> H]. cbn. now rewrite IH.
Qed.

Lemma strip_nospace (s : string) :
  all_chars (fun a => negb (is_space a)) s = true -> strip s = s.
Proof.
  intros H. unfold strip.
  replace (lstrip s) with s; [now apply rstrip_nospace|].
  destruct s as [|c s]; [reflexivity|]. cbn in H |- *.
  apply andb_true_iff in H. destruct H as [H _].
  apply negb_true_iff in H. now rewrite H.
Qed.

Lemma take_all (s : string) : take (String.length s) s = s.
Proof. induction s as [|c s IH]; cbn; [reflexivity | now rewrite IH]. Qed.

Lemma append_empty (s : string) : (s ++ EmptyString)%string = s.
Proof. induction s as [|c s IH]; cbn; [reflexivity | now rewrite IH]. Qed.

Lemma unsigned_numeral_app (ds : string) (fr : option string) :
  unsigned_numeral ds fr = (ds ++ fraction_text fr)%string.
Proof. destruct fr; cbn; [reflexivity | now rewrite append_empty]. Qed.

Lemma rep_stop (p : ascii -> bool) (s : string) (c : caps) (k : cont) :
  stops p s -> rep p 0 s c k = k s c.
Proof. destruct s as [|a s]; cbn; [reflexivity|]. now intros ->. Qed.

(** A greedy repetition takes a whole run when the rest then matches. *)
Lemma rep_greedy (p : ascii -> bool) (ds : string) :
  forall lo rest c k r,
    all_chars p ds = true -> stops p rest -> lo <= String.length ds ->
    k rest c = Some r ->
    rep p lo (ds ++ rest)%string c k = Some r.
Proof.
  induction ds as [|d ds IH]; intros lo rest c k r Hall Hstop Hlo Hk.
  - cbn in Hlo. assert (lo = 0) as -> by lia. cbn [append].
    now rewrite rep_stop.
  - cbn in Hall. apply andb_true_iff in Hall. destruct Hall as [Hd Hall].
    cbn [append rep]. rewrite Hd.
    rewrite (IH (pred lo) rest c k r Hall Hstop); [reflexivity| |exact Hk].
    cbn in Hlo. lia.
Qed.

Lemma run_number_group (ds : string) (fr : option string) (c : caps) :
  is_numeral ds fr ->
  run number_group (unsigned_numeral ds fr) c final
  = Some (EmptyString, (1, unsigned_numeral ds fr) :: c).
Proof.
  intros (Hne & Hds & Hfr). unfold number_group. cbn [seq run].
  rewrite unsigned_numeral_app.
  apply rep_greedy; [exact Hds | | |].
  - destruct fr; cbn; reflexivity || exact I.
  - destruct ds; [congruence | cbn; lia].
  - destruct fr as [f|]; cbn [fraction_text run chr].
    + rewrite Ascii.eqb_refl.
      rewrite <- (append_empty f) at 1.
      rewrite (rep_greedy is_digit f 0 EmptyString c _
                 (EmptyString, (1, (ds ++ String "." f)%string) :: c));
        [reflexivity | exact Hfr | exact I | lia |].
      unfold final, consumed. cbn [String.length]. now rewrite Nat.sub_0_r, take_all.
    + cbn [rep at_least_zero]. unfold final, consumed. cbn [String.length].
      now rewrite Nat.sub_0_r, take_all.
Qed.

Lemma numeral_head (ds : string) (fr : option string) :
  is_numeral ds fr ->
  exists d t, unsigned_numeral ds fr = String d t /\ is_digit d = true.
Proof.
  intros (Hne & Hds & _). destruct ds as [|d ds]; [congruence|].
  cbn in Hds. apply andb_true_iff in Hds. destruct Hds as [Hd _].
  exists d. destruct fr; cbn; eexists; split; eauto.
Qed.

Lemma numeral_chars (p : ascii -> bool) (ds : string) (fr : option string) :
  (forall a, is_digit a = true -> p a = true) -> p "."%char = true ->
  is_numeral ds fr -> all_chars p (unsigned_numeral ds fr) = true.
Proof.
  intros Hp Hdot (_ & Hds & Hfr). rewrite unsigned_numeral_app, all_chars_app.
  rewrite (all_chars_impl is_digit p ds Hp Hds).
  destruct fr as [f|]; cbn; [|reflexivity].
  now rewrite Hdot, (all_chars_impl is_digit p f Hp Hfr).
Qed.

(** The pattern of Cases 2 and 3 matches a sign, an optional equals sign
    and a numeral at once, and captures the numeral. *)
Lemma run_comparison (sign : ascii) (with_equals : bool) (ds : string)
  (fr : option string) :
  is_numeral ds fr ->
  run (comparison_re sign)
      (String sign (equals_text with_equals ++ unsigned_numeral ds fr)%string)
      [] final
  = Some (EmptyString, [(1, unsigned_numeral ds fr)]).
Proof.
  intros Hnum. destruct (numeral_head ds fr Hnum) as (d & t & Hx & Hd).
  destruct (digit_facts d Hd) as (Hsp & Heq & _).
  pose proof (run_number_group ds fr [] Hnum) as Hgroup.
  rewrite Hx in Hgroup |- *.
  unfold comparison_re, ws_star. cbn [seq]. cbn [run chr].
  rewrite Ascii.eqb_refl.
  destruct with_equals; cbn [equals_text append].
  - rewrite rep_stop by reflexivity. cbv beta iota.
    rewrite Ascii.eqb_refl, rep_stop by exact Hsp.
    now rewrite Hgroup.
  - rewrite rep_stop by exact Hsp. cbv beta iota.
    rewrite Ascii.eqb_sym, Heq, rep_stop by exact Hsp.
    now rewrite Hgroup.
Qed.

Lemma search_comparison (sign : ascii) (with_equals : bool) (ds : string)
  (fr : option string) :
  is_numeral ds fr ->
  exists mo,
    search (comparison_re sign)
      (String sign (equals_text with_equals ++ unsigned_numeral ds fr)%string)
    = Some mo
    /\ group 1 (m_groups mo) = Some (unsigned_numeral ds fr).
Proof.
  intros Hnum. unfold search.
  destruct (unsigned_numeral ds fr) eqn:E.
  - destruct (numeral_head ds fr Hnum) as (d & t & Hx & _). congruence.
  - rewrite <- E. cbn [search_from]. unfold match_at.
    rewrite (run_comparison sign with_equals ds fr Hnum).
    eexists. split; reflexivity.
Qed.

Lemma comparison_text_chars (p : ascii -> bool) (with_equals : bool)
  (ds : string) (fr : option string) :
  (forall a, is_digit a = true -> p a = true) ->
  p "."%char = true -> p "="%char = true ->
  is_numeral ds fr ->
  all_chars p (equals_text with_equals ++ unsigned_numeral ds fr)%string = true.
Proof.
  intros Hp Hdot Heq Hnum. rewrite all_chars_app.
  rewrite (numeral_chars p ds fr Hp Hdot Hnum).
  destruct with_equals; cbn; [now rewrite Heq | reflexivity].
Qed.

(** Case 2 on a numeral. *)
Lemma parse_less_than (with_equals : bool) (ds : string) (fr : option string)
  (A : pyfloat) :
  is_numeral ds fr -> float (unsigned_numeral ds fr) = Some A ->
  parse_reference_range
    (String "<" (equals_text with_equals ++ unsigned_numeral ds fr)%string)
  = (neg_inf, A).
Proof.
  intros Hnum HA. unfold parse_reference_range.
  rewrite strip_nospace.
  2:{ cbn [all_chars]. apply andb_true_iff. split; [reflexivity|].
      apply comparison_text_chars;
        [intros a Ha; now rewrite (proj1 (digit_facts a Ha))
        | reflexivity | reflexivity | exact Hnum]. }
  unfold range_case. cbn [contains]. rewrite Ascii.eqb_refl.
  cbn [orb negb]. rewrite andb_false_r.
  unfold bound_case, less_than_re. cbn [contains]. rewrite Ascii.eqb_refl.
  cbn [orb].
  destruct (search_comparison "<" with_equals ds fr Hnum) as (mo & -> & ->).
  now rewrite HA.
Qed.

(** Case 3 on a numeral. *)
Lemma parse_greater_than (with_equals : bool) (ds : string)
  (fr : option string) (A : pyfloat) :
  is_numeral ds fr -> float (unsigned_numeral ds fr) = Some A ->
  parse_reference_range
    (String ">" (equals_text with_equals ++ unsigned_numeral ds fr)%string)
  = (A, inf).
Proof.
  intros Hnum HA. unfold parse_reference_range.
  rewrite strip_nospace.
  2:{ cbn [all_chars]. apply andb_true_iff. split; [reflexivity|].
      apply comparison_text_chars;
        [intros a Ha; now rewrite (proj1 (digit_facts a Ha))
        | reflexivity | reflexivity | exact Hnum]. }
  unfold range_case. cbn [contains]. rewrite Ascii.eqb_refl.
  rewrite orb_true_r. cbn [orb negb]. rewrite andb_false_r.
  unfold bound_case at 1. cbn [contains].
  replace (Ascii.eqb ">" "<") with false by reflexivity. cbn [orb].
  rewrite all_chars_contains.
  2:{ apply comparison_text_chars;
        [intros a Ha; destruct (digit_facts a Ha) as (_ & _ & _ & -> & _);
         reflexivity
        | reflexivity | reflexivity | exact Hnum]. }
  unfold bound_case, greater_than_re. cbn [contains]. rewrite Ascii.eqb_refl.
  cbn [orb].
  destruct (search_comparison ">" with_equals ds fr Hnum) as (mo & -> & ->).
  now rewrite HA.
Qed.

(** [float] accepts every unsigned numeral. *)
Lemma digits_tail_digits (ds : string) :
  forall rest acc n,
    all_chars is_digit ds = true ->
    exists acc' n',
      digits_tail (ds ++ rest)%string acc n = digits_tail rest acc' n'.
Proof.
  induction ds as [|d ds IH]; intros rest acc n Hds; cbn [append].
  - now exists acc, n.
  - cbn in Hds. apply andb_true_iff in Hds. destruct Hds as [Hd Hds].
    cbn [digits_tail]. rewrite Hd. now apply IH.
Qed.

Lemma number_numeral (ds : string) (fr : option string) :
  is_numeral ds fr ->
  exists m k, number (unsigned_numeral ds fr) = Some (m, k, EmptyString).
Proof.
  intros (Hne & Hds & Hfr). rewrite unsigned_numeral_app.
  destruct ds as [|d ds]; [congruence|].
  cbn in Hds. apply andb_true_iff in Hds. destruct Hds as [Hd Hds].
  unfold number. cbn [append digitpart]. rewrite Hd.
  destruct (digits_tail_digits ds (fraction_text fr) (0 * 10 + digit_val d)%Z
              1 Hds) as (m & n & ->).
  destruct fr as [f|]; cbn [fraction_text digits_tail].
  - replace (is_digit ".") with false by reflexivity.
    replace (Ascii.eqb "." "_") with false by reflexivity.
    cbv beta iota.
    destruct f as [|d2 f]; cbn [digitpart]; [now eexists _, _|].
    cbn in Hfr. apply andb_true_iff in Hfr. destruct Hfr as [Hd2 Hf].
    rewrite Hd2.
    destruct (digits_tail_digits f EmptyString (m * 10 + digit_val d2)%Z 1 Hf)
      as (m' & k & Ht).
    rewrite append_empty in Ht. rewrite Ht. cbn [digits_tail].
    now eexists _, _.
  - now eexists _, _.
Qed.

Lemma float_strip_nospace (s : string) :
  all_chars (fun a => negb (is_space a)) s = true -> float_strip s = s.
Proof.
  assert (Hsp : forall a, is_space a = false -> float_space a = false).
  { intros a. destruct a as [[] [] [] [] [] [] [] []]; vm_compute; congruence. }
  intros H. unfold float_strip.
  assert (Hl : float_lstrip s = s).
  { destruct s as [|c s]; [reflexivity|]. cbn in H |- *.
    apply andb_true_iff in H. destruct H as [H _].
    apply negb_true_iff in H. now rewrite (Hsp c H). }
  rewrite Hl. clear Hl. induction s as [|c s IH]; [reflexivity|].
  cbn in H. apply andb_true_iff in H. destruct H as [Hc H].
  apply negb_true_iff in Hc. cbn [float_rstrip].
  now rewrite (Hsp c Hc), (IH H).
Qed.

Lemma float_digit_start (d : ascii) (t : string) :
  is_digit d = true -> float_strip (String d t) = String d t ->
  float (String d t)
  = match number (String d t) with
    | Some (m, k, rest) =>
        match exponent rest with
        | Some e => Some (dec_to_float false m (e - Z.of_nat k))
        | None => None
        end
    | None => None
    end.
Proof.
  intros Hd Hs. unfold float. rewrite Hs.
  destruct d as [[] [] [] [] [] [] [] []]; vm_compute in Hd;
    try discriminate Hd; reflexivity.
Qed.

Lemma float_numeral (ds : string) (fr : option string) :
  is_numeral ds fr -> exists A, float (unsigned_numeral ds fr) = Some A.
Proof.
  intros Hnum. destruct (numeral_head ds fr Hnum) as (d & t & Hx & Hd).
  destruct (number_numeral ds fr Hnum) as (m & k & Hn).
  assert (Hs : float_strip (unsigned_numeral ds fr) = unsigned_numeral ds fr).
  { apply float_strip_nospace. apply numeral_chars; [|reflexivity|exact Hnum].
    intros a Ha. now rewrite (proj1 (digit_facts a Ha)). }
  rewrite Hx in Hs, Hn |- *.
  rewrite (float_digit_start d t Hd Hs), Hn. cbn [exponent].
  now eexists.
Qed.

(** Without a comparison sign, and without two parts that parse around one
    dash, the default is returned. *)
Lemma parse_default (s : string) :
  contains "<" s = false -> contains ">" s = false ->
  (forall p0 p1 A B,
      split "-" (strip s) = [p0; p1] ->
      float (strip p0) = Some A -> float (strip p1) = Some B -> False) ->
  parse_reference_range s = (zero, zero).
Proof.
  intros Hlt Hgt Hparts. unfold parse_reference_range.
  assert (Hlt' : contains "<" (strip s) = false)
    by now apply contains_rstrip, contains_lstrip.
  assert (Hgt' : contains ">" (strip s) = false)
    by now apply contains_rstrip, contains_lstrip.
  replace (range_case (strip s)) with (@None (pyfloat * pyfloat)).
  - unfold bound_case. now rewrite Hlt', Hgt'.
  - symmetry. unfold range_case.
    destruct (contains "-" (strip s) && _); [|reflexivity].
    destruct (split "-" (strip s)) as [|p0 [|p1 [|p2 l]]] eqn:E;
      try reflexivity.
    destruct (float (strip p0)) as [A|] eqn:EA; [|reflexivity].
    destruct (float (strip p1)) as [B|] eqn:EB; [|reflexivity].
    destruct (Hparts p0 p1 A B eq_refl EA EB).
Qed.

(** C4 (as the code behaves): for sides [a] and [b] that hold no dash and no
    comparison sign and parse, once stripped, to the floats [A] and [B], the
    string [a-b] yields [(A, B)], in whichever order [A] and [B] are; for an
    unsigned decimal numeral with value [X], a less-than sign (with or
    without an equals sign) in front of it yields minus infinity and [X],
    a greater-than sign yields [X] and plus infinity; and a string with no
    comparison sign that is not made of two parsing parts around one dash
    yields the default pair of zeros.  The function is total. *)
Theorem C4_reference_range :
  (forall a b A B,
      contains "-" a = false -> contains "<" a = false ->
      contains ">" a = false ->
      contains "-" b = false -> contains "<" b = false ->
      contains ">" b = false ->
      float (strip a) = Some A -> float (strip b) = Some B ->
      parse_reference_range (a ++ String "-" b)%string = (A, B))
  /\ (forall ds fr,
         is_numeral ds fr ->
         exists X,
           float (unsigned_numeral ds fr) = Some X
           /\ parse_reference_range (String "<" (unsigned_numeral ds fr))
              = (neg_inf, X)
           /\ parse_reference_range
                (String "<" (String "=" (unsigned_numeral ds fr)))
              = (neg_inf, X)
           /\ parse_reference_range (String ">" (unsigned_numeral ds fr))
              = (X, inf)
           /\ parse_reference_range
                (String ">" (String "=" (unsigned_numeral ds fr)))
              = (X, inf))
  /\ (forall s,
         contains "<" s = false -> contains ">" s = false ->
         (forall p0 p1 A B,
             split "-" (strip s) = [p0; p1] ->
             float (strip p0) = Some A -> float (strip p1) = Some B ->
             False) ->
         parse_reference_range s = (zero, zero)).
Proof.
  split; [exact range_of_two_parts|]. split; [|exact parse_default].
  intros ds fr Hnum. destruct (float_numeral ds fr Hnum) as [X HX].
  exists X. split; [exact HX|].
  split; [exact (parse_less_than false ds fr X Hnum HX)|].
  split; [exact (parse_less_than true ds fr X Hnum HX)|].
  split; [exact (parse_greater_than false ds fr X Hnum HX)|].
  exact (parse_greater_than true ds fr X Hnum HX).
Qed.

Lemma C4_reference_range_witness :
  (exists A B,
      float "12.0" = Some A /\ float "16.0" = Some B
      /\ parse_reference_range "12.0-16.0" = (A, B))
  /\ (exists X,
         float "3.5" = Some X
         /\ parse_reference_range "<3.5" = (neg_inf, X)
         /\ parse_reference_range ">=3.5" = (X, inf))
  /\ parse_reference_range "N/A" = (zero, zero).
Proof.
  destruct C4_reference_range as (Hrange & Hbound & Hdefault).
  split; [|split].
  - eexists _, _. split; [vm_compute; reflexivity|].
    split; [vm_compute; reflexivity|].
    apply (Hrange "12.0" "16.0"); reflexivity.
  - destruct (Hbound "3" (Some "5")) as (X & HX & Hlt & _ & _ & Hge).
    { split; [discriminate|]. split; reflexivity. }
    exists X. exact (conj HX (conj Hlt Hge)).
  - apply Hdefault; try reflexivity.
    intros p0 p1 A B H. discriminate H.
Defined.

(** C4 as stated fails: the floats -5 and 10 are in order, yet the minus
    sign cuts the string [-5-10] in three parts and the default pair of
    zeros is returned. *)
Lemma C4_negative_lower_bound :
  exists A B,
    float "-5" = Some A /\ float "10" = Some B /\ fle A B = true
    /\ parse_reference_range "-5-10" = (zero, zero)
    /\ (A, B) <> (zero, zero).
Proof.
  eexists _, _. split; [vm_compute; reflexivity|].
  split; [vm_compute; reflexivity|]. split; [reflexivity|].
  split; [reflexivity | discriminate].
Qed.

(** ** A page without text *)

(** When the recogniser finds no text, no box and no contour, the pipeline
    returns no record. *)
Lemma empty_document_no_records :
  process_lab_report (MkDocument white_page EmptyString [] [] no_region)
  = Some [].
Proof. reflexivity. Qed.

(** * Further properties of the code *)

Import Invariants.

(** ** The flag and the parsed bounds *)

Lemma flt_neg_inf (v : pyfloat) : flt v neg_inf = false.
Proof. destruct v as [s|s| |s m e]; try reflexivity; destruct s; reflexivity. Qed.

Lemma fgt_inf (v : pyfloat) : fgt v inf = false.
Proof. destruct v as [s|s| |s m e]; try reflexivity; destruct s; reflexivity. Qed.

Lemma feq_neg_inf (a : pyfloat) : feq a neg_inf = true -> a = neg_inf.
Proof.
  destruct a as [s|s| |s m e]; try discriminate; destruct s; try discriminate.
  reflexivity.
Qed.

Lemma feq_inf (a : pyfloat) : feq a inf = true -> a = inf.
Proof.
  destruct a as [s|s| |s m e]; try discriminate; destruct s; try discriminate.
  reflexivity.
Qed.

Lemma open_sides_never_flag (v mn mx : pyfloat) :
  (if fne mn neg_inf && flt v mn then true
   else if fne mx inf && fgt v mx then true else false)
  = flt v mn || fgt v mx.
Proof.
  unfold fne.
  destruct (SFeqb mn neg_inf) eqn:E1.
  - apply feq_neg_inf in E1. subst mn. rewrite flt_neg_inf. cbn [negb andb orb].
    destruct (SFeqb mx inf) eqn:E2.
    + apply feq_inf in E2. subst mx. now rewrite fgt_inf.
    + cbn [negb andb]. now destruct (fgt v mx).
  - cbn [negb andb]. destruct (flt v mn); [reflexivity|]. cbn [orb].
    destruct (SFeqb mx inf) eqn:E2.
    + apply feq_inf in E2. subst mx. now rewrite fgt_inf.
    + cbn [negb andb]. now destruct (fgt v mx).
Qed.

Lemma flag_of_parsed (v : pyfloat) (range_str : string) (mn mx : pyfloat) :
  parse_reference_range range_str = (mn, mx) ->
  is_value_out_of_range v range_str = flt v mn || fgt v mx.
Proof.
  intros H. unfold is_value_out_of_range. rewrite H.
  apply open_sides_never_flag.
Qed.

(** X1: the two tests against the infinities change nothing: a value is out
    of range exactly when it is below the parsed lower bound or above the
    parsed upper bound. *)
Theorem out_of_range_is_outside (v : pyfloat) (range_str : string) :
  is_value_out_of_range v range_str
  = flt v (fst (parse_reference_range range_str))
    || fgt v (snd (parse_reference_range range_str)).
Proof.
  destruct (parse_reference_range range_str) as [mn mx] eqn:H.
  cbn [fst snd]. exact (flag_of_parsed v range_str mn mx H).
Qed.

(** X2: a range text without a dash and without a comparison sign, such as the
    [N/A] the parser writes when it finds no range, flags every value
    that is below or above zero. *)
Theorem unparsed_range_flags_nonzero (v : pyfloat) (range_str : string) :
  contains "-" range_str = false ->
  contains "<" range_str = false ->
  contains ">" range_str = false ->
  parse_reference_range range_str = (zero, zero)
  /\ is_value_out_of_range v range_str = flt v zero || fgt v zero.
Proof.
  intros Hd Hlt Hgt.
  assert (H : parse_reference_range range_str = (zero, zero)).
  { apply parse_default; [exact Hlt | exact Hgt |].
    intros p0 p1 A B Hs. rewrite split_single in Hs; [discriminate|].
    now apply contains_rstrip, contains_lstrip. }
  split; [exact H|]. exact (flag_of_parsed v range_str zero zero H).
Qed.

Lemma unparsed_range_flags_nonzero_witness :
  is_value_out_of_range (S754_finite false 1 0) "N/A" = true
  /\ is_value_out_of_range zero "N/A" = false.
Proof.
  split.
  - rewrite (proj2 (unparsed_range_flags_nonzero (S754_finite false 1 0) "N/A"
                      eq_refl eq_refl eq_refl)). reflexivity.
  - rewrite (proj2 (unparsed_range_flags_nonzero zero "N/A"
                      eq_refl eq_refl eq_refl)). reflexivity.
Defined.

(** X3: a one-sided range flags on one side only: after a less-than sign a
    value is flagged iff it exceeds the bound, after a greater-than sign
    iff it is below the bound. *)
Theorem one_sided_range_flag (with_equals : bool) (ds : string)
  (fr : option string) (v : pyfloat) :
  is_numeral ds fr ->
  exists X,
    float (unsigned_numeral ds fr) = Some X
    /\ is_value_out_of_range v
         (String "<" (equals_text with_equals ++ unsigned_numeral ds fr)%string)
       = fgt v X
    /\ is_value_out_of_range v
         (String ">" (equals_text with_equals ++ unsigned_numeral ds fr)%string)
       = flt v X.
Proof.
  intros Hnum. destruct (float_numeral ds fr Hnum) as [X HX]. exists X.
  split; [exact HX|]. rewrite (flag_of_parsed v _ _ _ (parse_less_than with_equals ds fr X Hnum HX)).
  rewrite (flag_of_parsed v _ _ _ (parse_greater_than with_equals ds fr X Hnum HX)).
  now rewrite flt_neg_inf, fgt_inf, orb_false_r.
Qed.

Lemma one_sided_range_flag_witness :
  exists X,
    float "200" = Some X
    /\ is_value_out_of_range (S754_finite false 1 0) "<200" = fgt (S754_finite false 1 0) X
    /\ is_value_out_of_range (S754_finite false 1 0) ">200" = flt (S754_finite false 1 0) X.
Proof.
  apply (one_sided_range_flag false "200" None (S754_finite false 1 0)).
  split; [discriminate|]. split; reflexivity.
Defined.

(** ** What every record is *)

Lemma fold_left_keeps {A B : Type} (P : A -> Prop) (f : A -> B -> A)
  (l : list B) :
  (forall a b, P a -> P (f a b)) -> forall a, P a -> P (fold_left f l a).
Proof.
  intros Hf. induction l as [|b l IH]; intros a Ha; cbn; [exact Ha|].
  apply IH, Hf, Ha.
Qed.

Lemma Forall_snoc {A : Type} (P : A -> Prop) (l : list A) (a : A) :
  Forall P l -> P a -> Forall P (l ++ [a]).
Proof. intros Hl Ha. apply Forall_app. split; [exact Hl | now constructor]. Qed.

Lemma format_formatted (n v g : string) : formatted (format_lab_test n v g).
Proof. now exists n, v, g. Qed.

Lemma try_patterns_formatted (text : string) :
  Forall formatted (try_patterns text []).
Proof.
  unfold try_patterns.
  apply fold_left_keeps; [|constructor]. intros acc pattern Hacc.
  apply fold_left_keeps; [|exact Hacc]. intros acc' mo Hacc'.
  unfold append_match, record_of_match.
  destruct (2 <=? ngroups pattern); [|exact Hacc'].
  apply Forall_snoc; [exact Hacc' | apply format_formatted].
Qed.

Lemma from_value_formatted (r : lab_test) : from_value r -> formatted r.
Proof. intros (n & v & g & -> & _). apply format_formatted. Qed.

Lemma truthy_nonempty (s : string) : truthy s = true -> s <> EmptyString.
Proof. destruct s; [discriminate | discriminate]. Qed.

Lemma cells_record (n v g : string) :
  truthy n && truthy v = true -> from_value (format_lab_test n v g).
Proof.
  intros H. apply andb_true_iff in H. destruct H as [Hn Hv].
  exists n, v, g. split; [reflexivity|]. now apply truthy_nonempty.
Qed.

Lemma data_row_cells (delimiter : ascii) (hc : header_columns) (tn v : nat)
  (acc : list lab_test) (line : string) :
  Forall from_value acc -> Forall from_value (data_row delimiter hc tn v acc line).
Proof.
  intros Hacc. unfold data_row.
  destruct (is_empty (strip line)); [exact Hacc|].
  destruct (_ <=? hc_max hc); [exact Hacc|].
  destruct (truthy _ && truthy _) eqn:E; [|exact Hacc].
  apply Forall_snoc; [exact Hacc | now apply cells_record].
Qed.

Lemma try_delimiters_cells (delimiters : list ascii) (line : string)
  (rest : list string) :
  forall hc acc,
    Forall from_value acc ->
    match try_delimiters delimiters line rest hc acc with
    | inl r => Forall from_value r
    | inr (_, acc') => Forall from_value acc'
    end.
Proof.
  induction delimiters as [|d ds IH]; intros hc acc Hacc; cbn [try_delimiters].
  - exact Hacc.
  - destruct (contains d line); [|now apply IH].
    destruct (hc_test_name _) as [tn|]; [|now apply IH].
    destruct (hc_value _) as [v|]; [|now apply IH].
    assert (Hrows : Forall from_value
                      (fold_left (data_row d
                         (map_columns
                            (map (fun col => lower (strip col)) (split d line))
                            0 hc) tn v) rest acc)).
    { apply fold_left_keeps; [|exact Hacc].
      intros a b Ha. now apply data_row_cells. }
    destruct (nonempty _); [exact Hrows | now apply IH].
Qed.

Lemma header_scan_cells (lines : list string) :
  forall found hc acc,
    Forall from_value acc ->
    match header_scan lines found hc acc with
    | inl r => Forall from_value r
    | inr (_, acc') => Forall from_value acc'
    end.
Proof.
  induction lines as [|line rest IH]; intros found hc acc Hacc;
    cbn [header_scan]; [exact Hacc|].
  destruct (is_header_line line); [|now apply IH].
  pose proof (try_delimiters_cells (potential_delimiters line) line rest
                hc acc Hacc) as H.
  destruct (try_delimiters _ _ _ _ _) as [r|[hc' acc']]; [exact H|].
  now apply IH.
Qed.

Lemma positional_row_cells (acc : list lab_test) (line : string) :
  Forall from_value acc -> Forall from_value (positional_row acc line).
Proof.
  intros Hacc. unfold positional_row.
  destruct (is_empty (strip line)); [exact Hacc|].
  destruct (2 <=? _); [|exact Hacc].
  destruct (any_match _ _); [exact Hacc|].
  destruct (truthy _ && truthy _) eqn:E; [|exact Hacc].
  apply Forall_snoc; [exact Hacc | now apply cells_record].
Qed.

Lemma tabular_cells (text : string) :
  Forall from_value (_parse_tabular_format text).
Proof.
  unfold _parse_tabular_format.
  pose proof (header_scan_cells (split LF text) false no_columns []
                (Forall_nil _)) as H.
  destruct (header_scan _ _ _ _) as [r|[found acc]]; [exact H|].
  destruct found; [exact H|].
  apply fold_left_keeps; [|exact H]. intros a b Ha.
  now apply positional_row_cells.
Qed.

Lemma aggressive_line_cells (acc : list lab_test) (line : string)
  (next : option string) :
  Forall from_value acc -> Forall from_value (aggressive_line acc line next).
Proof.
  intros Hacc. unfold aggressive_line.
  destruct (is_empty (strip line)); [exact Hacc|].
  destruct (first_match _ _) as [mo|]; [|exact Hacc].
  destruct (is_empty (strip (grp 1 mo))) eqn:En; [exact Hacc|].
  destruct (here_or_next value_pattern _ _) as [value_str|]; [|exact Hacc].
  destruct (is_empty value_str) eqn:Ev; [exact Hacc|].
  apply Forall_snoc; [exact Hacc|]. apply cells_record.
  unfold truthy. now rewrite En, Ev.
Qed.

Lemma aggressive_cells (text : string) :
  Forall from_value (_parse_aggressive text).
Proof.
  unfold _parse_aggressive.
  assert (H : forall lines acc,
             Forall from_value acc ->
             Forall from_value (aggressive_lines lines acc)).
  { induction lines as [|line rest IH]; intros acc Hacc; cbn; [exact Hacc|].
    apply IH. now apply aggressive_line_cells. }
  apply H. constructor.
Qed.

Lemma table_row_cells (c1 c2 c3 : Z) (acc : list lab_test)
  (row : list string) :
  Forall from_value acc -> Forall from_value (table_row c1 c2 c3 acc row).
Proof.
  intros Hacc. unfold table_row.
  destruct (_ <=? _)%Z; [exact Hacc|].
  destruct (truthy _ && truthy _) eqn:E; [|exact Hacc].
  apply Forall_snoc; [exact Hacc | now apply cells_record].
Qed.

Lemma table_data_cells (table_data : list (list string)) :
  Forall from_value (parse_table_data table_data).
Proof.
  unfold parse_table_data.
  destruct table_data as [|first others]; [constructor|].
  destruct first as [|cell cells]; [constructor|].
  destruct (header_cells _ _ _) as [[c1 c2] c3].
  destruct (_ && _); (apply fold_left_keeps; [|constructor]);
    intros a b Ha; now apply table_row_cells.
Qed.

Lemma parse_text_formatted (text : string) :
  Forall formatted (parse_text text).
Proof.
  unfold parse_text. destruct (_is_tabular_format text).
  - eapply Forall_impl; [|apply tabular_cells]. apply from_value_formatted.
  - destruct (nonempty _); [apply try_patterns_formatted|].
    eapply Forall_impl; [|apply aggressive_cells]. apply from_value_formatted.
Qed.

Lemma unique_sub (tests : list lab_test) :
  forall seen t, In t (unique tests seen) -> In t tests.
Proof.
  induction tests as [|u tests IH]; intros seen t; cbn [unique]; [easy|].
  destruct (mem (test_name u) seen).
  - intros H. right. exact (IH seen t H).
  - intros [<-|H]; [now left|]. right. exact (IH _ t H).
Qed.

Lemma process_regions_fold (doc : document) (regions : list rect) :
  forall acc all,
    process_regions doc regions acc = Some all ->
    all = fold_left (region_tests doc) regions acc.
Proof.
  induction regions as [|[[[x y] w] h] regions IH]; intros acc all;
    cbn [process_regions fold_left].
  - intros H. now injection H.
  - destruct (preprocess_image _); [|discriminate]. apply IH.
Qed.

Lemma report_formatted (doc : document) (tests : list lab_test) :
  process_lab_report doc = Some tests -> Forall formatted tests.
Proof.
  unfold process_lab_report.
  destruct (preprocess_image _); [|discriminate].
  destruct (nonempty (parse_text (full_text doc))).
  - intros H. injection H as <-. apply parse_text_formatted.
  - destruct (detect_table_regions (contours doc)) as [regions|];
      [|discriminate].
    destruct (process_regions doc regions []) as [all|] eqn:Ep;
      [|discriminate].
    apply process_regions_fold in Ep. subst all.
    intros H. injection H as <-.
    apply Forall_forall. intros t Ht. apply unique_sub in Ht. revert t Ht.
    apply Forall_forall.
    destruct (nonempty _) eqn:E; [|apply parse_text_formatted].
    apply fold_left_keeps; [|constructor]. intros acc r Hacc.
    unfold region_tests.
    destruct (extract_table_data _) as [table_data|]; apply Forall_app;
      (split; [exact Hacc|]).
    + eapply Forall_impl; [|apply table_data_cells]. apply from_value_formatted.
    + apply parse_text_formatted.
Qed.

Lemma strip_strip (s : string) : strip (strip s) = strip s.
Proof.
  unfold strip at 2. now rewrite strip_rstrip, strip_lstrip.
Qed.

(** X5: every record that [process_lab_report] returns was built by
    [format_lab_test]: its name has no white space at either end; its value
    is a float exactly when the raw value parses, and otherwise the raw
    text, and then the record is not flagged. *)
Theorem report_records (doc : document) (tests : list lab_test) :
  process_lab_report doc = Some tests ->
  Forall
    (fun r =>
       strip (test_name r) = test_name r
       /\ (forall s, test_value r = VStr s ->
                     float s = None /\ lab_test_out_of_range r = false)
       /\ (lab_test_out_of_range r = true ->
           exists v, test_value r = VFloat v
                     /\ is_value_out_of_range v (bio_reference_range r) = true))
    tests.
Proof.
  intros H. eapply Forall_impl; [|exact (report_formatted doc tests H)].
  intros r (n & v & g & ->). unfold format_lab_test.
  cbn [test_name test_value lab_test_out_of_range bio_reference_range].
  split; [unfold clean_test_name; apply strip_strip|].
  destruct (float v) as [x|] eqn:E.
  - split; [discriminate|]. intros Hf. now exists x.
  - split; [|discriminate]. intros s Hs. injection Hs as <-. now split.
Qed.

Import MoreScenarios.

Lemma report_records_witness :
  exists r,
    process_lab_report boxes_document = Some [r]
    /\ strip (test_name r) = test_name r.
Proof.
  eexists. split; [vm_compute; reflexivity|].
  pose proof (report_records boxes_document _ eq_refl) as H.
  apply Forall_inv in H. exact (proj1 H).
Defined.

(** ** Removing duplicates *)

Lemma unique_lookup (tests : list lab_test) (name : string) :
  forall seen,
    ~ In name seen ->
    lookup_name name (unique tests seen) = lookup_name name tests.
Proof.
  unfold lookup_name.
  induction tests as [|t tests IH]; intros seen Hseen; cbn [unique find];
    [reflexivity|].
  destruct (mem (test_name t) seen) eqn:E.
  - apply mem_In in E.
    destruct (String.eqb_spec (test_name t) name) as [Heq|Hne];
      [congruence | now apply IH].
  - cbn [find].
    destruct (String.eqb_spec (test_name t) name) as [Heq|Hne];
      [reflexivity|].
    apply IH. intros [H|H]; [congruence | contradiction].
Qed.

(** X6: the loop that removes duplicates keeps, for every name, the first record
    that bears it: looking a name up in the result gives what looking it up
    in the input gives, and the names of the result are distinct. *)
Theorem unique_keeps_first (tests : list lab_test) :
  NoDup (map test_name (unique tests []))
  /\ (forall name,
         lookup_name name (unique tests []) = lookup_name name tests)
  /\ (forall t, In t (unique tests []) -> In t tests).
Proof.
  split; [apply unique_names|]. split.
  - intros name. apply unique_lookup. easy.
  - intros t. apply unique_sub.
Qed.

Lemma fallback_path_unique_witness :
  exists tests,
    parse_text (full_text boxes_document) = []
    /\ process_lab_report boxes_document = Some tests
    /\ NoDup (map test_name tests).
Proof.
  eexists. split; [reflexivity|]. split; [vm_compute; reflexivity|].
  apply (fallback_path_unique boxes_document); [reflexivity|].
  vm_compute. reflexivity.
Defined.

(** ** When the pipeline raises *)

Lemma region_step_none (contours : list contour) :
  fold_left region_step contours None = None.
Proof. induction contours as [|c l IH]; cbn; [reflexivity | exact IH]. Qed.

Lemma detect_none_iff (contours : list contour) :
  forall regions,
    fold_left region_step contours (Some regions) = None
    <-> Exists (fun c => (1000 < area c)%Q /\ rect_h c = 0%Z) contours.
Proof.
  induction contours as [|c l IH]; intros regions; cbn [fold_left].
  - split; [discriminate | intros H; inversion H].
  - unfold region_step at 2, true_div.
    destruct (Qlt_bool 1000 (area c)) eqn:Ea.
    + destruct (rect_h c =? 0)%Z eqn:Eh.
      * rewrite region_step_none. split; [intros _|reflexivity].
        left. split; [now apply Qlt_bool_iff | now apply Z.eqb_eq].
      * assert (Hc : ~ ((1000 < area c)%Q /\ rect_h c = 0%Z)).
        { intros [_ H]. apply Z.eqb_neq in Eh. contradiction. }
        destruct (_ && _); rewrite IH; (split; [now right|]);
          intros H; inversion H; subst; [contradiction|assumption
                                         |contradiction|assumption].
    + assert (Hc : ~ ((1000 < area c)%Q /\ rect_h c = 0%Z)).
      { intros [H _]. apply Qlt_bool_iff in H. congruence. }
      rewrite IH. split; [now right|].
      intros H; inversion H; subst; [contradiction|assumption].
Qed.

Lemma preprocess_none (img : image) :
  preprocess_image (Some img) = None <-> image_size img = 0.
Proof.
  unfold preprocess_image. destruct (Nat.eqb_spec (image_size img) 0);
    [now split | split; [discriminate | contradiction]].
Qed.

Lemma process_regions_none (doc : document) (regions : list rect) :
  forall acc,
    process_regions doc regions acc = None
    <-> Exists (empty_crop doc) regions.
Proof.
  induction regions as [|[[[x y] w] h] regions IH]; intros acc;
    cbn [process_regions]; cbv zeta.
  - split; [discriminate | intros H; inversion H].
  - destruct (preprocess_image _) eqn:E.
    + assert (Hne : ~ empty_crop doc (x, y, w, h)).
      { unfold empty_crop. intros H. apply preprocess_none in H.
        discriminate (eq_trans (eq_sym E) H). }
      rewrite IH. split; [now right|].
      intros H. inversion H; subst; [contradiction | assumption].
    + split; [intros _|reflexivity]. left. unfold empty_crop.
      now apply preprocess_none.
Qed.

(** X8: [process_lab_report] raises in three cases and no other: the page
    holds no pixel; or the text of the whole page yields no record and
    either some contour of area above 1000 has a bounding box of height
    zero, on which the aspect ratio divides by zero, or the crop of some
    table region holds no pixel. *)
Theorem report_raises_iff (doc : document) :
  process_lab_report doc = None
  <-> image_size (page doc) = 0
      \/ (parse_text (full_text doc) = []
          /\ (Exists (fun c => (1000 < area c)%Q /\ rect_h c = 0%Z)
                     (contours doc)
              \/ exists regions,
                  detect_table_regions (contours doc) = Some regions
                  /\ Exists (empty_crop doc) regions)).
Proof.
  unfold process_lab_report.
  destruct (preprocess_image (Some (page doc))) eqn:Ep.
  - assert (Hp : image_size (page doc) <> 0).
    { intros H. apply preprocess_none in H. congruence. }
    destruct (parse_text (full_text doc)) as [|t l]; cbn [nonempty].
    + destruct (detect_table_regions (contours doc)) as [regions|] eqn:Ed.
      * assert (Hd : ~ Exists (fun c => (1000 < area c)%Q /\ rect_h c = 0%Z)
                              (contours doc)).
        { intros H. apply (detect_none_iff (contours doc) []) in H.
          unfold detect_table_regions in Ed. congruence. }
        destruct (process_regions doc regions []) as [all|] eqn:Er.
        -- split; [discriminate|].
           intros [H|[_ [H|(regions' & Heq & H)]]]; try contradiction.
           injection Heq as <-.
           apply (process_regions_none doc regions []) in H. congruence.
        -- split; [intros _|reflexivity]. right. split; [reflexivity|].
           right. exists regions. split; [reflexivity|].
           now apply (process_regions_none doc regions []).
      * split; [intros _|reflexivity]. right. split; [reflexivity|]. left.
        now apply (detect_none_iff (contours doc) []).
    + split; [discriminate|].
      intros [H|[H _]]; [contradiction | discriminate H].
  - split; [intros _|reflexivity]. left. now apply preprocess_none.
Qed.

Lemma report_raises_iff_witness :
  process_lab_report flat_document = None
  /\ process_lab_report (MkDocument [] "Glucose: 100" [] [] no_region) = None.
Proof.
  split.
  - apply (report_raises_iff flat_document). right. split; [reflexivity|].
    left. left. split; reflexivity.
  - apply report_raises_iff. left. reflexivity.
Defined.

(** ** Lines and their boxes *)

(** X9: the bounding box of a merged line holds every box of the line. *)
Theorem merge_line_holds (line : list word_box) (b : word_box) :
  In b line -> holds (merge_line line) b.
Proof.
  intros Hin. unfold holds, merge_line.
  cbn [tl_x tl_y tl_width tl_height].
  pose proof (list_min_le (map wb_x line) (wb_x b) (in_map wb_x line b Hin)).
  pose proof (list_min_le (map wb_y line) (wb_y b) (in_map wb_y line b Hin)).
  pose proof (list_max_ge _ _
                (in_map (fun box => wb_x box + wb_width box)%Z line b Hin)).
  pose proof (list_max_ge _ _
                (in_map (fun box => wb_y box + wb_height box)%Z line b Hin)).
  cbv beta in *. lia.
Qed.

Lemma merge_line_holds_witness :
  holds (merge_line sample_boxes) (MkBox "250" 200 2 30 10).
Proof. apply merge_line_holds. right. left. reflexivity. Defined.

Lemma joins_spec (seed box : word_box) :
  GroupLoop.same_line seed box = true
  <-> (2 * Z.abs (wb_y box - wb_y seed) <= wb_height seed)%Z.
Proof.
  unfold GroupLoop.same_line, tolerance. rewrite Qle_bool_iff.
  unfold Qle, Qabs, inject_Z, Qmult. cbn [Qnum Qden]. lia.
Qed.


Lemma ascending_suffix {A : Type} (key : A -> Z) (l1 l2 : list A) :
  LineGroupingSpec.ascending key (l1 ++ l2) ->
  LineGroupingSpec.ascending key l2.
Proof.
  unfold LineGroupingSpec.ascending.
  induction l1 as [|a l1 IH]; cbn; [easy|].
  intros H. apply StronglySorted_inv in H. now apply IH.
Qed.

Lemma ascending_head {A : Type} (key : A -> Z) (a b : A) (l1 l2 : list A) :
  LineGroupingSpec.ascending key (a :: l1 ++ b :: l2) -> (key a <= key b)%Z.
Proof.
  intros H. apply StronglySorted_inv in H. destruct H as [_ H].
  rewrite Forall_forall in H. apply H. apply in_or_app. right. now left.
Qed.

Lemma closed_line_near (seed : word_box) (members : list word_box) :
  Forall (near_seed seed) members ->
  exists s,
    In s (sorted wb_x (seed :: members))
    /\ Forall (near_seed s) (sorted wb_x (seed :: members)).
Proof.
  intros Hm. exists seed.
  pose proof (sorted_perm wb_x (seed :: members)) as HP. split.
  - apply (Permutation_in seed HP). now left.
  - apply (Permutation_Forall HP). constructor; [now left | exact Hm].
Qed.

Lemma lines_from_near (rest : list word_box) :
  forall seed members,
    LineGroupingSpec.ascending wb_y (seed :: members ++ rest) ->
    Forall (near_seed seed) members ->
    Forall (fun line => exists s, In s line /\ Forall (near_seed s) line)
           (GroupLoop.loop_lines seed members rest).
Proof.
  induction rest as [|box rest IH]; intros seed members Hasc Hm;
    cbn [GroupLoop.loop_lines].
  - constructor; [now apply closed_line_near | constructor].
  - destruct (GroupLoop.same_line seed box) eqn:E.
    + apply IH.
      * now rewrite <- app_assoc.
      * apply Forall_snoc; [exact Hm|]. right.
        pose proof (ascending_head wb_y seed box members rest Hasc).
        apply joins_spec in E. lia.
    + constructor; [now apply closed_line_near|].
      apply IH; [|constructor].
      apply (ascending_suffix wb_y (seed :: members) (box :: rest)).
      exact Hasc.
Qed.

(** X10: every line of [_group_by_lines] holds its seed, and every other box of
    the line has its top at or below the top of the seed, at most half the
    height of the seed away. *)
Theorem lines_stay_near_seed (boxes : list word_box) :
  Forall (fun line => exists s, In s line /\ Forall (near_seed s) line)
         (_group_by_lines boxes).
Proof.
  rewrite group_by_lines_refines. unfold GroupLoop.group_by_lines_rec.
  pose proof (sorted_ascending wb_y boxes) as Hasc.
  destruct (sorted wb_y boxes) as [|seed rest]; [constructor|].
  apply lines_from_near; [exact Hasc | constructor].
Qed.

(** ** The shape of the columns *)

Lemma boundaries_adjacent (column_starts : list Q) (last_end : Q) :
  forall i s1 e1 s2 e2,
    nth_error (boundaries column_starts last_end) i = Some (s1, e1) ->
    nth_error (boundaries column_starts last_end) (S i) = Some (s2, e2) ->
    e1 = (s2 - 1)%Q.
Proof.
  induction column_starts as [|start rest IH]; intros i s1 e1 s2 e2;
    cbn [boundaries]; [now destruct i|].
  destruct i as [|i]; cbn [nth_error].
  - intros H1 H2. injection H1 as _ <-.
    destruct rest as [|next rest]; cbn in H2; [discriminate|].
    now injection H2 as <- _.
  - apply IH.
Qed.

Lemma boundaries_last (column_starts : list Q) (last_end : Q) (d : Q * Q) :
  column_starts <> [] ->
  snd (List.last (boundaries column_starts last_end) d) = last_end.
Proof.
  induction column_starts as [|start rest IH]; [congruence|]. intros _.
  destruct rest as [|next rest]; [reflexivity|].
  change (boundaries (start :: next :: rest) last_end)
    with ((start, (next - 1)%Q) :: boundaries (next :: rest) last_end).
  change (List.last (?a :: boundaries (next :: rest) last_end) d)
    with (List.last (boundaries (next :: rest) last_end) d).
  now apply IH.
Qed.

Lemma add_leftmost_head (column_starts : list Q) (leftmost : Z) :
  exists c rest,
    add_leftmost column_starts leftmost = c :: rest
    /\ (c <= inject_Z leftmost + 20)%Q.
Proof.
  assert (Hm : (inject_Z leftmost <= inject_Z leftmost + 20)%Q).
  { unfold Qle, Qplus, inject_Z. cbn. lia. }
  destruct column_starts as [|c rest]; cbn [add_leftmost].
  - now eexists _, _.
  - destruct (Qlt_bool (inject_Z leftmost + 20) c) eqn:E;
      [now eexists _, _|].
    exists c, rest. split; [reflexivity|].
    unfold Qlt_bool in E. apply negb_false_iff in E.
    now apply Qle_bool_iff.
Qed.

(** X11: for at least one line, column detection returns at least one column;
    each column ends one unit before the next one starts, the last column
    ends at the largest right edge of the lines, and the first column
    starts at most 20 to the right of the smallest left edge. *)
Theorem detected_columns_shape (lines : list text_line)
  (columns : list (Q * Q)) (d : Q * Q) :
  lines <> [] ->
  _detect_columns lines = Some columns ->
  columns <> []
  /\ (forall i s1 e1 s2 e2,
         nth_error columns i = Some (s1, e1) ->
         nth_error columns (S i) = Some (s2, e2) ->
         e1 = (s2 - 1)%Q)
  /\ snd (List.last columns d)
     = inject_Z (list_max (map (fun line => tl_x line + tl_width line)%Z lines))
  /\ (fst (hd d columns) <= inject_Z (list_min (map tl_x lines)) + 20)%Q.
Proof.
  intros Hne. unfold _detect_columns.
  destruct lines as [|l lines]; [congruence|]. cbv zeta.
  destruct (histogram _ _ _ _) as [[hist bin_edges]|]; [|discriminate].
  destruct (add_leftmost_head
              (map (fun i => nth i bin_edges 0%Q) (peak_indices hist))
              (list_min (map tl_x (l :: lines))))
    as (c & rest & Hadd & Hc).
  rewrite Hadd. intros H.
  apply (f_equal (fun o => match o with Some x => x | None => columns end))
    in H.
  cbv beta iota in H. subst columns. split; [discriminate|]. split; [apply boundaries_adjacent|].
  split; [apply boundaries_last; discriminate | exact Hc].
Qed.

Lemma detected_columns_shape_witness :
  exists columns,
    _detect_columns (extract_structured_data sample_boxes) = Some columns
    /\ columns <> [].
Proof.
  eexists. split; [vm_compute; reflexivity|].
  apply (detected_columns_shape (extract_structured_data sample_boxes) _
           (0%Q, 0%Q)); [discriminate | vm_compute; reflexivity].
Defined.

(** ** Where the cells come from *)

Lemma set_cell_In (row : list string) :
  forall i v c, In c (set_cell row i v) -> c = v \/ In c row.
Proof.
  induction row as [|a row IH]; intros [|i] v c; cbn; try tauto.
  - intros [H|H]; [now left | now right; right].
  - intros [H|H]; [now right; left|].
    destruct (IH i v c H); [now left | now right; right].
Qed.

Lemma table_loop_cells (columns : list (Q * Q)) (P : string -> Prop)
  (lines : list text_line) :
  P EmptyString ->
  Forall (fun line => P (strip (tl_text line))) lines ->
  forall table_data current_row,
    Forall (Forall P) table_data -> Forall P current_row ->
    Forall (Forall P)
           (fst (fold_left (table_step columns) lines (table_data, current_row)))
    /\ Forall P
         (snd (fold_left (table_step columns) lines (table_data, current_row))).
Proof.
  intros Hempty. induction 1 as [|line lines Hline _ IH];
    intros table_data current_row Ht Hr; [now split|].
  cbn [fold_left]. unfold table_step at 2 4.
  assert (He : Forall P (empty_row columns)).
  { unfold empty_row. apply Forall_forall. intros c Hc.
    apply repeat_spec in Hc. now subst. }
  destruct (find_column columns 0 (tl_x line)) as [i|].
  - apply IH; [exact Ht|]. apply Forall_forall. intros c Hc.
    apply set_cell_In in Hc. destruct Hc as [->|Hc]; [exact Hline|].
    rewrite Forall_forall in Hr. now apply Hr.
  - destruct (any_cell current_row); apply IH; try assumption.
    now apply Forall_snoc.
Qed.

(** X12: every cell of the grid is empty or is the stripped text of one of the
    merged lines: the grid holds no other text. *)
Theorem table_cells_come_from_lines (boxes : list word_box)
  (table : list (list string)) :
  extract_table_data boxes = Some table ->
  Forall
    (Forall (fun cell =>
               cell = EmptyString
               \/ exists line,
                   In line (extract_structured_data boxes)
                   /\ cell = strip (tl_text line)))
    table.
Proof.
  unfold extract_table_data.
  destruct (_detect_columns _) as [columns|]; [|discriminate].
  intros H. injection H as <-. unfold table_of_lines.
  set (lines := extract_structured_data boxes).
  set (P := fun cell : string =>
              cell = EmptyString
              \/ exists line, In line lines /\ cell = strip (tl_text line)).
  assert (He : Forall P (empty_row columns)).
  { unfold empty_row. apply Forall_forall. intros c Hc.
    apply repeat_spec in Hc. now left. }
  destruct (table_loop_cells columns P lines (or_introl eq_refl)) with
    (table_data := @nil (list string)) (current_row := empty_row columns)
    as [Ht Hr]; [|constructor|exact He|].
  { apply Forall_forall. intros line Hin. right. now exists line. }
  destruct (fold_left _ _ _) as [table_data current_row].
  cbn [fst snd] in Ht, Hr.
  destruct (any_cell current_row); [now apply Forall_snoc | exact Ht].
Qed.

Lemma table_cells_come_from_lines_witness :
  exists table,
    extract_table_data sample_boxes = Some table
    /\ Forall
         (Forall (fun cell =>
                    cell = EmptyString
                    \/ exists line,
                        In line (extract_structured_data sample_boxes)
                        /\ cell = strip (tl_text line)))
         table.
Proof.
  eexists. split; [vm_compute; reflexivity|].
  apply table_cells_come_from_lines. vm_compute. reflexivity.
Defined.

(** ** The delimiter test *)

Lemma fold_count_acc (c : ascii) (lines : list string) :
  forall n,
    fold_left (fun n line => n + count c line) lines n
    = n + fold_left (fun n line => n + count c line) lines 0.
Proof.
  induction lines as [|l lines IH]; intros n; cbn [fold_left]; [lia|].
  rewrite (IH (n + count c l)), (IH (0 + count c l)). lia.
Qed.

Lemma split_counts (c : ascii) (text : string) :
  Ascii.eqb LF c = false ->
  total_count c (split LF text) = count c text
  /\ List.length (split LF text) = S (count LF text).
Proof.
  intros Hc. unfold total_count.
  induction text as [|a text [IH1 IH2]]; [now split|].
  cbn [split count].
  destruct (split_cons LF text) as (h & t & E). rewrite E in IH1, IH2 |- *.
  cbn [fold_left] in IH1. rewrite fold_count_acc in IH1.
  destruct (Ascii.eqb a LF) eqn:Ea.
  - apply Ascii.eqb_eq in Ea. subst a. rewrite Hc.
    cbn [fold_left List.length count]. rewrite fold_count_acc.
    cbn [List.length] in IH2. split; lia.
  - cbn [fold_left List.length count]. rewrite fold_count_acc.
    cbn [List.length] in IH2. split; lia.
Qed.

Lemma exceeds_spec (lines count : nat) :
  Qlt_bool (inject_Z (Z.of_nat lines) * (3 # 2))%Q (inject_Z (Z.of_nat count))
  = true
  <-> 3 * lines < 2 * count.
Proof.
  rewrite Qlt_bool_iff. unfold Qlt, Qmult, inject_Z. cbn [Qnum Qden]. lia.
Qed.

(** X13: a text is judged tabular iff one of its lines names a test header and a
    value header, or one of the three delimiters occurs in the whole text
    more than one and a half times per line, the lines being one more than
    the line feeds. *)
Theorem tabular_by_counts (text : string) :
  _is_tabular_format text = true
  <-> (exists line, In line (split LF text) /\ is_header_line line = true)
      \/ (exists c,
             In c ["|"%char; TAB; ","%char]
             /\ 3 * (count LF text + 1) < 2 * count c text).
Proof.
  unfold _is_tabular_format.
  destruct (split_counts "|" text eq_refl) as [Hp Hlen].
  destruct (split_counts TAB text eq_refl) as [Ht _].
  destruct (split_counts "," text eq_refl) as [Hc _].
  rewrite Hp, Ht, Hc, Hlen.
  destruct (existsb is_header_line (split LF text)) eqn:E.
  - split; [intros _|reflexivity]. left. now apply existsb_exists.
  - assert (Hno : ~ exists line,
               In line (split LF text) /\ is_header_line line = true).
    { rewrite <- existsb_exists. congruence. }
    cbn [existsb]. rewrite !orb_true_iff, !exceeds_spec. split.
    + intros [H|[H|[H|H]]]; [| | |discriminate]; right;
        [exists "|"%char | exists TAB | exists ","%char];
        (split; [cbn; tauto | lia]).
    + intros [H|(c & Hin & H)]; [contradiction|].
      cbn in Hin. destruct Hin as [<-|[<-|[<-|[]]]];
        [left | right; left | right; right; left]; lia.
Qed.

(** ** Cropping a region *)

Import Roi.

Lemma py_slice_inside {A : Type} (l : list A) (a n : Z) :
  (0 <= a)%Z -> (0 <= n)%Z -> (a + n <= Z.of_nat (List.length l))%Z ->
  py_slice l a (a + n) = firstn (Z.to_nat n) (skipn (Z.to_nat a) l).
Proof.
  intros Ha Hn Hlen. unfold py_slice, slice_index.
  destruct (a <? 0)%Z eqn:E1; [apply Z.ltb_lt in E1; lia|].
  destruct (a + n <? 0)%Z eqn:E2; [apply Z.ltb_lt in E2; lia|].
  rewrite (Z.min_l (a + n)), (Z.min_l a) by lia.
  f_equal. f_equal. lia.
Qed.

Lemma py_slice_length {A : Type} (l : list A) (a n : Z) :
  (0 <= a)%Z -> (0 <= n)%Z ->
  List.length (py_slice l a (a + n)) <= Z.to_nat n.
Proof.
  intros Ha Hn. unfold py_slice, slice_index. rewrite length_firstn.
  destruct (a <? 0)%Z eqn:E1; [apply Z.ltb_lt in E1; lia|].
  destruct (a + n <? 0)%Z eqn:E2; [apply Z.ltb_lt in E2; lia|].
  lia.
Qed.

Lemma Forall_part_first {A : Type} (P : A -> Prop) (n : nat) (l : list A) :
  Forall P l -> Forall P (firstn n l).
Proof.
  intros H. rewrite <- (firstn_skipn n l) in H.
  now apply Forall_app in H.
Qed.

Lemma Forall_part_rest {A : Type} (P : A -> Prop) (n : nat) (l : list A) :
  Forall P l -> Forall P (skipn n l).
Proof.
  intros H. rewrite <- (firstn_skipn n l) in H.
  now apply Forall_app in H.
Qed.

(** X14: a crop is never larger than the region asked for; when the region lies
    inside an image of [W] columns, the crop has exactly [h] rows of [w]
    pixels, and its pixel [(i, j)] is the pixel [(y + i, x + j)] of the
    image. *)
Theorem crop_to_roi_region {A : Type} (d : A) (image : list (list A))
  (W : nat) (x y w h : Z) :
  (0 <= x)%Z -> (0 <= y)%Z -> (0 <= w)%Z -> (0 <= h)%Z ->
  (List.length (crop_to_roi image x y w h) <= Z.to_nat h
   /\ Forall (fun row => List.length row <= Z.to_nat w)
             (crop_to_roi image x y w h))
  /\ (Forall (fun row => List.length row = W) image ->
      (x + w <= Z.of_nat W)%Z ->
      (y + h <= Z.of_nat (List.length image))%Z ->
      List.length (crop_to_roi image x y w h) = Z.to_nat h
      /\ Forall (fun row => List.length row = Z.to_nat w)
                (crop_to_roi image x y w h)
      /\ forall i j,
          i < Z.to_nat h -> j < Z.to_nat w ->
          pixel d (crop_to_roi image x y w h) i j
          = pixel d image (Z.to_nat y + i) (Z.to_nat x + j)).
Proof.
  intros Hx Hy Hw Hh. unfold crop_to_roi. split.
  - split.
    + rewrite length_map. now apply py_slice_length.
    + apply Forall_map, Forall_forall. intros row _.
      now apply py_slice_length.
  - intros Hrect HW HH.
    rewrite (py_slice_inside image y h Hy Hh HH).
    assert (Hrows : Forall (fun row => List.length row = W)
                           (firstn (Z.to_nat h) (skipn (Z.to_nat y) image))).
    { apply Forall_part_first, Forall_part_rest, Hrect. }
    assert (Hlen : List.length (firstn (Z.to_nat h) (skipn (Z.to_nat y) image))
                   = Z.to_nat h).
    { rewrite length_firstn, length_skipn. lia. }
    split; [now rewrite length_map|]. split.
    + apply Forall_map. eapply Forall_impl; [|exact Hrows].
      cbv beta. intros row Hrow.
      rewrite py_slice_inside by lia.
      rewrite length_firstn, length_skipn. lia.
    + intros i j Hi Hj. unfold pixel.
      set (rows := firstn (Z.to_nat h) (skipn (Z.to_nat y) image)) in *.
      rewrite (nth_indep _ [] (py_slice [] x (x + w)))
        by (rewrite length_map; lia).
      rewrite (map_nth (fun row => py_slice row x (x + w)) rows [] i).
      assert (Hrow : List.length (nth i rows []) = W).
      { rewrite Forall_forall in Hrows. apply Hrows, nth_In. lia. }
      rewrite py_slice_inside by lia.
      rewrite nth_firstn, nth_skipn.
      destruct (j <? Z.to_nat w) eqn:E; [|apply Nat.ltb_ge in E; lia].
      unfold rows. rewrite nth_firstn, nth_skipn.
      destruct (i <? Z.to_nat h) eqn:E2; [|apply Nat.ltb_ge in E2; lia].
      reflexivity.
Qed.

Lemma crop_to_roi_region_witness :
  crop_to_roi [[1; 2; 3; 4]; [5; 6; 7; 8]; [9; 10; 11; 12]] 1 1 2 2
  = [[6; 7]; [10; 11]]
  /\ pixel 0 (crop_to_roi [[1; 2; 3; 4]; [5; 6; 7; 8]; [9; 10; 11; 12]] 1 1 2 2)
       1 0
     = pixel 0 [[1; 2; 3; 4]; [5; 6; 7; 8]; [9; 10; 11; 12]] 2 1.
Proof.
  split; [reflexivity|].
  destruct (crop_to_roi_region 0 [[1; 2; 3; 4]; [5; 6; 7; 8]; [9; 10; 11; 12]]
              4 1 1 2 2) as [_ H]; try lia.
  destruct H as (_ & _ & Hpix).
  - repeat constructor.
  - cbn. lia.
  - cbn. lia.
  - apply (Hpix 1 0); cbn; lia.
Defined.

(** ** The answer of the handler *)

Import Api.



(** ** What the patterns capture *)

(** A repetition that succeeds has read a run of its class. *)
Lemma rep_sound (p : ascii -> bool) (s : string) :
  forall lo c k r,
    rep p lo s c k = Some r ->
    exists ds rest,
      s = (ds ++ rest)%string /\ all_chars p ds = true
      /\ lo <= String.length ds /\ k rest c = Some r.
Proof.
  induction s as [|a s IH]; intros lo c k r; cbn [rep].
  - destruct lo; cbn [at_least_zero]; [|discriminate].
    intros H. exists EmptyString, EmptyString. now repeat split.
  - assert (Hstop : (if at_least_zero lo then k (String a s) c else None)
                    = Some r ->
                    exists ds rest,
                      String a s = (ds ++ rest)%string
                      /\ all_chars p ds = true
                      /\ lo <= String.length ds /\ k rest c = Some r).
    { destruct lo; cbn [at_least_zero]; [|discriminate].
      intros H. exists EmptyString, (String a s). now repeat split. }
    destruct (p a) eqn:Ea; [|exact Hstop].
    destruct (rep p (pred lo) s c k) as [r'|] eqn:E; [|exact Hstop].
    intros H. injection H as <-.
    destruct (IH _ _ _ _ E) as (ds & rest & -> & Hds & Hlo & Hk).
    exists (String a ds), rest. cbn [append all_chars String.length].
    rewrite Ea, Hds. repeat split; [lia | exact Hk].
Qed.

Lemma take_app (x y : string) : take (String.length x) (x ++ y)%string = x.
Proof. induction x as [|a x IH]; cbn; [now destruct y | now rewrite IH]. Qed.

Lemma length_app (x y : string) :
  String.length (x ++ y)%string = String.length x + String.length y.
Proof. induction x as [|a x IH]; cbn; [reflexivity | now rewrite IH]. Qed.

Lemma consumed_app (x y : string) : consumed (x ++ y)%string y = x.
Proof.
  unfold consumed. rewrite length_app.
  replace (String.length x + String.length y - String.length y)
    with (String.length x) by lia.
  apply take_app.
Qed.

Lemma app_assoc_string (x y z : string) :
  ((x ++ y) ++ z)%string = (x ++ y ++ z)%string.
Proof. induction x as [|a x IH]; cbn; [reflexivity | now rewrite IH]. Qed.

(** The number pattern captures an unsigned numeral. *)
Lemma number_capture (s : string) (c : caps) (r : string * caps) :
  run value_pattern s c final = Some r ->
  exists ds fr,
    is_numeral ds fr /\ snd r = (1, unsigned_numeral ds fr) :: c.
Proof.
  unfold value_pattern, unsigned_number. cbn [seq run]. intros H.
  apply rep_sound in H. destruct H as (ds & rest & -> & Hds & Hlo & H).
  assert (Hne : ds <> EmptyString) by (destruct ds; [cbn in Hlo; lia | easy]).
  assert (Hplain :
            rep is_digit 0 rest c
              (fun s' c' => final s' ((1, consumed (ds ++ rest)%string s') :: c'))
            = Some r ->
            exists ds' fr,
              is_numeral ds' fr /\ snd r = (1, unsigned_numeral ds' fr) :: c).
  { intros H0. apply rep_sound in H0.
    destruct H0 as (ds2 & rest2 & -> & Hds2 & _ & H0).
    unfold final in H0. injection H0 as <-.
    rewrite <- app_assoc_string, consumed_app.
    exists (ds ++ ds2)%string, None. cbn [unsigned_numeral snd].
    split; [|reflexivity]. split; [|split; [|exact I]].
    - destruct ds; [congruence | discriminate].
    - now rewrite all_chars_app, Hds, Hds2. }
  destruct rest as [|a rest]; [exact (Hplain H)|].
  cbn [chr run] in H. destruct (Ascii.eqb "." a) eqn:Ea; [|exact (Hplain H)].
  match type of H with
  | match ?x with Some _ => _ | None => _ end = _ =>
      destruct x as [r'|] eqn:E; [|exact (Hplain H)]
  end.
  injection H as <-. apply Ascii.eqb_eq in Ea. subst a.
  apply rep_sound in E. destruct E as (ds2 & rest2 & -> & Hds2 & _ & E).
  unfold final in E. injection E as <-.
  change (ds ++ String "." (ds2 ++ rest2))%string
    with (ds ++ (String "." ds2) ++ rest2)%string.
  rewrite <- app_assoc_string, consumed_app.
  exists ds, (Some ds2). cbn [unsigned_numeral snd].
  split; [|reflexivity]. now repeat split.
Qed.

Lemma search_from_sound (r : regex) (s : string) :
  forall pos mo,
    search_from r s pos = Some mo ->
    exists s0 pos0, match_at r s0 pos0 = Some mo.
Proof.
  induction s as [|a s IH]; intros pos mo; cbn [search_from].
  - destruct (match_at r EmptyString pos) as [mo'|] eqn:E; intros H;
      [|discriminate H].
    injection H as <-. exists EmptyString, pos. exact E.
  - destruct (match_at r (String a s) pos) as [mo'|] eqn:E; intros H.
    + injection H as <-. exists (String a s), pos. exact E.
    + now apply (IH (S pos)).
Qed.

Lemma search_number (s : string) (mo : match_obj) :
  search value_pattern s = Some mo ->
  exists ds fr, is_numeral ds fr /\ grp 1 mo = unsigned_numeral ds fr.
Proof.
  intros H. apply search_from_sound in H. destruct H as (s0 & pos0 & H).
  unfold match_at in H.
  destruct (run value_pattern s0 [] final) as [[s' c]|] eqn:E; [|discriminate].
  injection H as <-.
  destruct (number_capture s0 [] _ E) as (ds & fr & Hnum & Hc).
  exists ds, fr. split; [exact Hnum|]. cbn [snd] in Hc. subst c.
  unfold grp. cbn. reflexivity.
Qed.

Lemma strip_numeral (ds : string) (fr : option string) :
  is_numeral ds fr -> strip (unsigned_numeral ds fr) = unsigned_numeral ds fr.
Proof.
  intros Hnum. apply strip_nospace, numeral_chars; [|reflexivity|exact Hnum].
  intros a Ha. now rewrite (proj1 (digit_facts a Ha)).
Qed.

Lemma value_here_or_next (here : string) (next : option string)
  (value_str : string) :
  here_or_next value_pattern here next = Some value_str ->
  exists x, float value_str = Some x.
Proof.
  assert (Hs : forall s mo,
             search value_pattern s = Some mo ->
             exists x, float (strip (grp 1 mo)) = Some x).
  { intros s mo H. destruct (search_number s mo H) as (ds & fr & Hnum & ->).
    rewrite (strip_numeral ds fr Hnum). now apply float_numeral. }
  unfold here_or_next.
  destruct (search value_pattern here) as [mo|] eqn:E.
  - intros H. injection H as <-. now apply (Hs here).
  - destruct next as [n|]; [|discriminate].
    destruct (truthy (strip n)); [|discriminate].
    destruct (search value_pattern n) as [mo|] eqn:E2; [|discriminate].
    intros H. injection H as <-. now apply (Hs n).
Qed.

(** X16: every record of the aggressive fallback has a numeric value: the text
    it takes for the value always parses as a float. *)
Theorem aggressive_values_numeric (text : string) :
  Forall (fun r => exists x, test_value r = VFloat x) (_parse_aggressive text).
Proof.
  unfold _parse_aggressive.
  assert (Hline : forall acc line next,
             Forall (fun r => exists x, test_value r = VFloat x) acc ->
             Forall (fun r => exists x, test_value r = VFloat x)
                    (aggressive_line acc line next)).
  { intros acc line next Hacc. unfold aggressive_line.
    destruct (is_empty (strip line)); [exact Hacc|].
    destruct (first_match _ _) as [mo|]; [|exact Hacc].
    destruct (is_empty (strip (grp 1 mo))); [exact Hacc|].
    destruct (here_or_next value_pattern _ _) as [value_str|] eqn:E;
      [|exact Hacc].
    destruct (is_empty value_str); [exact Hacc|].
    apply Forall_snoc; [exact Hacc|].
    destruct (value_here_or_next _ _ _ E) as [x Hx].
    exists x. unfold format_lab_test. cbn [test_value]. now rewrite Hx. }
  assert (H : forall lines acc,
             Forall (fun r => exists x, test_value r = VFloat x) acc ->
             Forall (fun r => exists x, test_value r = VFloat x)
                    (aggressive_lines lines acc)).
  { induction lines as [|line rest IH]; intros acc Hacc; cbn; [exact Hacc|].
    apply IH, Hline, Hacc. }
  apply H. constructor.
Qed.

Import Captures.

Lemma consumes_weaken (q q' : ascii -> bool) (r : regex) :
  (forall a, q a = true -> q' a = true) -> consumes q r -> consumes q' r.
Proof.
  intros Hq. induction r; cbn; try tauto; auto.
Qed.

Lemma consumes_both (q1 q2 : ascii -> bool) (r : regex) :
  consumes q1 r -> consumes q2 r -> consumes (fun a => q1 a && q2 a) r.
Proof.
  induction r; cbn; try tauto.
  - intros H1 H2 a Ha. now rewrite H1, H2.
  - intros H1 H2 a Ha. now rewrite H1, H2.
Qed.

Lemma consumes_any (r : regex) : consumes (fun _ => true) r.
Proof. induction r; cbn; auto. Qed.

Lemma all_chars_both (q1 q2 : ascii -> bool) (s : string) :
  all_chars (fun a => q1 a && q2 a) s = true ->
  all_chars q1 s = true /\ all_chars q2 s = true.
Proof.
  induction s as [|a s IH]; cbn; [easy|].
  rewrite !andb_true_iff. intros [[H1 H2] H]. destruct (IH H). tauto.
Qed.

(** A successful run has read a prefix in the class the pattern reads,
    has kept the captures in their classes, and has called its
    continuation on the rest. *)
Lemma run_sound (cls : nat -> ascii -> bool) (r : regex) :
  forall q s c k res,
    groups_ok cls r -> consumes q r ->
    run r s c k = Some res -> caps_ok cls c ->
    exists x s' c',
      s = (x ++ s')%string /\ all_chars q x = true
      /\ caps_ok cls c' /\ k s' c' = Some res.
Proof.
  induction r as [|p|r1 IH1 r2 IH2|r1 IH1 r2 IH2|p lo|r1 IH1|n r1 IH1|r1 IH1|];
    intros q s c k res Hg Hq; cbn [run].
  - intros H Hc. exists EmptyString, s, c. now repeat split.
  - destruct s as [|a s]; [discriminate|].
    destruct (p a) eqn:Ea; [|discriminate]. intros H Hc.
    exists (String a EmptyString), s, c. cbn. cbn in Hq.
    rewrite (Hq a Ea). now repeat split.
  - destruct Hg as [Hg1 Hg2]. destruct Hq as [Hq1 Hq2]. intros H Hc.
    destruct (IH1 q s c _ res Hg1 Hq1 H Hc) as (x1 & s1 & c1 & -> & Hx1 & Hc1 & H1).
    destruct (IH2 q s1 c1 k res Hg2 Hq2 H1 Hc1)
      as (x2 & s2 & c2 & -> & Hx2 & Hc2 & H2).
    exists (x1 ++ x2)%string, s2, c2.
    rewrite app_assoc_string, all_chars_app, Hx1, Hx2. now repeat split.
  - destruct Hg as [Hg1 Hg2]. destruct Hq as [Hq1 Hq2]. intros H Hc.
    destruct (run r1 s c k) as [x|] eqn:E.
    + injection H as <-. now apply (IH1 q s c k x).
    + now apply (IH2 q s c k res).
  - intros H Hc. apply rep_sound in H.
    destruct H as (ds & rest & -> & Hds & _ & H).
    exists ds, rest, c. cbn in Hq.
    rewrite (all_chars_impl p q ds Hq Hds). now repeat split.
  - intros H Hc. destruct (run r1 s c k) as [x|] eqn:E.
    + injection H as <-. now apply (IH1 q s c k x).
    + exists EmptyString, s, c. now repeat split.
  - destruct Hg as [Hn Hg]. cbn in Hq. intros H Hc.
    destruct (IH1 (fun a => cls n a && q a) s c _ res Hg
                (consumes_both _ _ _ Hn Hq) H Hc)
      as (x & s' & c' & -> & Hx & Hc' & H').
    apply all_chars_both in Hx. destruct Hx as [Hxn Hxq].
    rewrite consumed_app in H'.
    exists x, s', ((n, x) :: c'). repeat split; try assumption.
    intros m v [Hin|Hin]; [|now apply Hc'].
    injection Hin as <- <-. exact Hxn.
  - intros H Hc. destruct (run r1 s c final) as [[s1 c1]|] eqn:E;
      [|discriminate].
    destruct (IH1 (fun _ => true) s c final (s1, c1) Hg (consumes_any r1) E Hc)
      as (x & s' & c' & _ & _ & Hc' & H').
    unfold final in H'. injection H' as _ <-.
    exists EmptyString, s, c'. now repeat split.
  - intros H Hc. exists EmptyString, s, c.
    destruct s as [|a [|b s]]; try discriminate; [now repeat split|].
    destruct (Ascii.eqb a LF); [now repeat split | discriminate].
Qed.

Lemma match_at_caps (cls : nat -> ascii -> bool) (r : regex) (s : string)
  (pos : nat) (mo : match_obj) :
  groups_ok cls r -> match_at r s pos = Some mo -> caps_ok cls (m_groups mo).
Proof.
  intros Hg. unfold match_at.
  destruct (run r s [] final) as [[s' c]|] eqn:E; [|discriminate].
  intros H. injection H as <-. cbn [m_groups].
  destruct (run_sound cls r (fun _ => true) s [] final (s', c) Hg
              (consumes_any r) E) as (x & s1 & c1 & _ & _ & Hc & H).
  { intros n v []. }
  unfold final in H. now injection H as _ <-.
Qed.

Lemma finditer_caps (cls : nat -> ascii -> bool) (r : regex) (s : string) :
  groups_ok cls r ->
  forall pos skip,
    Forall (fun mo => caps_ok cls (m_groups mo)) (finditer_from r s pos skip).
Proof.
  intros Hg. induction s as [|a s IH]; intros pos skip; cbn [finditer_from];
    [constructor|].
  destruct skip as [|skip]; [|apply IH].
  destruct (match_at r (String a s) pos) as [mo|] eqn:E; [|apply IH].
  constructor; [exact (match_at_caps cls r _ pos mo Hg E) | apply IH].
Qed.

Lemma group_In (n : nat) (c : caps) (v : string) :
  group n c = Some v -> In (n, v) c.
Proof.
  induction c as [|[k w] c IH]; cbn [group]; [discriminate|].
  destruct (Nat.eqb_spec k n) as [->|Hne].
  - intros H. injection H as ->. now left.
  - intros H. right. exact (IH H).
Qed.

Lemma grp_class (cls : nat -> ascii -> bool) (n : nat) (mo : match_obj) :
  caps_ok cls (m_groups mo) -> all_chars (cls n) (grp n mo) = true.
Proof.
  intros Hc. unfold grp.
  destruct (group n (m_groups mo)) as [v|] eqn:E; [|reflexivity].
  apply Hc. now apply group_In.
Qed.

Lemma all_chars_lstrip (p : ascii -> bool) (s : string) :
  all_chars p s = true -> all_chars p (lstrip s) = true.
Proof.
  induction s as [|a s IH]; cbn; [reflexivity|].
  intros H. pose proof H as H0. apply andb_true_iff in H. destruct H as [_ H].
  destruct (is_space a); [now apply IH | exact H0].
Qed.

Lemma all_chars_rstrip (p : ascii -> bool) (s : string) :
  all_chars p s = true -> all_chars p (rstrip s) = true.
Proof.
  induction s as [|a s IH]; cbn; [reflexivity|].
  intros H. apply andb_true_iff in H. destruct H as [Ha H].
  destruct (is_space a && is_empty (rstrip s)); [reflexivity|].
  cbn. now rewrite Ha, IH.
Qed.

Lemma all_chars_strip (p : ascii -> bool) (s : string) :
  all_chars p s = true -> all_chars p (strip s) = true.
Proof. intros H. now apply all_chars_rstrip, all_chars_lstrip. Qed.

(** No unit is found in a text of range characters. *)
Lemma range_chars_no_unit (a : ascii) :
  range_cls a = true ->
  (is_alpha a || Ascii.eqb a "/" || Ascii.eqb a "%") = false.
Proof.
  destruct a as [[] [] [] [] [] [] [] []]; vm_compute; congruence.
Qed.

Lemma search_class_none (p : ascii -> bool) (s : string) :
  all_chars (fun a => negb (p a)) s = true ->
  forall pos, search_from (Rep p 1) s pos = None.
Proof.
  induction s as [|a s IH]; intros H pos; [reflexivity|].
  cbn in H. apply andb_true_iff in H. destruct H as [Ha H].
  apply negb_true_iff in Ha.
  cbn [search_from]. unfold match_at. cbn [run rep]. rewrite Ha.
  cbn [at_least_zero]. now apply IH.
Qed.

Lemma range_text_unit (name value_str range_str : string) :
  all_chars range_cls range_str = true ->
  unit_of_free_text (format_lab_test name value_str range_str).
Proof.
  intros H. right. unfold format_lab_test.
  cbn [bio_reference_range test_unit]. split; [exact H|].
  unfold search, unit_re. rewrite search_class_none; [reflexivity|].
  apply (all_chars_impl range_cls); [|exact H].
  intros a Ha. now rewrite (range_chars_no_unit a Ha).
Qed.

Lemma no_range_unit (name value_str : string) :
  unit_of_free_text (format_lab_test name value_str "N/A").
Proof. left. split; reflexivity. Qed.

Lemma eqb_class (c : ascii) (q : ascii -> bool) :
  q c = true -> forall a, Ascii.eqb c a = true -> q a = true.
Proof. intros Hq a Ha. apply Ascii.eqb_eq in Ha. now subst. Qed.

Lemma digit_range (a : ascii) : is_digit a = true -> range_cls a = true.
Proof. intros H. unfold range_cls. now rewrite H. Qed.

Lemma space_range (a : ascii) : is_space a = true -> range_cls a = true.
Proof. intros H. unfold range_cls. rewrite H. now rewrite !orb_true_r. Qed.

Lemma templates_groups : Forall (groups_ok template_cls) patterns.
Proof. repeat constructor; cbn; auto. Qed.

Lemma range_pattern_groups : groups_ok range_only range_pattern.
Proof.
  unfold range_pattern, unsigned_number, ws_star, chr, range_only.
  cbn [seq groups_ok consumes].
  repeat split; auto using digit_range, space_range;
    apply eqb_class; reflexivity.
Qed.

Lemma record_unit (pattern : regex) (mo : match_obj) (t : lab_test) :
  caps_ok template_cls (m_groups mo) ->
  record_of_match pattern mo = Some t -> unit_of_free_text t.
Proof.
  intros Hc. unfold record_of_match.
  destruct (2 <=? ngroups pattern); [|discriminate].
  destruct ((3 <=? ngroups pattern) && truthy (grp 3 mo));
    intros H; injection H as <-; [|apply no_range_unit].
  apply range_text_unit, all_chars_strip.
  exact (grp_class template_cls 3 mo Hc).
Qed.

Lemma append_matches_units (pattern : regex) (ms : list match_obj) :
  Forall (fun mo => caps_ok template_cls (m_groups mo)) ms ->
  forall acc,
    Forall unit_of_free_text acc ->
    Forall unit_of_free_text (fold_left (append_match pattern) ms acc).
Proof.
  induction 1 as [|mo ms Hmo _ IH]; intros acc Hacc; cbn [fold_left];
    [exact Hacc|].
  apply IH. unfold append_match.
  destruct (record_of_match pattern mo) as [t|] eqn:E; [|exact Hacc].
  apply Forall_snoc; [exact Hacc | exact (record_unit pattern mo t Hmo E)].
Qed.

Lemma try_patterns_units (text : string) :
  Forall unit_of_free_text (try_patterns text []).
Proof.
  pose proof templates_groups as Hg. unfold patterns in Hg.
  inversion Hg as [|? ? H1 Hg1]; subst.
  inversion Hg1 as [|? ? H2 Hg2]; subst.
  inversion Hg2 as [|? ? H3 Hg3]; subst.
  inversion Hg3 as [|? ? H4 _]; subst.
  unfold try_patterns, patterns. cbn [fold_left].
  repeat (apply append_matches_units;
          [apply finditer_caps; assumption|]).
  constructor.
Qed.

Lemma range_here_or_next (here : string) (next : option string)
  (range_str : string) :
  here_or_next range_pattern here next = Some range_str ->
  all_chars range_cls range_str = true.
Proof.
  assert (Hs : forall s mo,
             search range_pattern s = Some mo ->
             all_chars range_cls (strip (grp 1 mo)) = true).
  { intros s mo H. apply search_from_sound in H.
    destruct H as (s0 & pos0 & H). apply all_chars_strip.
    exact (grp_class range_only 1 mo
             (match_at_caps range_only range_pattern s0 pos0 mo
                range_pattern_groups H)). }
  unfold here_or_next.
  destruct (search range_pattern here) as [mo|] eqn:E.
  - intros H. injection H as <-. now apply (Hs here).
  - destruct next as [n|]; [|discriminate].
    destruct (truthy (strip n)); [|discriminate].
    destruct (search range_pattern n) as [mo|] eqn:E2; [|discriminate].
    intros H. injection H as <-. now apply (Hs n).
Qed.

Lemma aggressive_units (text : string) :
  Forall unit_of_free_text (_parse_aggressive text).
Proof.
  unfold _parse_aggressive.
  assert (Hline : forall acc line next,
             Forall unit_of_free_text acc ->
             Forall unit_of_free_text (aggressive_line acc line next)).
  { intros acc line next Hacc. unfold aggressive_line.
    destruct (is_empty (strip line)); [exact Hacc|].
    destruct (first_match _ _) as [mo|]; [|exact Hacc].
    destruct (is_empty (strip (grp 1 mo))); [exact Hacc|].
    destruct (here_or_next value_pattern _ _) as [value_str|]; [|exact Hacc].
    destruct (is_empty value_str); [exact Hacc|].
    apply Forall_snoc; [exact Hacc|].
    destruct (here_or_next range_pattern line next) as [r|] eqn:E;
      [|apply no_range_unit].
    apply range_text_unit. exact (range_here_or_next line next r E). }
  assert (H : forall lines acc,
             Forall unit_of_free_text acc ->
             Forall unit_of_free_text (aggressive_lines lines acc)).
  { induction lines as [|line rest IH]; intros acc Hacc; cbn; [exact Hacc|].
    apply IH, Hline, Hacc. }
  apply H. constructor.
Qed.

(** X17: a text that is not judged tabular never yields a unit: each of its
    records has the unit [N/A] when no range was found, and otherwise an
    empty unit beside a range made of digits, dots, comparison signs,
    dashes and white space. *)
Theorem free_text_units (text : string) :
  _is_tabular_format text = false ->
  Forall unit_of_free_text (parse_text text).
Proof.
  intros Ht. unfold parse_text. rewrite Ht.
  destruct (nonempty _); [apply try_patterns_units | apply aggressive_units].
Qed.

Lemma free_text_units_witness :
  Forall unit_of_free_text (parse_text scenario1)
  /\ Forall unit_of_free_text (parse_text loose_line).
Proof. split; apply free_text_units; reflexivity. Defined.

(** ** Texts of white space only *)

Import Blank.

Lemma rep_blocked (ok p : ascii -> bool) (s : string) :
  forall lo c k,
    all_chars ok s = true ->
    (1 <= lo /\ (forall a, ok a = true -> p a = false))
    \/ (forall s' c', all_chars ok s' = true -> k s' c' = None) ->
    rep p lo s c k = None.
Proof.
  induction s as [|a s IH]; intros lo c k Hs Hk; cbn [rep].
  - destruct Hk as [[Hlo _]|Hk].
    + destruct lo; [lia | reflexivity].
    + destruct (at_least_zero lo); [now apply Hk | reflexivity].
  - assert (Hstop : (if at_least_zero lo then k (String a s) c else None)
                    = None).
    { destruct Hk as [[Hlo _]|Hk].
      - destruct lo; [lia | reflexivity].
      - destruct (at_least_zero lo); [now apply Hk | reflexivity]. }
    cbn [all_chars] in Hs. apply andb_true_iff in Hs. destruct Hs as [Ha Hs].
    destruct (p a) eqn:Ep; [|exact Hstop].
    destruct Hk as [[_ Hp]|Hk]; [rewrite (Hp a Ha) in Ep; discriminate|].
    rewrite (IH (pred lo) c k Hs (or_intror Hk)). exact Hstop.
Qed.

(** A pattern that demands a character outside [ok], or whose continuation
    fails on texts of [ok], fails on a text of [ok]. *)
Lemma run_blocked (ok : ascii -> bool) (r : regex) :
  forall s c k,
    all_chars ok s = true ->
    demands ok r
    \/ (forall s' c', all_chars ok s' = true -> k s' c' = None) ->
    run r s c k = None.
Proof.
  induction r as [|p|r1 IH1 r2 IH2|r1 IH1 r2 IH2|p lo|r1 IH1|n r1 IH1|r1 IH1|];
    intros s c k Hs Hk; cbn [run]; cbn [demands] in Hk.
  - destruct Hk as [[]|Hk]. now apply Hk.
  - destruct s as [|a s]; [reflexivity|].
    cbn [all_chars] in Hs. apply andb_true_iff in Hs. destruct Hs as [Ha Hs].
    destruct (p a) eqn:Ep; [|reflexivity].
    destruct Hk as [Hp|Hk]; [rewrite (Hp a Ha) in Ep; discriminate|].
    now apply Hk.
  - apply IH1; [exact Hs|].
    destruct Hk as [[H1|H2]|Hk]; [now left| |].
    + right. intros s' c' Hs'. apply IH2; [exact Hs' | now left].
    + right. intros s' c' Hs'. apply IH2; [exact Hs' | now right].
  - assert (H1 : run r1 s c k = None).
    { apply IH1; [exact Hs|]. destruct Hk as [[H _]|Hk]; [now left | now right]. }
    rewrite H1. apply IH2; [exact Hs|].
    destruct Hk as [[_ H]|Hk]; [now left | now right].
  - now apply (rep_blocked ok).
  - destruct Hk as [[]|Hk].
    rewrite (IH1 s c k Hs (or_intror Hk)). now apply Hk.
  - apply IH1; [exact Hs|]. destruct Hk as [H|Hk]; [now left|].
    right. intros s' c' Hs'. now apply Hk.
  - destruct Hk as [H|Hk].
    + now rewrite (IH1 s c final Hs (or_introl H)).
    + destruct (run r1 s c final) as [[s1 c1]|]; [now apply Hk | reflexivity].
  - destruct Hk as [[]|Hk].
    destruct s as [|a [|b s]]; [now apply Hk | | reflexivity].
    destruct (Ascii.eqb a LF); [now apply Hk | reflexivity].
Qed.

Lemma search_blocked (ok : ascii -> bool) (r : regex) (s : string) :
  demands ok r -> all_chars ok s = true ->
  forall pos, search_from r s pos = None.
Proof.
  intros Hr. induction s as [|a s IH]; intros Hs pos; cbn [search_from];
    unfold match_at; rewrite (run_blocked ok r _ [] final Hs (or_introl Hr));
    [reflexivity|].
  cbn [all_chars] in Hs. apply andb_true_iff in Hs. now apply IH.
Qed.

Lemma finditer_blocked (ok : ascii -> bool) (r : regex) (s : string) :
  demands ok r -> all_chars ok s = true ->
  forall pos skip, finditer_from r s pos skip = [].
Proof.
  intros Hr. induction s as [|a s IH]; intros Hs pos skip;
    cbn [finditer_from]; [reflexivity|].
  assert (Hs' : all_chars ok s = true).
  { cbn [all_chars] in Hs. now apply andb_true_iff in Hs. }
  destruct skip as [|skip]; [|now apply IH].
  unfold match_at. rewrite (run_blocked ok r _ [] final Hs (or_introl Hr)).
  now apply IH.
Qed.

Lemma any_match_blocked (ok : ascii -> bool) (pats : list regex) (s : string) :
  Forall (demands ok) pats -> all_chars ok s = true ->
  any_match pats s = false.
Proof.
  intros Hp Hs. unfold any_match.
  induction Hp as [|r pats Hr _ IH]; [reflexivity|].
  cbn [existsb]. unfold matches at 1, search.
  now rewrite (search_blocked ok r s Hr Hs 0).
Qed.

Lemma demands_chr (ok : ascii -> bool) (c : ascii) :
  ok c = false -> demands ok (chr c).
Proof.
  intros Hc a Ha. destruct (Ascii.eqb_spec c a) as [<-|]; [congruence|].
  reflexivity.
Qed.

Lemma demands_lit (ok : ascii -> bool) (c : ascii) (s : string) :
  ok c = false -> demands ok (lit (String c s)).
Proof.
  intros Hc. destruct s as [|b s]; cbn [lit]; [now apply demands_chr|].
  left. now apply demands_chr.
Qed.

Lemma space_no_value (a : ascii) : is_space a = true -> value_cls a = false.
Proof. destruct a as [[] [] [] [] [] [] [] []]; vm_compute; congruence. Qed.

Lemma space_lower (a : ascii) : is_space a = true -> lower_char a = a.
Proof. destruct a as [[] [] [] [] [] [] [] []]; vm_compute; congruence. Qed.

Lemma test_headers_demand : Forall (demands is_space) table_header_patterns.
Proof.
  unfold table_header_patterns.
  repeat apply Forall_cons; try apply Forall_nil; cbn [seq demands];
    repeat left; now apply demands_chr.
Qed.

Lemma templates_demand : Forall (demands is_space) patterns.
Proof.
  unfold patterns, pattern1, pattern2, pattern3, pattern4, value_group, dots,
    ws_star, ws_plus.
  repeat apply Forall_cons; try apply Forall_nil; cbn [seq demands].
  - right. right. left. now apply demands_chr.
  - right. right. left. split; [lia | exact space_no_value].
  - right. left. split; [lia|]. intros a Ha.
    destruct (Ascii.eqb_spec "." a) as [<-|]; [discriminate Ha | reflexivity].
  - right. right. left. now apply demands_lit.
Qed.

Lemma blank_lower (s : string) : blank s -> lower s = s.
Proof.
  unfold blank. induction s as [|a s IH]; cbn [all_chars lower]; [reflexivity|].
  intros H. apply andb_true_iff in H. destruct H as [Ha H].
  now rewrite (space_lower a Ha), IH.
Qed.

Lemma blank_strip (s : string) : blank s -> strip s = EmptyString.
Proof.
  unfold blank, strip. induction s as [|a s IH]; cbn [all_chars lstrip];
    [reflexivity|].
  intros H. apply andb_true_iff in H. destruct H as [Ha H].
  rewrite Ha. now apply IH.
Qed.

Lemma blank_split (d : ascii) (s : string) :
  blank s -> Forall blank (split d s).
Proof.
  unfold blank. induction s as [|a s IH]; cbn [all_chars split].
  - intros _. now constructor.
  - intros H. apply andb_true_iff in H. destruct H as [Ha H].
    specialize (IH H). destruct (split d s) as [|h t].
    + constructor; [|constructor]. cbn. now rewrite Ha.
    + inversion IH as [|? ? Hh Ht]; subst.
      destruct (Ascii.eqb a d).
      * constructor; [reflexivity | exact IH].
      * constructor; [|exact Ht]. unfold blank. cbn [all_chars].
        now rewrite Ha.
Qed.

Lemma blank_no_header (line : string) : blank line -> is_header_line line = false.
Proof.
  intros H. unfold is_header_line. rewrite (blank_lower line H).
  now rewrite (any_match_blocked is_space _ line test_headers_demand H).
Qed.

Lemma blank_header_scan (lines : list string) :
  Forall blank lines ->
  forall found hc lab_tests,
    header_scan lines found hc lab_tests = inr (found, lab_tests).
Proof.
  induction 1 as [|line lines Hl _ IH]; intros found hc lab_tests;
    cbn [header_scan]; [reflexivity|].
  rewrite (blank_no_header line Hl). apply IH.
Qed.

Lemma blank_positional (lines : list string) :
  Forall blank lines ->
  forall lab_tests, fold_left positional_row lines lab_tests = lab_tests.
Proof.
  induction 1 as [|line lines Hl _ IH]; intros lab_tests; cbn [fold_left];
    [reflexivity|].
  unfold positional_row at 2. rewrite (blank_strip line Hl). cbn [is_empty].
  apply IH.
Qed.

Lemma blank_aggressive (lines : list string) :
  Forall blank lines ->
  forall lab_tests, aggressive_lines lines lab_tests = lab_tests.
Proof.
  induction 1 as [|line lines Hl _ IH]; intros lab_tests;
    cbn [aggressive_lines]; [reflexivity|].
  unfold aggressive_line. rewrite (blank_strip line Hl). cbn [is_empty].
  apply IH.
Qed.

Lemma blank_templates (text : string) : blank text -> try_patterns text [] = [].
Proof.
  intros H. unfold try_patterns.
  assert (Hp : forall pats, Forall (demands is_space) pats ->
                 fold_left
                   (fun lab_tests pattern =>
                      fold_left (append_match pattern) (finditer pattern text)
                                lab_tests) pats [] = []).
  { induction 1 as [|r pats Hr _ IH]; cbn [fold_left]; [reflexivity|].
    unfold finditer at 2.
    rewrite (finditer_blocked is_space r text Hr H 0 0). exact IH. }
  exact (Hp patterns templates_demand).
Qed.

Lemma blank_tabular (text : string) :
  blank text -> _parse_tabular_format text = [].
Proof.
  intros H. pose proof (blank_split LF text H) as Hl.
  unfold _parse_tabular_format. rewrite (blank_header_scan _ Hl).
  now apply blank_positional.
Qed.

Lemma blank_fallback (text : string) :
  blank text -> _parse_aggressive text = [].
Proof.
  intros H. unfold _parse_aggressive.
  apply blank_aggressive. now apply blank_split.
Qed.

Lemma blank_parse_text (text : string) : blank text -> parse_text text = [].
Proof.
  intros H. unfold parse_text.
  destruct (_is_tabular_format text); [now apply blank_tabular|].
  rewrite (blank_templates text H). now apply blank_fallback.
Qed.

(** X18: a text of white space only yields no record, whichever strategy
    [parse_text] chooses for it. *)
Theorem blank_text_no_records (text : string) :
  blank text ->
  parse_text text = []
  /\ _parse_tabular_format text = []
  /\ _parse_aggressive text = [].
Proof.
  intros H. split; [now apply blank_parse_text|].
  split; [now apply blank_tabular | now apply blank_fallback].
Qed.

Lemma blank_text_no_records_witness :
  parse_text (String TAB (String TAB (String TAB (String TAB (String LF " ")))))
  = [].
Proof. apply blank_text_no_records. reflexivity. Defined.

Lemma blank_regions (doc : document) :
  (forall r, region_boxes (ocr_of_region doc r) = []) ->
  forall regions all_lab_tests,
    fold_left (region_tests doc) regions all_lab_tests = all_lab_tests.
Proof.
  intros H regions. induction regions as [|r regions IH]; intros all_lab_tests;
    cbn [fold_left]; [reflexivity|].
  unfold region_tests at 2. rewrite (H r).
  change (extract_table_data []) with (Some (@nil (list string))).
  cbn [parse_table_data]. rewrite app_nil_r. apply IH.
Qed.

(** ** Pages that OpenCV can hand over *)

Lemma size_nonempty (img : image) (W : nat) :
  0 < W -> img <> [] -> Forall (fun row => List.length row = W) img ->
  image_size img <> 0.
Proof.
  intros HW Hne Hrows. destruct img as [|row img]; [congruence|].
  inversion Hrows as [|? ? Hrow _]; subst.
  unfold image_size. cbn [List.concat]. rewrite List.length_app. lia.
Qed.

(** The crop of a region that lies in the page holds a pixel. *)
Lemma crop_nonempty (img : image) (W : nat) (x y w h : Z) :
  Forall (fun row => List.length row = W) img ->
  (0 <= x)%Z -> (0 <= y)%Z -> (0 < w)%Z -> (0 < h)%Z ->
  (x + w <= Z.of_nat W)%Z -> (y + h <= Z.of_nat (List.length img))%Z ->
  image_size (crop_to_roi img x y w h) <> 0.
Proof.
  intros Hrows Hx Hy Hw Hh HxW HyH. unfold crop_to_roi.
  rewrite py_slice_inside by lia.
  assert (Hin : Forall (fun row => List.length row = W)
                       (firstn (Z.to_nat h) (skipn (Z.to_nat y) img)))
    by now apply Forall_part_first, Forall_part_rest.
  assert (Hlen : List.length (firstn (Z.to_nat h) (skipn (Z.to_nat y) img))
                 = Z.to_nat h)
    by (rewrite length_firstn, length_skipn; lia).
  destruct (firstn (Z.to_nat h) (skipn (Z.to_nat y) img)) as [|row rows];
    [cbn in Hlen; lia|].
  inversion Hin as [|? ? Hrow _]; subst.
  unfold image_size. cbn [map List.concat]. rewrite List.length_app.
  rewrite py_slice_inside by lia.
  rewrite length_firstn, length_skipn. lia.
Qed.

Lemma process_regions_total (doc : document) (regions : list rect) :
  Forall (fun r => ~ empty_crop doc r) regions ->
  forall acc,
    process_regions doc regions acc
    = Some (fold_left (region_tests doc) regions acc).
Proof.
  induction 1 as [|[[[x y] w] h] regions Hr _ IH]; intros acc;
    cbn [process_regions fold_left]; cbv zeta; [reflexivity|].
  destruct (preprocess_image _) eqn:E; [apply IH|].
  apply preprocess_none in E. contradiction.
Qed.

(** On such a page the regions are found and every one of them passes the
    guard of [preprocess_image]. *)
Lemma real_page_regions (doc : document) :
  real_page doc ->
  preprocess_image (Some (page doc)) = Some tt
  /\ exists regions,
       detect_table_regions (contours doc) = Some regions
       /\ forall acc,
           process_regions doc regions acc
           = Some (fold_left (region_tests doc) regions acc).
Proof.
  intros (W & HW & Hne & Hrows & Hc). split.
  - unfold preprocess_image.
    destruct (Nat.eqb_spec (image_size (page doc)) 0) as [E|]; [|reflexivity].
    now destruct (size_nonempty (page doc) W HW Hne Hrows).
  - exists (map bounding_rect (filter qualifies (contours doc))). split.
    + unfold detect_table_regions. rewrite region_loop; [reflexivity|].
      eapply Forall_impl; [|exact Hc]. cbv beta. intros c H. lia.
    + apply process_regions_total. apply Forall_forall. intros r Hr.
      apply in_map_iff in Hr. destruct Hr as (c & <- & Hin).
      apply filter_In in Hin. destruct Hin as [Hin _].
      rewrite Forall_forall in Hc. specialize (Hc c Hin). cbv beta in Hc.
      unfold bounding_rect, empty_crop.
      apply (crop_nonempty (page doc) W); [exact Hrows | lia..].
Qed.

(** On such a page every stage returns. *)
Lemma real_page_report (doc : document) :
  real_page doc -> exists tests, process_lab_report doc = Some tests.
Proof.
  intros H. destruct (real_page_regions doc H) as (Hp & regions & Hd & Hr).
  unfold process_lab_report. rewrite Hp.
  destruct (nonempty (parse_text (full_text doc))); [now eexists|].
  rewrite Hd, Hr. now eexists.
Qed.

Lemma blank_page_report (doc : document) :
  blank_page doc -> process_lab_report doc = Some [].
Proof.
  intros (Hreal & Ht & Hb & Hr).
  destruct (real_page_regions doc Hreal) as (Hp & regions & Hd & Hl).
  unfold process_lab_report. rewrite Hp.
  rewrite (blank_parse_text _ Ht). cbn [nonempty].
  rewrite Hd, Hl, (blank_regions doc Hr). cbn [nonempty]. rewrite Hb.
  reflexivity.
Qed.

Lemma blank_document_blank : blank_page blank_document.
Proof.
  split; [|split; [reflexivity|split; reflexivity]].
  exists 110. split; [lia|]. split; [discriminate|]. split.
  - apply Forall_forall. intros row Hrow.
    apply repeat_spec in Hrow. subst row. apply repeat_length.
  - constructor; [|constructor]. vm_compute. repeat split; discriminate.
Qed.

(** C6: [preprocess_image] raises exactly on a missing image and on an
    image without a pixel, and that error leaves [process_lab_report] when
    the page has no pixel; on every other page, given with contours whose
    bounding boxes lie in it and have a positive width and height, every
    stage returns: the regions are found, each of them passes the guard,
    and the pipeline returns a list; and on such a page on which the
    recogniser finds white space only and no word box, that list is
    empty. *)
Theorem C6_only_empty_image_fails :
  (forall img,
      preprocess_image img = None
      <-> img = None \/ exists i, img = Some i /\ image_size i = 0)
  /\ (forall doc, image_size (page doc) = 0 -> process_lab_report doc = None)
  /\ (forall doc,
         real_page doc ->
         preprocess_image (Some (page doc)) = Some tt
         /\ (exists regions,
                detect_table_regions (contours doc) = Some regions
                /\ forall acc,
                    process_regions doc regions acc
                    = Some (fold_left (region_tests doc) regions acc))
         /\ exists tests, process_lab_report doc = Some tests)
  /\ (forall doc, blank_page doc -> process_lab_report doc = Some []).
Proof.
  split; [|split; [|split]].
  - intros [img|].
    + rewrite preprocess_none. split.
      * intros H. right. now exists img.
      * intros [H|(i & H & Hi)]; [discriminate H|]. now injection H as ->.
    + split; [now left | reflexivity].
  - intros doc H. unfold process_lab_report.
    now rewrite (proj2 (preprocess_none (page doc)) H).
  - intros doc H. destruct (real_page_regions doc H) as [Hp Hr].
    split; [exact Hp|]. split; [exact Hr|]. now apply real_page_report.
  - exact blank_page_report.
Qed.

Lemma C6_only_empty_image_fails_witness :
  process_lab_report empty_document = None
  /\ (exists tests, process_lab_report blank_document = Some tests)
  /\ process_lab_report blank_document = Some [].
Proof.
  destruct C6_only_empty_image_fails as (_ & Hempty & Hreal & Hblank).
  split; [apply Hempty; reflexivity|]. split.
  - apply (Hreal blank_document). exact (proj1 blank_document_blank).
  - apply Hblank. exact blank_document_blank.
Defined.

(** X19: a page on which the recogniser finds white space only is answered
    with no record: [process_lab_report] returns the empty list, and the
    handler answers an image upload with status 200 and no test. *)
Theorem blank_page_no_tests (doc : document) (ct : string) :
  blank_page doc ->
  process_lab_report doc = Some []
  /\ (String.prefix "image/" ct = true ->
      get_lab_tests (MkRequest (Some ct) (Page doc))
      = MkResponse 200 true (Some [])).
Proof.
  intros Hblank. pose proof (blank_page_report doc Hblank) as H.
  split; [exact H|]. intros Hp.
  unfold get_lab_tests, handle. cbn [content_type body]. rewrite Hp.
  cbn [negb]. now rewrite H.
Qed.

Lemma blank_page_no_tests_witness :
  process_lab_report blank_document = Some []
  /\ get_lab_tests (MkRequest (Some "image/png") (Page blank_document))
     = MkResponse 200 true (Some []).
Proof.
  pose proof blank_document_blank as H.
  split; [exact (proj1 (blank_page_no_tests blank_document "image/png" H))|].
  exact (proj2 (blank_page_no_tests blank_document "image/png" H) eq_refl).
Defined.


(** ** The unit of a record *)

Import Shapes.

Lemma run_of_split (p : ascii -> bool) (s : string) :
  exists rest,
    s = (run_of p s ++ rest)%string
    /\ all_chars p (run_of p s) = true /\ stops p rest.
Proof.
  induction s as [|a s (rest & Hs & Hall & Hstop)]; cbn [run_of].
  - exists EmptyString. now repeat split.
  - destruct (p a) eqn:Ep.
    + exists rest. cbn [append all_chars]. rewrite Ep, Hall.
      split; [now rewrite <- Hs | now split].
    + exists (String a s). now repeat split.
Qed.

Lemma search_first_run (p : ascii -> bool) (s : string) :
  forall pos,
    match search_from (Rep p 1) s pos with
    | Some mo => m_text mo = first_run p s
    | None => first_run p s = EmptyString
    end.
Proof.
  induction s as [|a s IH]; intros pos; [reflexivity|].
  cbn [search_from first_run]. unfold match_at. cbn [run].
  destruct (p a) eqn:Ep.
  - destruct (run_of_split p s) as (rest & Hs & Hall & Hstop).
    assert (E : rep p 1 (String a s) [] final = Some (rest, [])).
    { rewrite Hs at 1.
      apply (rep_greedy p (String a (run_of p s)) 1 rest [] final);
        [cbn [all_chars]; now rewrite Ep, Hall | exact Hstop | cbn; lia
        | reflexivity]. }
    rewrite E. cbn [m_text].
    change (take (String.length (String a s) - String.length rest) (String a s))
      with (consumed (String a s) rest).
    rewrite Hs at 1.
    exact (consumed_app (String a (run_of p s)) rest).
  - cbn [rep]. rewrite Ep. cbn [at_least_zero]. apply IH.
Qed.

(** X20: the unit of a record is the first maximal run of letters, slashes
    and percent signs of its reference range, and is empty when the range
    has no such character. *)
Theorem unit_is_first_run (name value_str range_str : string) :
  test_unit (format_lab_test name value_str range_str)
  = first_run unit_cls range_str.
Proof.
  unfold format_lab_test. cbn [test_unit]. unfold search, unit_re.
  pose proof (search_first_run unit_cls range_str 0) as H.
  unfold unit_cls in H at 1.
  destruct (search_from _ range_str 0) as [mo|]; [exact H | now rewrite H].
Qed.


(** ** The shape of a cleaned name *)

Lemma split_ws_aux_words (s : string) :
  all_chars (fun a => negb (is_space a)) (fst (split_ws_aux s)) = true
  /\ Forall word (snd (split_ws_aux s)).
Proof.
  induction s as [|c s [Hw Hws]]; cbn [split_ws_aux].
  - split; [reflexivity | constructor].
  - destruct (split_ws_aux s) as [w ws]. cbn [fst snd] in *.
    destruct (is_space c) eqn:Ec; cbn [fst snd].
    + split; [reflexivity|].
      destruct w as [|d w]; cbn [is_empty]; [exact Hws|].
      constructor; [|exact Hws]. split; [discriminate | exact Hw].
    + split; [|exact Hws]. cbn [all_chars]. now rewrite Ec, Hw.
Qed.

Lemma split_ws_words (s : string) : Forall word (split_ws s).
Proof.
  unfold split_ws. destruct (split_ws_aux_words s) as [Hw Hws].
  destruct (split_ws_aux s) as [w ws]. cbn [fst snd] in *.
  destruct w as [|d w]; cbn [is_empty]; [exact Hws|].
  constructor; [|exact Hws]. split; [discriminate | exact Hw].
Qed.

Lemma single_spaces_word (w rest : string) :
  all_chars (fun a => negb (is_space a)) w = true ->
  forall b,
    single_spaces b (w ++ rest)%string
    = match w with
      | EmptyString => single_spaces b rest
      | String _ _ => single_spaces false rest
      end.
Proof.
  induction w as [|a w IH]; intros H b; [reflexivity|].
  cbn [all_chars] in H. apply andb_true_iff in H. destruct H as [Ha H].
  apply negb_true_iff in Ha. cbn [append single_spaces]. rewrite Ha.
  rewrite (IH H false). now destruct w.
Qed.

Lemma join_words_spaced (ws : list string) :
  Forall word ws -> single_spaces true (join " " ws) = true.
Proof.
  induction 1 as [|w ws [Hne Hw] Hws IH]; [reflexivity|].
  cbn [join]. destruct ws as [|v ws].
  - rewrite <- (append_empty w). rewrite (single_spaces_word w _ Hw).
    now destruct w.
  - rewrite (single_spaces_word w _ Hw). destruct w as [|a w]; [easy|].
    cbn [append single_spaces]. exact IH.
Qed.

Lemma single_spaces_prefix (s u : string) :
  forall b, single_spaces b (s ++ u)%string = true -> single_spaces b s = true.
Proof.
  induction s as [|a s IH]; intros b; [reflexivity|].
  cbn [append single_spaces]. destruct (is_space a).
  - rewrite !andb_true_iff. intros [Hb H]. split; [exact Hb | now apply IH].
  - apply IH.
Qed.

Lemma single_spaces_no_feed (s : string) :
  forall b, single_spaces b s = true ->
            all_chars (fun a => negb (Ascii.eqb a LF)) s = true.
Proof.
  induction s as [|a s IH]; intros b; [reflexivity|].
  cbn [single_spaces all_chars]. destruct (is_space a) eqn:Ea.
  - rewrite !andb_true_iff. intros [[Hs _] H]. apply Ascii.eqb_eq in Hs.
    subst a. split; [reflexivity | now apply (IH true)].
  - intros H. rewrite (IH false H), andb_true_r.
    destruct (Ascii.eqb_spec a LF) as [->|]; [discriminate Ea | reflexivity].
Qed.

Lemma single_spaces_lstrip (s : string) :
  single_spaces true s = true -> lstrip s = s.
Proof.
  destruct s as [|a s]; [reflexivity|]. cbn [single_spaces lstrip].
  destruct (is_space a); [|reflexivity].
  rewrite andb_false_r. discriminate.
Qed.

Lemma rstrip_prefix (s : string) : exists u, s = (rstrip s ++ u)%string.
Proof.
  induction s as [|a s [u Hu]]; [now exists EmptyString|].
  cbn [rstrip]. destruct (is_space a && is_empty (rstrip s)).
  - now exists (String a s).
  - exists u. cbn [append]. now rewrite <- Hu.
Qed.

Lemma groups_any (r : regex) : groups_ok (fun _ _ => true) r.
Proof. induction r; cbn; auto using consumes_any. Qed.

Lemma all_chars_any (s : string) : all_chars (fun _ => true) s = true.
Proof. induction s as [|a s IH]; [reflexivity | exact IH]. Qed.

Lemma caps_any (c : caps) : caps_ok (fun _ _ => true) c.
Proof. intros n v _. apply all_chars_any. Qed.

(** An anchored pattern hands over the end of the text, or a last line
    feed. *)
Lemma run_anchored (r : regex) :
  anchored r ->
  forall s c res,
    run r s c final = Some res ->
    fst res = EmptyString \/ fst res = String LF EmptyString.
Proof.
  induction r as [|p|r1 _ r2 IH2|r1 _ r2 _|p lo|r1 _|n r1 _|r1 _|];
    cbn [anchored]; try contradiction; intros Ha s c res; cbn [run].
  - intros H.
    destruct (run_sound (fun _ _ => true) r1 (fun _ => true) s c _ res
                (groups_any r1) (consumes_any r1) H (caps_any c))
      as (x & s' & c' & _ & _ & _ & Hk).
    exact (IH2 Ha s' c' res Hk).
  - destruct s as [|a [|b s]]; unfold final.
    + intros H. injection H as <-. now left.
    + destruct (Ascii.eqb_spec a LF) as [->|]; [|discriminate].
      intros H. injection H as <-. now right.
    + discriminate.
Qed.

Lemma match_anchored (r : regex) (s : string) (mo : match_obj) :
  anchored r ->
  all_chars (fun a => negb (Ascii.eqb a LF)) s = true ->
  match_at r s 0 = Some mo -> m_end mo = String.length s.
Proof.
  intros Ha Hs. unfold match_at.
  destruct (run r s [] final) as [[s' c]|] eqn:E; [|discriminate].
  intros H. injection H as <-. cbn [m_end].
  destruct (run_sound (fun _ _ => true) r (fun _ => true) s [] final (s', c)
              (groups_any r) (consumes_any r) E (caps_any []))
    as (x & s1 & c1 & Hx & _ & _ & Hk).
  unfold final in Hk. injection Hk as <- <-.
  destruct (run_anchored r Ha s [] (s1, c1) E) as [H|H]; cbn [fst] in H;
    subst s1.
  - cbn. lia.
  - rewrite Hx, all_chars_app in Hs. apply andb_true_iff in Hs.
    destruct Hs as [_ Hs]. discriminate Hs.
Qed.

Lemma sub_skip_all (r : regex) (s : string) :
  forall n, String.length s <= n -> sub_from r s n = EmptyString.
Proof.
  induction s as [|a s IH]; intros n Hn; [reflexivity|].
  cbn [String.length] in Hn. destruct n as [|n]; [lia|].
  cbn [sub_from]. apply IH. lia.
Qed.

(** Removing the matches of an anchored pattern from a text without line
    feed cuts a tail off the text. *)
Lemma sub_anchored (r : regex) (s : string) :
  anchored r ->
  all_chars (fun a => negb (Ascii.eqb a LF)) s = true ->
  exists u, s = (sub_empty r s ++ u)%string.
Proof.
  intros Ha. unfold sub_empty. induction s as [|a s IH]; intros Hs.
  - now exists EmptyString.
  - cbn [sub_from].
    assert (Hs' : all_chars (fun a => negb (Ascii.eqb a LF)) s = true).
    { cbn [all_chars] in Hs. now apply andb_true_iff in Hs. }
    destruct (IH Hs') as [u Hu].
    destruct (match_at r (String a s) 0) as [mo|] eqn:E.
    + rewrite (match_anchored r _ mo Ha Hs E). cbn [String.length].
      rewrite (sub_skip_all r s (String.length s) (le_n _)).
      now exists (String a s).
    + exists u. cbn [append]. now rewrite <- Hu.
Qed.

Lemma removed_patterns_anchored : Forall anchored patterns_to_remove.
Proof.
  unfold patterns_to_remove, trailing_paren_re, trailing_result_re.
  repeat apply Forall_cons; try apply Forall_nil; cbn [seq anchored]; exact I.
Qed.

(** X21: a cleaned name is a prefix of the raw name with its white space
    normalised; every white-space character in it is a single blank between
    two other characters. *)
Theorem clean_name_shape (name : string) :
  single_spaces true (clean_test_name name) = true
  /\ strip (clean_test_name name) = clean_test_name name
  /\ exists tail,
       join " " (split_ws name) = (clean_test_name name ++ tail)%string.
Proof.
  unfold clean_test_name.
  pose proof (join_words_spaced _ (split_ws_words name)) as H0.
  set (n0 := join " " (split_ws name)) in *.
  assert (Hfold : forall pats s,
             Forall anchored pats -> single_spaces true s = true ->
             exists u,
               s = (fold_left (fun name pattern => sub_empty pattern name)
                              pats s ++ u)%string).
  { induction pats as [|r pats IH]; intros s Hp Hs; cbn [fold_left].
    - exists EmptyString. now rewrite append_empty.
    - inversion Hp as [|? ? Hr Hp']; subst.
      destruct (sub_anchored r s Hr (single_spaces_no_feed s true Hs))
        as [u Hu].
      assert (Hs1 : single_spaces true (sub_empty r s) = true).
      { apply (single_spaces_prefix _ u). now rewrite <- Hu. }
      destruct (IH _ Hp' Hs1) as [v Hv].
      exists (v ++ u)%string. rewrite <- app_assoc_string, <- Hv. exact Hu. }
  destruct (Hfold patterns_to_remove n0 removed_patterns_anchored H0)
    as [u Hu].
  set (p := fold_left _ patterns_to_remove n0) in *.
  assert (Hp : single_spaces true p = true).
  { apply (single_spaces_prefix _ u). now rewrite <- Hu. }
  assert (Hstrip : strip p = rstrip p).
  { unfold strip. now rewrite (single_spaces_lstrip p Hp). }
  destruct (rstrip_prefix p) as [v Hv].
  split; [|split].
  - rewrite Hstrip. apply (single_spaces_prefix _ v). now rewrite <- Hv.
  - apply strip_strip.
  - exists (v ++ u)%string. rewrite Hstrip, <- app_assoc_string, <- Hv.
    exact Hu.
Qed.


(** ** The grid parser raises nothing *)

Import Checked.

Lemma py_index_in (row : list string) (i : Z) :
  (- Z.of_nat (List.length row) <= i < Z.of_nat (List.length row))%Z ->
  py_index row i = Some (py_get row i).
Proof.
  intros H. unfold py_index.
  destruct (Z.ltb_spec i (- Z.of_nat (List.length row))); [lia|].
  destruct (Z.leb_spec (Z.of_nat (List.length row)) i); [lia|]. reflexivity.
Qed.

Lemma header_cells_ok (cells : list string) :
  forall j cols,
    (0 <= j)%Z -> columns_ok cols -> columns_ok (header_cells cells j cols).
Proof.
  induction cells as [|cell cells IH]; intros j [[tn v] rc] Hj Hc;
    cbn [header_cells]; [exact Hc|].
  cbn [columns_ok] in Hc.
  apply IH; [lia|].
  destruct (any_match table_header_patterns (lower cell));
    [cbn; lia|].
  destruct (any_match value_header_patterns (lower cell)); [cbn; lia|].
  destruct (any_match range_header_patterns (lower cell)); [cbn; lia|].
  exact Hc.
Qed.

Lemma table_row_safe (tn v rc : Z) (lab_tests : list lab_test)
  (row : list string) :
  (-1 <= tn)%Z -> (-1 <= v)%Z -> (-1 <= rc)%Z -> (0 <= tn \/ 0 <= v)%Z ->
  table_row_checked tn v rc lab_tests row
  = Some (table_row tn v rc lab_tests row).
Proof.
  intros Htn Hv Hrc Hsome. unfold table_row_checked, table_row.
  cbn [filter].
  destruct (Z.leb_spec 0 tn) as [Ptn|Ptn];
    destruct (Z.leb_spec 0 v) as [Pv|Pv];
    destruct (Z.leb_spec 0 rc) as [Prc|Prc];
    try lia; cbn [py_max fold_left andb];
    rewrite ?(Z.max_r 0 tn), ?(Z.max_r 0 v), ?(Z.max_r 0 rc) by lia;
    match goal with
    | |- context [(Z.of_nat (List.length row) <=? ?n)%Z] =>
        destruct (Z.leb_spec (Z.of_nat (List.length row)) n) as [Hn|Hn]
    end; try reflexivity;
    rewrite (py_index_in row tn), (py_index_in row v) by lia;
    try reflexivity;
    (destruct (Z.ltb_spec rc (Z.of_nat (List.length row))) as [Hr|Hr];
     [rewrite (py_index_in row rc) by lia|]; reflexivity).
Qed.

Lemma rows_safe (tn v rc : Z) (rows : list (list string)) :
  (-1 <= tn)%Z -> (-1 <= v)%Z -> (-1 <= rc)%Z -> (0 <= tn \/ 0 <= v)%Z ->
  forall lab_tests,
    rows_checked tn v rc rows lab_tests
    = Some (fold_left (table_row tn v rc) rows lab_tests).
Proof.
  intros Htn Hv Hrc Hsome.
  induction rows as [|row rows IH]; intros lab_tests;
    cbn [rows_checked fold_left]; [reflexivity|].
  rewrite (table_row_safe tn v rc lab_tests row Htn Hv Hrc Hsome). apply IH.
Qed.

(** X22: [parse_table_data] raises nothing, whatever the grid: the guard on
    the length of a row keeps every index inside the row, also the index -1
    of a role the header did not name, and [max] is never called on an empty
    sequence. *)
Theorem parse_table_data_never_raises (table_data : list (list string)) :
  parse_table_data_checked table_data = Some (parse_table_data table_data).
Proof.
  destruct table_data as [|[|cell first] others]; [reflexivity..|].
  unfold parse_table_data_checked, parse_table_data.
  pose proof (header_cells_ok (cell :: first) 0 ((-1)%Z, (-1)%Z, (-1)%Z)
                (Z.le_refl 0)) as H.
  destruct (header_cells (cell :: first) 0 ((-1)%Z, (-1)%Z, (-1)%Z))
    as [[tn v] rc].
  assert (Hc : (-1 <= tn /\ -1 <= v /\ -1 <= rc)%Z) by (apply H; cbn; lia).
  destruct Hc as (Htn & Hv & Hrc).
  destruct (Z.eqb_spec tn (-1)) as [Etn|Etn];
    destruct (Z.eqb_spec v (-1)) as [Ev|Ev]; cbn [andb].
  - apply rows_safe; try lia. destruct (2 <? _); lia.
  - apply rows_safe; lia.
  - apply rows_safe; lia.
  - apply rows_safe; lia.
Qed.

(** ** Records have a value *)

(** A successful run has read at least the least length of the pattern,
    has left alone the groups the pattern does not hold, and has bound the
    groups the pattern sets. *)
Lemma run_sets (n : nat) (r : regex) :
  forall s c k res,
    run r s c k = Some res ->
    exists x s' c',
      s = (x ++ s')%string /\ minlen r <= String.length x
      /\ k s' c' = Some res
      /\ (mentions n r = false -> group n c' = group n c)
      /\ (sets n r = true ->
          exists v, group n c' = Some v /\ v <> EmptyString).
Proof.
  induction r as [|p|r1 IH1 r2 IH2|r1 IH1 r2 IH2|p lo|r1 IH1|m r1 IH1|r1 IH1|];
    intros s c k res; cbn [run minlen mentions sets].
  - intros H. exists EmptyString, s, c. repeat split; try easy; cbn; lia.
  - destruct s as [|a s]; [discriminate|].
    destruct (p a); [|discriminate]. intros H.
    exists (String a EmptyString), s, c. repeat split; try easy; cbn; lia.
  - intros H.
    destruct (IH1 s c _ res H) as (x1 & s1 & c1 & -> & Hl1 & H1 & Hm1 & Hs1).
    destruct (IH2 s1 c1 k res H1)
      as (x2 & s2 & c2 & -> & Hl2 & H2 & Hm2 & Hs2).
    exists (x1 ++ x2)%string, s2, c2. rewrite app_assoc_string, length_app.
    split; [reflexivity|]. split; [lia|]. split; [exact H2|]. split.
    + intros Hm. apply orb_false_iff in Hm. destruct Hm as [Ha Hb].
      now rewrite (Hm2 Hb), (Hm1 Ha).
    + intros Hs. apply orb_true_iff in Hs. destruct Hs as [Hs|Hs].
      * now apply Hs2.
      * apply andb_true_iff in Hs. destruct Hs as [Ha Hb].
        apply negb_true_iff in Hb. rewrite (Hm2 Hb). now apply Hs1.
  - intros H.
    assert (Hcase : run r1 s c k = Some res \/ run r2 s c k = Some res).
    { destruct (run r1 s c k) as [y|]; [left; exact H | right; exact H]. }
    destruct Hcase as [E|E].
    + destruct (IH1 s c k res E) as (x & s' & c' & Hx & Hl & Hk & Hm & Hs).
      exists x, s', c'. split; [exact Hx|]. split; [lia|].
      split; [exact Hk|]. split.
      * intros Hn. apply orb_false_iff in Hn. now apply Hm.
      * intros Hn. apply andb_true_iff in Hn. now apply Hs.
    + destruct (IH2 s c k res E) as (x & s' & c' & Hx & Hl & Hk & Hm & Hs).
      exists x, s', c'. split; [exact Hx|]. split; [lia|].
      split; [exact Hk|]. split.
      * intros Hn. apply orb_false_iff in Hn. now apply Hm.
      * intros Hn. apply andb_true_iff in Hn. now apply Hs.
  - intros H. apply rep_sound in H.
    destruct H as (ds & rest & -> & _ & Hlo & H).
    exists ds, rest, c. repeat split; try easy; cbn; lia.
  - intros H.
    assert (Hcase : run r1 s c k = Some res \/ k s c = Some res).
    { destruct (run r1 s c k) as [y|]; [left; exact H | right; exact H]. }
    destruct Hcase as [E|E].
    + destruct (IH1 s c k res E) as (x & s' & c' & Hx & _ & Hk & Hm & _).
      exists x, s', c'. split; [exact Hx|]. split; [lia|].
      split; [exact Hk|]. split; [exact Hm | discriminate].
    + exists EmptyString, s, c. repeat split; try easy; cbn; lia.
  - intros H.
    destruct (IH1 s c _ res H) as (x & s' & c' & -> & Hl & Hk & Hm & Hs).
    rewrite consumed_app in Hk.
    exists x, s', ((m, x) :: c'). split; [reflexivity|].
    split; [exact Hl|]. split; [exact Hk|]. cbn [group]. split.
    + intros Hn. apply orb_false_iff in Hn. destruct Hn as [Ha Hb].
      rewrite Ha. now apply Hm.
    + destruct (Nat.eqb m n); [|exact Hs].
      intros Hn. apply Nat.leb_le in Hn. exists x. split; [reflexivity|].
      destruct x; [cbn in Hl; lia | discriminate].
  - intros H. destruct (run r1 s c final) as [[s1 c1]|] eqn:E;
      [|discriminate].
    destruct (IH1 s c final (s1, c1) E) as (x & s' & c' & _ & _ & Hk & Hm & _).
    unfold final in Hk. injection Hk as _ <-.
    exists EmptyString, s, c'. repeat split; try easy; cbn; lia.
  - intros H. exists EmptyString, s, c.
    destruct s as [|a [|b s]]; try discriminate;
      [repeat split; try easy; cbn; lia|].
    destruct (Ascii.eqb a LF); [|discriminate].
    repeat split; try easy; cbn; lia.
Qed.

Lemma match_at_sets (n : nat) (r : regex) (s : string) (pos : nat)
  (mo : match_obj) :
  sets n r = true -> match_at r s pos = Some mo -> grp n mo <> EmptyString.
Proof.
  intros Hs. unfold match_at.
  destruct (run r s [] final) as [[s' c]|] eqn:E; [|discriminate].
  intros H. injection H as <-. unfold grp. cbn [m_groups].
  destruct (run_sets n r s [] final (s', c) E)
    as (x & s1 & c1 & _ & _ & Hk & _ & Hv).
  unfold final in Hk. injection Hk as _ <-.
  destruct (Hv Hs) as (v & -> & Hne). exact Hne.
Qed.

(** Every match object of [finditer] is a match at some position. *)
Lemma finditer_matches (r : regex) (s : string) :
  forall pos skip,
    Forall (fun mo => exists s0 pos0, match_at r s0 pos0 = Some mo)
           (finditer_from r s pos skip).
Proof.
  induction s as [|a s IH]; intros pos skip; cbn [finditer_from];
    [constructor|].
  destruct skip as [|skip]; [|apply IH].
  destruct (match_at r (String a s) pos) as [mo|] eqn:E; [|apply IH].
  constructor; [now exists (String a s), pos | apply IH].
Qed.

Lemma value_chars_strip (v : string) :
  all_chars value_cls v = true -> strip v = v.
Proof.
  intros H. apply strip_nospace. apply (all_chars_impl value_cls); [|exact H].
  intros a. destruct a as [[] [] [] [] [] [] [] []]; vm_compute; congruence.
Qed.

Lemma templates_set_value : Forall (fun r => sets 2 r = true) patterns.
Proof. repeat constructor. Qed.

Lemma template_record_value (pattern : regex) (mo : match_obj) (t : lab_test) :
  groups_ok template_cls pattern -> sets 2 pattern = true ->
  (exists s0 pos0, match_at pattern s0 pos0 = Some mo) ->
  record_of_match pattern mo = Some t -> from_value t.
Proof.
  intros Hg Hs (s0 & pos0 & Hm). unfold record_of_match.
  destruct (2 <=? ngroups pattern); [|discriminate].
  intros H. injection H as <-. eexists _, _, _. split; [reflexivity|].
  rewrite value_chars_strip.
  - exact (match_at_sets 2 pattern s0 pos0 mo Hs Hm).
  - apply (grp_class template_cls 2).
    exact (match_at_caps template_cls pattern s0 pos0 mo Hg Hm).
Qed.

Lemma try_patterns_values (text : string) :
  Forall from_value (try_patterns text []).
Proof.
  unfold try_patterns.
  assert (H : forall pats acc,
             Forall (groups_ok template_cls) pats ->
             Forall (fun r => sets 2 r = true) pats ->
             Forall from_value acc ->
             Forall from_value
               (fold_left
                  (fun lab_tests pattern =>
                     fold_left (append_match pattern) (finditer pattern text)
                               lab_tests) pats acc)).
  { induction pats as [|r pats IH]; intros acc Hg Hs Hacc; cbn [fold_left];
      [exact Hacc|].
    inversion Hg as [|? ? Hg1 Hg2]; subst.
    inversion Hs as [|? ? Hs1 Hs2]; subst.
    apply (IH _ Hg2 Hs2).
    pose proof (finditer_matches r text 0 0) as Hm.
    fold (finditer r text) in Hm. revert acc Hacc.
    induction Hm as [|mo ms Hmo _ IHm]; intros acc Hacc; cbn [fold_left];
      [exact Hacc|].
    apply IHm. unfold append_match.
    destruct (record_of_match r mo) as [t|] eqn:E; [|exact Hacc].
    apply Forall_snoc; [exact Hacc|].
    exact (template_record_value r mo t Hg1 Hs1 Hmo E). }
  apply H; [exact templates_groups | exact templates_set_value | constructor].
Qed.

Lemma parse_text_values (text : string) : Forall from_value (parse_text text).
Proof.
  unfold parse_text. destruct (_is_tabular_format text); [apply tabular_cells|].
  destruct (nonempty _); [apply try_patterns_values | apply aggressive_cells].
Qed.

Lemma from_value_has_value (r : lab_test) : from_value r -> has_value r.
Proof.
  intros (n & v & g & -> & Hv). unfold has_value, format_lab_test.
  cbn [test_value]. destruct (float v); [discriminate|].
  intros H. injection H as ->. now apply Hv.
Qed.

Lemma report_values (doc : document) (tests : list lab_test) :
  process_lab_report doc = Some tests -> Forall from_value tests.
Proof.
  unfold process_lab_report.
  destruct (preprocess_image _); [|discriminate].
  destruct (nonempty (parse_text (full_text doc))).
  - intros H. injection H as <-. apply parse_text_values.
  - destruct (detect_table_regions (contours doc)) as [regions|];
      [|discriminate].
    destruct (process_regions doc regions []) as [all|] eqn:Ep;
      [|discriminate].
    apply process_regions_fold in Ep. subst all.
    intros H. injection H as <-.
    apply Forall_forall. intros t Ht. apply unique_sub in Ht. revert t Ht.
    apply Forall_forall.
    destruct (nonempty _) eqn:E; [|apply parse_text_values].
    apply fold_left_keeps; [|constructor]. intros acc r Hacc.
    unfold region_tests.
    destruct (extract_table_data _) as [table_data|]; apply Forall_app;
      (split; [exact Hacc|]); [apply table_data_cells | apply parse_text_values].
Qed.

(** X4: no record has an empty value.  The tabular strategy, the grid
    strategy and the aggressive fallback skip a row whose raw value is
    empty, and the value group of each of the four templates reads at least
    one character; so the value of every record of [parse_text], of
    [parse_table_data] and of [process_lab_report] is a float or a text
    that is not empty. *)
Theorem values_never_empty :
  (forall text, Forall has_value (parse_text text))
  /\ (forall table_data, Forall has_value (parse_table_data table_data))
  /\ (forall doc tests,
         process_lab_report doc = Some tests -> Forall has_value tests).
Proof.
  split; [|split].
  - intros text. eapply Forall_impl; [|apply parse_text_values].
    exact from_value_has_value.
  - intros table_data. eapply Forall_impl; [|apply table_data_cells].
    exact from_value_has_value.
  - intros doc tests H. eapply Forall_impl; [|exact (report_values doc tests H)].
    exact from_value_has_value.
Qed.

Lemma values_never_empty_witness :
  exists r,
    process_lab_report boxes_document = Some [r] /\ has_value r.
Proof.
  eexists. split; [vm_compute; reflexivity|].
  destruct values_never_empty as (_ & _ & H).
  exact (Forall_inv (H boxes_document _ eq_refl)).
Defined.
